(** * Kagenti: build-and-deploy workflow and dashboard handlers

    A shallow embedding of
    - the weather-tool Shipwright build-and-deploy shell script,
    - the import form, the catalog and the detail pages of the dashboard
      (the handlers that decide whether a request is sent to the backend),
    together with the properties the specification states about them.

    Strings are modelled as [string] (sequences of 8-bit characters): the
    inputs of the handlers are taken to be ASCII, on which JavaScript's
    [toLowerCase], [split] and the regular expression below agree with the
    functions defined here. *)

From stdpp Require Import base decidable option list strings gmap pretty.
From Stdlib Require Import ZArith Ascii.

Local Open Scope string_scope.
Local Open Scope list_scope.
Local Open Scope Z_scope.

(** ** The build-and-deploy script *)

Module Script.

(** *** Resources handed to [kubectl apply] *)

Inductive Kind := Build | BuildRun | Deployment | Service.

#[global] Instance Kind_eq_dec : EqDecision Kind.
Proof. solve_decision. Defined.

Definition Labels := list (string * string).

(** The parts of each manifest's [spec] that depend on script variables or
    tie the resources together. Annotations, resource limits, security
    contexts and volumes are constants of the heredocs and are left out. *)
Inductive Spec :=
| BuildSpec (git_url revision contextDir strategy output_image : string)
| BuildRunSpec (build_name : string)
| DeploymentSpec (replicas : Z) (matchLabels template_labels : Labels)
                 (container image : string) (containerPort : Z)
| ServiceSpec (selector : Labels) (port_name : string) (port targetPort : Z).

Record Manifest := {
  kind : Kind;
  name : string;
  namespace : string;
  labels : Labels;
  spec : Spec;
}.

(** *** The world the script runs in *)

(** Everything the script reads from outside: its environment, the clock and
    the answers of [kubectl]. An exit status other than [0] is a failure. *)
Record World := {
  getenv : string → option string;
  (** [IS_OPENSHIFT] once [lib/env-detect.sh] has been sourced (that file is
      not part of the sources at hand) *)
  IS_OPENSHIFT : option string;
  (** [date +%s] *)
  date_s : Z;
  (** exit status of [kubectl apply] on a manifest *)
  kubectl_apply : Manifest → Z;
  (** [kubectl get buildrun -o jsonpath=...Succeeded...status] at the i-th
      poll; [None] when the command fails *)
  succeeded_status : nat → option string;
  succeeded_reason : nat → option string;
  (** exit status of [kubectl get buildrun -o yaml] *)
  buildrun_yaml : Z;
  (** exit status and output of the two [.status.output] reads *)
  output_image : Z * string;
  output_digest : Z * string;
  (** exit status of [kubectl wait --for=condition=available] *)
  kubectl_wait : Z;
  (** exit status of [kubectl get deployment -o yaml] *)
  deployment_yaml : Z;
}.

(** *** Observable behaviour *)

Inductive event :=
| Echo (line : string)
| Apply (m : Manifest)
| GetCondition (buildrun field : string)
| GetYaml (k : Kind) (n : string)
| GetOutput (buildrun field : string)
| Sleep (seconds : Z)
| Wait (deployment : string).

Inductive result (A : Type) :=
| Next (a : A)
| Exit (code : Z)
| OutOfFuel.
Arguments Next {A} a.
Arguments Exit {A} code.
Arguments OutOfFuel {A}.

(** A command sequence: the events it performed, and how it ended. *)
Definition Sh (A : Type) : Type := list event * result A.

Definition ret {A} (a : A) : Sh A := ([], Next a).

Definition bind {A B} (m : Sh A) (k : A → Sh B) : Sh B :=
  match m with
  | (t, Next a) => let '(t', r) := k a in (t ++ t', r)
  | (t, Exit c) => (t, Exit c)
  | (t, OutOfFuel) => (t, OutOfFuel)
  end.

#[global] Instance Sh_ret : MRet Sh := @ret.
#[global] Instance Sh_bind : MBind Sh := λ A B k m, bind m k.

Definition echo (line : string) : Sh unit := ([Echo line], Next tt).

Definition exit {A} (code : Z) : Sh A := ([], Exit code).

(** A simple command under [set -e]: a non-zero status ends the script with
    that status. *)
Definition errexit (e : event) (status : Z) : Sh unit :=
  ([e], if decide (status = 0) then Next tt else Exit status).

(** [VAR=$(cmd)] under [set -e]. *)
Definition capture (e : event) (r : Z * string) : Sh string :=
  ([e], if decide (r.1 = 0) then Next r.2 else Exit r.1).

(** [VAR=$(cmd 2>/dev/null || echo "")] *)
Definition capture_or_empty (e : event) (r : option string) : Sh string :=
  ([e], Next (default "" r)).

(** [${VAR:-word}]: [word] when [VAR] is unset or empty. *)
Definition or_default (v : option string) (word : string) : string :=
  match v with
  | Some s => if decide (s = "") then word else s
  | None => word
  end.

(** *** Script variables *)

Record Vars := {
  NAMESPACE : string;
  TOOL_NAME : string;
  GIT_URL : string;
  GIT_BRANCH : string;
  GIT_PATH : string;
  IMAGE_TAG : string;
  REGISTRY : string;
}.

Definition vars (w : World) : Vars :=
  let ns := or_default (getenv w "NAMESPACE") "team1" in
  {| NAMESPACE := ns;
     TOOL_NAME := "weather-tool";
     GIT_URL := or_default (getenv w "GIT_URL") "https://github.com/kagenti/agent-examples";
     GIT_BRANCH := or_default (getenv w "GIT_BRANCH") "main";
     GIT_PATH := or_default (getenv w "GIT_PATH") "mcp/weather_tool";
     IMAGE_TAG := or_default (getenv w "IMAGE_TAG") "v0.0.1";
     REGISTRY :=
       if decide (or_default (IS_OPENSHIFT w) "false" = "true")
       then or_default (getenv w "REGISTRY")
              ("image-registry.openshift-image-registry.svc:5000/" +:+ ns)
       else or_default (getenv w "REGISTRY")
              "registry.cr-system.svc.cluster.local:5000" |}.

(** *** The four manifests *)

Definition build_manifest (v : Vars) : Manifest :=
  {| kind := Build;
     name := TOOL_NAME v;
     namespace := NAMESPACE v;
     labels := [("kagenti.io/type", "tool"); ("kagenti.io/managed-by", "shipwright")];
     spec := BuildSpec (GIT_URL v) (GIT_BRANCH v) (GIT_PATH v) "buildah-insecure"
               (REGISTRY v +:+ "/" +:+ TOOL_NAME v +:+ ":" +:+ IMAGE_TAG v) |}.

(** [BUILDRUN_NAME="${TOOL_NAME}-run-$(date +%s)"] *)
Definition BUILDRUN_NAME (v : Vars) (now : Z) : string :=
  TOOL_NAME v +:+ "-run-" +:+ pretty now.

Definition buildrun_manifest (v : Vars) (brn : string) : Manifest :=
  {| kind := BuildRun;
     name := brn;
     namespace := NAMESPACE v;
     labels := [("kagenti.io/type", "tool"); ("kagenti.io/build-name", TOOL_NAME v)];
     spec := BuildRunSpec (TOOL_NAME v) |}.

Definition deployment_manifest (v : Vars) (OUTPUT_IMAGE : string) : Manifest :=
  {| kind := Deployment;
     name := TOOL_NAME v;
     namespace := NAMESPACE v;
     labels := [("kagenti.io/type", "tool"); ("protocol.kagenti.io/mcp", "");
                ("kagenti.io/transport", "streamable_http");
                ("kagenti.io/built-by", "shipwright");
                ("kagenti.io/build-name", TOOL_NAME v);
                ("app.kubernetes.io/name", TOOL_NAME v)];
     spec := DeploymentSpec 1
               [("kagenti.io/type", "tool"); ("app.kubernetes.io/name", TOOL_NAME v)]
               [("kagenti.io/type", "tool"); ("protocol.kagenti.io/mcp", "");
                ("kagenti.io/transport", "streamable_http");
                ("app.kubernetes.io/name", TOOL_NAME v)]
               "mcp" OUTPUT_IMAGE 8000 |}.

Definition service_manifest (v : Vars) : Manifest :=
  {| kind := Service;
     name := TOOL_NAME v +:+ "-mcp";
     namespace := NAMESPACE v;
     labels := [("kagenti.io/type", "tool"); ("protocol.kagenti.io/mcp", "");
                ("app.kubernetes.io/name", TOOL_NAME v)];
     spec := ServiceSpec
               [("kagenti.io/type", "tool"); ("app.kubernetes.io/name", TOOL_NAME v)]
               "http" 8000 8000 |}.

(** *** Step 3: the BuildRun poll loop *)

Definition TIMEOUT : Z := 600.
Definition POLL_INTERVAL : Z := 10.

(** [while [ $ELAPSED -lt $TIMEOUT ]; do ... done], started at iteration [i]
    with the given [ELAPSED]; returns the value of [ELAPSED] on leaving the
    loop. [fuel] bounds the number of iterations of the model. *)
Fixpoint poll_loop (w : World) (brn : string) (fuel : nat) (i : nat) (ELAPSED : Z)
  : Sh Z :=
  if decide (ELAPSED < TIMEOUT) then
    match fuel with
    | O => ([], OutOfFuel)
    | S fuel' =>
        STATUS ← capture_or_empty (GetCondition brn "status") (succeeded_status w i) ;
        REASON ← capture_or_empty (GetCondition brn "reason") (succeeded_reason w i) ;
        if decide (STATUS = "True") then
          echo "BuildRun succeeded!" ;;
          mret ELAPSED
        else if decide (STATUS = "False") then
          echo ("BuildRun failed with reason: " +:+ REASON) ;;
          errexit (GetYaml BuildRun brn) (buildrun_yaml w) ;;
          exit 1
        else
          echo ("BuildRun status: " +:+ or_default (Some REASON) "Pending"
                +:+ "... (" +:+ pretty ELAPSED +:+ "s elapsed)") ;;
          ([Sleep POLL_INTERVAL], Next tt) ;;
          poll_loop w brn fuel' (S i) (ELAPSED + POLL_INTERVAL)
    end
  else mret ELAPSED.

(** Enough iterations for the loop to run to its end. *)
Definition poll_fuel : nat := Z.to_nat (TIMEOUT / POLL_INTERVAL).

(** *** The script *)

(** Lines 31-96: the banner, then steps 1 and 2. Returns [BUILDRUN_NAME]. *)
Definition steps_1_2 (w : World) : Sh string :=
  let v := vars w in
  echo "=== Deploying Weather Tool via Shipwright Build ===" ;;
  echo ("Namespace: " +:+ NAMESPACE v) ;;
  echo ("Git URL: " +:+ GIT_URL v) ;;
  echo ("Git Branch: " +:+ GIT_BRANCH v) ;;
  echo ("Git Path: " +:+ GIT_PATH v) ;;
  echo ("Registry: " +:+ REGISTRY v) ;;
  echo ("Image Tag: " +:+ IMAGE_TAG v) ;;
  echo "" ;;
  (* Step 1 *)
  echo "Step 1: Creating Shipwright Build resource..." ;;
  errexit (Apply (build_manifest v)) (kubectl_apply w (build_manifest v)) ;;
  echo "Build resource created." ;;
  (* Step 2 *)
  echo "" ;;
  echo "Step 2: Creating BuildRun to start container image build..." ;;
  let brn := BUILDRUN_NAME v (date_s w) in
  errexit (Apply (buildrun_manifest v brn)) (kubectl_apply w (buildrun_manifest v brn)) ;;
  echo ("BuildRun '" +:+ brn +:+ "' created.") ;;
  mret brn.

(** Lines 98-129: step 3, the poll loop and the check that follows it. *)
Definition step_3 (w : World) (brn : string) : Sh unit :=
  echo "" ;;
  echo "Step 3: Waiting for BuildRun to complete..." ;;
  echo "This may take several minutes depending on the build complexity." ;;
  ELAPSED ← poll_loop w brn poll_fuel 0 0 ;
  if decide (ELAPSED >= TIMEOUT) then
    echo "Timeout waiting for BuildRun to complete" ;;
    exit 1
  else mret tt.

(** Lines 131-249: steps 4, 5, 5b and 6, and the closing summary. *)
Definition steps_4_6 (w : World) (brn : string) : Sh unit :=
  let v := vars w in
  (* Step 4 *)
  echo "" ;;
  echo "Step 4: Retrieving output image..." ;;
  OUTPUT_IMAGE ← capture (GetOutput brn "image") (output_image w) ;
  OUTPUT_DIGEST ← capture (GetOutput brn "digest") (output_digest w) ;
  echo ("Output Image: " +:+ OUTPUT_IMAGE) ;;
  echo ("Output Digest: " +:+ OUTPUT_DIGEST) ;;
  (* Step 5 *)
  echo "" ;;
  echo "Step 5: Creating Deployment resource..." ;;
  errexit (Apply (deployment_manifest v OUTPUT_IMAGE))
          (kubectl_apply w (deployment_manifest v OUTPUT_IMAGE)) ;;
  (* Step 5b *)
  echo "Creating Service..." ;;
  errexit (Apply (service_manifest v)) (kubectl_apply w (service_manifest v)) ;;
  echo ("Deployment '" +:+ TOOL_NAME v +:+ "' and Service '" +:+ TOOL_NAME v
        +:+ "-mcp' created.") ;;
  (* Step 6 *)
  echo "" ;;
  echo "Step 6: Waiting for Deployment to be ready..." ;;
  ([Wait (TOOL_NAME v)], Next tt) ;;
  (if decide (kubectl_wait w = 0) then mret tt
   else
     echo "Warning: Deployment not ready within timeout, checking status..." ;;
     errexit (GetYaml Deployment (TOOL_NAME v)) (deployment_yaml w)) ;;
  echo "" ;;
  echo "=== Weather Tool Deployment Complete ===" ;;
  echo ("Tool Name: " +:+ TOOL_NAME v) ;;
  echo ("Namespace: " +:+ NAMESPACE v) ;;
  echo ("Image: " +:+ OUTPUT_IMAGE) ;;
  echo ("Service: " +:+ TOOL_NAME v +:+ "-mcp") ;;
  echo "" ;;
  echo "To verify the tool is running:" ;;
  echo ("  kubectl get deployment " +:+ TOOL_NAME v +:+ " -n " +:+ NAMESPACE v) ;;
  echo ("  kubectl get service " +:+ TOOL_NAME v +:+ "-mcp -n " +:+ NAMESPACE v) ;;
  echo ("  kubectl get pods -l app.kubernetes.io/name=" +:+ TOOL_NAME v
        +:+ " -n " +:+ NAMESPACE v).

Definition main (w : World) : Sh unit :=
  brn ← steps_1_2 w ;
  step_3 w brn ;;
  steps_4_6 w brn.

(** The script as a whole: what it did, and its exit status ([0] when the
    last command has run). *)
Definition run (w : World) : list event * result Z :=
  match main w with
  | (t, Next _) => (t, Exit 0)
  | (t, Exit c) => (t, Exit c)
  | (t, OutOfFuel) => (t, OutOfFuel)
  end.

Definition trace (w : World) : list event := (run w).1.
Definition exit_status (w : World) : result Z := (run w).2.

(** *** Vocabulary for the properties of a run *)

(** The steps of the workflow an event stands for: a resource creation, a
    read of the BuildRun's [Succeeded] condition, the readiness wait. *)
Inductive Step :=
| Create (m : Manifest)
| PollBuildRun
| PollReady.

Definition step_of (e : event) : option Step :=
  match e with
  | Apply m => Some (Create m)
  | GetCondition _ _ => Some PollBuildRun
  | Wait _ => Some PollReady
  | _ => None
  end.

Definition steps (t : list event) : list Step := omap step_of t.

(** The four manifests of a run, in the order of the script text. *)
Definition the_build (w : World) : Manifest := build_manifest (vars w).
Definition the_buildrun (w : World) : Manifest :=
  buildrun_manifest (vars w) (BUILDRUN_NAME (vars w) (date_s w)).
Definition the_deployment (w : World) : Manifest :=
  deployment_manifest (vars w) (output_image w).2.
Definition the_service (w : World) : Manifest := service_manifest (vars w).


(** A step that has succeeded: for a creation, [kubectl apply] returned 0, so
    that the resource exists. *)
Definition step_ok (w : World) (s : Step) : Prop :=
  match s with
  | Create m => kubectl_apply w m = 0
  | _ => True
  end.

(** What the i-th poll reads as [STATUS]. *)
Definition status_at (w : World) (i : nat) : string :=
  default "" (succeeded_status w i).
Definition reason_at (w : World) (i : nat) : string :=
  default "" (succeeded_reason w i).

(** Polls [0 .. j-1] all read a condition that is neither True nor False. *)
Definition pending_until (w : World) (j : nat) : Prop :=
  ∀ k, (k < j)%nat → status_at w k ≠ "True" ∧ status_at w k ≠ "False".

(** The three ways the cluster can answer the polls of one run. *)
Definition build_succeeded_at (w : World) (j : nat) : Prop :=
  (j < poll_fuel)%nat ∧ pending_until w j ∧ status_at w j = "True".
Definition build_failed_at (w : World) (j : nat) : Prop :=
  (j < poll_fuel)%nat ∧ pending_until w j ∧ status_at w j = "False".
Definition build_succeeded (w : World) : Prop := ∃ j, build_succeeded_at w j.
Definition build_failed (w : World) : Prop := ∃ j, build_failed_at w j.
Definition poll_timed_out (w : World) : Prop := pending_until w poll_fuel.

(** Both resources of steps 1 and 2 were created, so that step 3 is reached. *)
Definition build_started (w : World) : Prop :=
  kubectl_apply w (the_build w) = 0 ∧ kubectl_apply w (the_buildrun w) = 0.

Definition is_workload_apply (e : event) : Prop :=
  ∃ m, e = Apply m ∧ (kind m = Deployment ∨ kind m = Service).

(** A step that creates the workload or its Service. *)
Definition workload_step (s : Step) : Prop :=
  match s with
  | Create m => kind m = Deployment ∨ kind m = Service
  | _ => False
  end.

(** The shapes a run can take: which of its commands stopped it, what it had
    done by then, and its exit status. [A] is the trace of steps 1 and 2, [P]
    that of step 3, [D] that of steps 4 to 6. *)
Inductive outcome (w : World) : list event → result Z → Prop :=
| apply_build_failed t :
    steps t = [Create (the_build w)] →
    kubectl_apply w (the_build w) ≠ 0 →
    outcome w t (Exit (kubectl_apply w (the_build w)))
| apply_buildrun_failed t :
    steps t = [Create (the_build w); Create (the_buildrun w)] →
    kubectl_apply w (the_build w) = 0 →
    kubectl_apply w (the_buildrun w) ≠ 0 →
    outcome w t (Exit (kubectl_apply w (the_buildrun w)))
| build_failure A P k j c :
    steps A = [Create (the_build w); Create (the_buildrun w)] →
    build_started w →
    steps P = replicate (S k) PollBuildRun →
    build_failed_at w j →
    c ≠ 0 → (buildrun_yaml w = 0 → c = 1) →
    Echo ("BuildRun failed with reason: " +:+ reason_at w j) ∈ P →
    outcome w (A ++ P) (Exit c)
| poll_timeout A P k :
    steps A = [Create (the_build w); Create (the_buildrun w)] →
    build_started w →
    steps P = replicate (S k) PollBuildRun →
    poll_timed_out w →
    last P = Some (Echo "Timeout waiting for BuildRun to complete") →
    outcome w (A ++ P) (Exit 1)
| build_success A P k j D n c :
    steps A = [Create (the_build w); Create (the_buildrun w)] →
    build_started w →
    steps P = replicate (S k) PollBuildRun →
    build_succeeded_at w j →
    Echo "BuildRun succeeded!" ∈ P →
    (n ≤ 3)%nat →
    steps D = take n [Create (the_deployment w); Create (the_service w); PollReady] →
    Forall (step_ok w)
      (take (pred n) [Create (the_deployment w); Create (the_service w); PollReady]) →
    (c = 0 → n = 3%nat ∧ kubectl_apply w (the_service w) = 0) →
    outcome w (A ++ P ++ D) (Exit c).

(** *** Sample worlds *)

(** A cluster on which every command succeeds, the clock reads
    1700000000 and the polls read the given conditions. *)
Definition world_with (status : nat → option string) : World :=
  {| getenv := λ _, None;
     IS_OPENSHIFT := None;
     date_s := 1700000000;
     kubectl_apply := λ _, 0;
     succeeded_status := status;
     succeeded_reason := λ _, Some "Building";
     buildrun_yaml := 0;
     output_image := (0, "registry.cr-system.svc.cluster.local:5000/weather-tool:v0.0.1");
     output_digest := (0, "sha256:0123");
     kubectl_wait := 0;
     deployment_yaml := 0 |}.

(** The build succeeds at the third poll. *)
Definition world_succeeds : World :=
  world_with (λ i, if decide (i = 2%nat) then Some "True" else Some "Unknown").

(** The build fails at the second poll. *)
Definition world_fails : World :=
  world_with (λ i, if decide (i = 1%nat) then Some "False" else None).

(** The BuildRun never reports a terminal condition. *)
Definition world_hangs : World := world_with (λ _, Some "Unknown").

End Script.

(** ** JavaScript strings and regular expressions *)

Module Js.

(** A value used as a condition: a string is truthy when it is not empty. *)
Definition truthy (s : string) : bool := bool_decide (s ≠ "").

(** [a || b] on strings. *)
Definition or_else (a b : string) : string := if truthy a then a else b.

(** [s.split(sep)] for a one-character separator: never empty. *)
Fixpoint split (sep : ascii) (s : string) : list string :=
  match s with
  | EmptyString => [""]
  | String c s' =>
      if decide (c = sep) then "" :: split sep s'
      else match split sep s' with
           | [] => [String c ""]
           | h :: t => String c h :: t
           end
  end.

(** [parts[parts.length - 1]] *)
Definition last_part (parts : list string) : string := default "" (last parts).
(** [parts[0]] *)
Definition first_part (parts : list string) : string := default "" (head parts).

Fixpoint map_chars (f : ascii → ascii) (s : string) : string :=
  match s with
  | EmptyString => EmptyString
  | String c s' => String (f c) (map_chars f s')
  end.

Definition lower_char (c : ascii) : ascii :=
  let n := Ascii.N_of_ascii c in
  if ((65 <=? n) && (n <=? 90))%N then Ascii.ascii_of_N (n + 32) else c.

(** [s.toLowerCase()] *)
Definition toLowerCase (s : string) : string := map_chars lower_char s.

(** [s.replace(/_/g, '-')] *)
Definition replace_underscores (s : string) : string :=
  map_chars (λ c, if decide (c = "_"%char) then "-"%char else c) s.

Definition is_space (c : ascii) : bool :=
  let n := Ascii.N_of_ascii c in
  (((9 <=? n) && (n <=? 13)) || (n =? 32))%N.

Fixpoint all_chars (p : ascii → bool) (s : string) : bool :=
  match s with
  | EmptyString => true
  | String c s' => p c && all_chars p s'
  end.

(** [s.trim() !== ''] *)
Definition trim_nonempty (s : string) : bool := negb (all_chars is_space s).

(** Regular expressions, matched against the whole input (both alternatives
    of the one expression used below are anchored with [^] and [$]). *)
Inductive regex :=
| Void
| Eps
| Class (p : ascii → bool)
| Seq (r1 r2 : regex)
| Alt (r1 r2 : regex)
| Star (r : regex).

Fixpoint nullable (r : regex) : bool :=
  match r with
  | Void => false
  | Eps => true
  | Class _ => false
  | Seq r1 r2 => nullable r1 && nullable r2
  | Alt r1 r2 => nullable r1 || nullable r2
  | Star _ => true
  end.

Fixpoint deriv (c : ascii) (r : regex) : regex :=
  match r with
  | Void => Void
  | Eps => Void
  | Class p => if p c then Eps else Void
  | Seq r1 r2 =>
      if nullable r1 then Alt (Seq (deriv c r1) r2) (deriv c r2)
      else Seq (deriv c r1) r2
  | Alt r1 r2 => Alt (deriv c r1) (deriv c r2)
  | Star r' => Seq (deriv c r') (Star r')
  end.

Fixpoint test (r : regex) (s : string) : bool :=
  match s with
  | EmptyString => nullable r
  | String c s' => test (deriv c r) s'
  end.

(** What it is for a string to match a regular expression. *)
Inductive matches : regex → string → Prop :=
| m_eps : matches Eps ""
| m_class p c : p c = true → matches (Class p) (String c "")
| m_seq r1 r2 s1 s2 :
    matches r1 s1 → matches r2 s2 → matches (Seq r1 r2) (s1 +:+ s2)
| m_alt_l r1 r2 s : matches r1 s → matches (Alt r1 r2) s
| m_alt_r r1 r2 s : matches r2 s → matches (Alt r1 r2) s
| m_star_nil r : matches (Star r) ""
| m_star_cons r s1 s2 :
    matches r s1 → matches (Star r) s2 → matches (Star r) (s1 +:+ s2).

Definition in_range (lo hi : N) (c : ascii) : bool :=
  let n := Ascii.N_of_ascii c in ((lo <=? n) && (n <=? hi))%N.

(** [[a-z0-9]] *)
Definition lower_alnum (c : ascii) : bool := in_range 97 122 c || in_range 48 57 c.
(** [[a-z0-9-]] *)
Definition lower_alnum_dash (c : ascii) : bool :=
  lower_alnum c || bool_decide (c = "-"%char).

End Js.

(** ** The import page (ImportAgentPage) *)

Module ImportAgentPage.
Import Js.

Inductive DeploymentMethod := source | image.

#[global] Instance DeploymentMethod_eq_dec : EqDecision DeploymentMethod.
Proof. solve_decision. Defined.

Record KeyRef := { ref_name : string; ref_key : string }.

Record ValueFrom := {
  secretKeyRef : option KeyRef;
  configMapKeyRef : option KeyRef;
}.

Record EnvVar := {
  ev_name : string;
  ev_value : option string;
  ev_valueFrom : option ValueFrom;
}.

Inductive Protocol := TCP | UDP.

Record ServicePort := {
  sp_name : string;
  sp_port : Z;
  sp_targetPort : Z;
  sp_protocol : Protocol;
}.

Inductive WorkloadType := deployment | statefulset | job.

Inductive Validated := success | error | default_.

Record RegistryOption := { ro_value : string; ro_label : string; ro_url : string }.

Definition REGISTRY_OPTIONS : list RegistryOption :=
  [ {| ro_value := "local"; ro_label := "Local Registry (In-Cluster)";
       ro_url := "registry.cr-system.svc.cluster.local:5000" |};
    {| ro_value := "quay"; ro_label := "Quay.io"; ro_url := "quay.io" |};
    {| ro_value := "dockerhub"; ro_label := "Docker Hub"; ro_url := "docker.io" |};
    {| ro_value := "github"; ro_label := "GitHub Container Registry";
       ro_url := "ghcr.io" |} ].

Definition DEFAULT_REPO_URL : string := "https://github.com/kagenti/agent-examples".
Definition DEFAULT_BRANCH : string := "main".

(** The component state (one field per [useState]). *)
Record State := {
  deploymentMethod : DeploymentMethod;
  namespace : string;
  name : string;
  protocol : string;
  framework : string;
  gitUrl : string;
  gitBranch : string;
  gitPath : string;
  selectedExample : string;
  startCommand : string;
  showStartCommand : bool;
  registryType : string;
  registryNamespace : string;
  registrySecret : string;
  buildStrategy : string;
  dockerfile : string;
  buildTimeout : string;
  buildArgs : list string;
  containerImage : string;
  imageTag : string;
  imagePullSecret : string;
  servicePorts : list ServicePort;
  envVars : list EnvVar;
  showEnvVars : bool;
  workloadType : WorkloadType;
  createHttpRoute : bool;
  authBridgeEnabled : bool;
  spireEnabled : bool;
  validated : gmap string Validated;
}.

(** The state right after the component is mounted. *)
Definition initial : State :=
  {| deploymentMethod := source; namespace := "team1"; name := "";
     protocol := "a2a"; framework := "LangGraph";
     gitUrl := DEFAULT_REPO_URL; gitBranch := DEFAULT_BRANCH; gitPath := "";
     selectedExample := ""; startCommand := "python main.py";
     showStartCommand := false;
     registryType := "local"; registryNamespace := ""; registrySecret := "";
     buildStrategy := "buildah-insecure-push"; dockerfile := "Dockerfile";
     buildTimeout := "15m"; buildArgs := [];
     containerImage := ""; imageTag := "latest"; imagePullSecret := "";
     servicePorts := [ {| sp_name := "http"; sp_port := 8080;
                          sp_targetPort := 8000; sp_protocol := TCP |} ];
     envVars := []; showEnvVars := false;
     workloadType := deployment; createHttpRoute := false;
     authBridgeEnabled := true; spireEnabled := false;
     validated := ∅ |}.

(** [setValidated(x)] *)
Definition set_validated (x : gmap string Validated) (st : State) : State :=
  {| deploymentMethod := deploymentMethod st; namespace := namespace st;
     name := name st; protocol := protocol st; framework := framework st;
     gitUrl := gitUrl st; gitBranch := gitBranch st; gitPath := gitPath st;
     selectedExample := selectedExample st; startCommand := startCommand st;
     showStartCommand := showStartCommand st;
     registryType := registryType st;
     registryNamespace := registryNamespace st;
     registrySecret := registrySecret st; buildStrategy := buildStrategy st;
     dockerfile := dockerfile st; buildTimeout := buildTimeout st;
     buildArgs := buildArgs st; containerImage := containerImage st;
     imageTag := imageTag st; imagePullSecret := imagePullSecret st;
     servicePorts := servicePorts st; envVars := envVars st;
     showEnvVars := showEnvVars st; workloadType := workloadType st;
     createHttpRoute := createHttpRoute st;
     authBridgeEnabled := authBridgeEnabled st;
     spireEnabled := spireEnabled st; validated := x |}.

(** [setServicePorts(x)] *)
Definition set_servicePorts (x : list ServicePort) (st : State) : State :=
  {| deploymentMethod := deploymentMethod st; namespace := namespace st;
     name := name st; protocol := protocol st; framework := framework st;
     gitUrl := gitUrl st; gitBranch := gitBranch st; gitPath := gitPath st;
     selectedExample := selectedExample st; startCommand := startCommand st;
     showStartCommand := showStartCommand st;
     registryType := registryType st;
     registryNamespace := registryNamespace st;
     registrySecret := registrySecret st; buildStrategy := buildStrategy st;
     dockerfile := dockerfile st; buildTimeout := buildTimeout st;
     buildArgs := buildArgs st; containerImage := containerImage st;
     imageTag := imageTag st; imagePullSecret := imagePullSecret st;
     servicePorts := x; envVars := envVars st;
     showEnvVars := showEnvVars st; workloadType := workloadType st;
     createHttpRoute := createHttpRoute st;
     authBridgeEnabled := authBridgeEnabled st;
     spireEnabled := spireEnabled st; validated := validated st |}.

(** [setEnvVars(x)] *)
Definition set_envVars (x : list EnvVar) (st : State) : State :=
  {| deploymentMethod := deploymentMethod st; namespace := namespace st;
     name := name st; protocol := protocol st; framework := framework st;
     gitUrl := gitUrl st; gitBranch := gitBranch st; gitPath := gitPath st;
     selectedExample := selectedExample st; startCommand := startCommand st;
     showStartCommand := showStartCommand st;
     registryType := registryType st;
     registryNamespace := registryNamespace st;
     registrySecret := registrySecret st; buildStrategy := buildStrategy st;
     dockerfile := dockerfile st; buildTimeout := buildTimeout st;
     buildArgs := buildArgs st; containerImage := containerImage st;
     imageTag := imageTag st; imagePullSecret := imagePullSecret st;
     servicePorts := servicePorts st; envVars := x;
     showEnvVars := showEnvVars st; workloadType := workloadType st;
     createHttpRoute := createHttpRoute st;
     authBridgeEnabled := authBridgeEnabled st;
     spireEnabled := spireEnabled st; validated := validated st |}.

(** [setShowEnvVars(x)] *)
Definition set_showEnvVars (x : bool) (st : State) : State :=
  {| deploymentMethod := deploymentMethod st; namespace := namespace st;
     name := name st; protocol := protocol st; framework := framework st;
     gitUrl := gitUrl st; gitBranch := gitBranch st; gitPath := gitPath st;
     selectedExample := selectedExample st; startCommand := startCommand st;
     showStartCommand := showStartCommand st;
     registryType := registryType st;
     registryNamespace := registryNamespace st;
     registrySecret := registrySecret st; buildStrategy := buildStrategy st;
     dockerfile := dockerfile st; buildTimeout := buildTimeout st;
     buildArgs := buildArgs st; containerImage := containerImage st;
     imageTag := imageTag st; imagePullSecret := imagePullSecret st;
     servicePorts := servicePorts st; envVars := envVars st;
     showEnvVars := x; workloadType := workloadType st;
     createHttpRoute := createHttpRoute st;
     authBridgeEnabled := authBridgeEnabled st;
     spireEnabled := spireEnabled st; validated := validated st |}.

(** [setName(x)] *)
Definition set_name (x : string) (st : State) : State :=
  {| deploymentMethod := deploymentMethod st; namespace := namespace st;
     name := x; protocol := protocol st; framework := framework st;
     gitUrl := gitUrl st; gitBranch := gitBranch st; gitPath := gitPath st;
     selectedExample := selectedExample st; startCommand := startCommand st;
     showStartCommand := showStartCommand st;
     registryType := registryType st;
     registryNamespace := registryNamespace st;
     registrySecret := registrySecret st; buildStrategy := buildStrategy st;
     dockerfile := dockerfile st; buildTimeout := buildTimeout st;
     buildArgs := buildArgs st; containerImage := containerImage st;
     imageTag := imageTag st; imagePullSecret := imagePullSecret st;
     servicePorts := servicePorts st; envVars := envVars st;
     showEnvVars := showEnvVars st; workloadType := workloadType st;
     createHttpRoute := createHttpRoute st;
     authBridgeEnabled := authBridgeEnabled st;
     spireEnabled := spireEnabled st; validated := validated st |}.

(** [setGitPath(x)] *)
Definition set_gitPath (x : string) (st : State) : State :=
  {| deploymentMethod := deploymentMethod st; namespace := namespace st;
     name := name st; protocol := protocol st; framework := framework st;
     gitUrl := gitUrl st; gitBranch := gitBranch st; gitPath := x;
     selectedExample := selectedExample st; startCommand := startCommand st;
     showStartCommand := showStartCommand st;
     registryType := registryType st;
     registryNamespace := registryNamespace st;
     registrySecret := registrySecret st; buildStrategy := buildStrategy st;
     dockerfile := dockerfile st; buildTimeout := buildTimeout st;
     buildArgs := buildArgs st; containerImage := containerImage st;
     imageTag := imageTag st; imagePullSecret := imagePullSecret st;
     servicePorts := servicePorts st; envVars := envVars st;
     showEnvVars := showEnvVars st; workloadType := workloadType st;
     createHttpRoute := createHttpRoute st;
     authBridgeEnabled := authBridgeEnabled st;
     spireEnabled := spireEnabled st; validated := validated st |}.

(** [setSelectedExample(x)] *)
Definition set_selectedExample (x : string) (st : State) : State :=
  {| deploymentMethod := deploymentMethod st; namespace := namespace st;
     name := name st; protocol := protocol st; framework := framework st;
     gitUrl := gitUrl st; gitBranch := gitBranch st; gitPath := gitPath st;
     selectedExample := x; startCommand := startCommand st;
     showStartCommand := showStartCommand st;
     registryType := registryType st;
     registryNamespace := registryNamespace st;
     registrySecret := registrySecret st; buildStrategy := buildStrategy st;
     dockerfile := dockerfile st; buildTimeout := buildTimeout st;
     buildArgs := buildArgs st; containerImage := containerImage st;
     imageTag := imageTag st; imagePullSecret := imagePullSecret st;
     servicePorts := servicePorts st; envVars := envVars st;
     showEnvVars := showEnvVars st; workloadType := workloadType st;
     createHttpRoute := createHttpRoute st;
     authBridgeEnabled := authBridgeEnabled st;
     spireEnabled := spireEnabled st; validated := validated st |}.

Definition getNameFromPath (st : State) : string :=
  if decide (deploymentMethod st = image) then
    let parts := split "/" (containerImage st) in
    let imageName := first_part (split ":" (last_part parts)) in
    toLowerCase (replace_underscores imageName)
  else
    let path := or_else (gitPath st) (selectedExample st) in
    if negb (truthy path) then ""
    else
      let parts := split "/" path in
      toLowerCase (replace_underscores (last_part parts)).

(** [const finalName = name || getNameFromPath()] *)
Definition finalName (st : State) : string :=
  or_else (name st) (getNameFromPath st).

(** [/^[a-z0-9][a-z0-9-]*[a-z0-9]$|^[a-z0-9]$/] *)
Definition name_regex : regex :=
  Alt (Seq (Class lower_alnum) (Seq (Star (Class lower_alnum_dash)) (Class lower_alnum)))
      (Class lower_alnum).

Definition getRegistryUrl (st : State) : string :=
  match List.find (λ r, bool_decide (ro_value r = registryType st)) REGISTRY_OPTIONS with
  | None => ""
  | Some registry =>
      if decide (registryType st = "local") then ro_url registry
      else if truthy (registryNamespace st)
           then ro_url registry +:+ "/" +:+ registryNamespace st
           else ro_url registry
  end.

(** [validateForm]: the marks it passes to [setValidated], and its result. *)
Definition validateForm (st : State) : gmap string Validated * bool :=
  let newValidated : gmap string Validated := ∅ in
  let isValid := true in
  (* Name validation *)
  let '(newValidated, isValid) :=
    if negb (truthy (finalName st)) then (<["name" := error]> newValidated, false)
    else if negb (test name_regex (finalName st))
         then (<["name" := error]> newValidated, false)
         else (<["name" := success]> newValidated, isValid) in
  if decide (deploymentMethod st = source) then
    (* Git URL validation *)
    let '(newValidated, isValid) :=
      if negb (truthy (gitUrl st)) then (<["gitUrl" := error]> newValidated, false)
      else (<["gitUrl" := success]> newValidated, isValid) in
    (* Git path validation *)
    let '(newValidated, isValid) :=
      if negb (truthy (gitPath st)) && negb (truthy (selectedExample st))
      then (<["gitPath" := error]> newValidated, false)
      else (<["gitPath" := success]> newValidated, isValid) in
    (* Registry namespace validation for external registries *)
    let '(newValidated, isValid) :=
      if bool_decide (registryType st ≠ "local") && negb (truthy (registryNamespace st))
      then (<["registryNamespace" := error]> newValidated, false)
      else (newValidated, isValid) in
    (newValidated, isValid)
  else
    (* Container image validation *)
    let '(newValidated, isValid) :=
      if negb (truthy (containerImage st))
      then (<["containerImage" := error]> newValidated, false)
      else (<["containerImage" := success]> newValidated, isValid) in
    (newValidated, isValid).

Record ShipwrightBuildConfig := {
  sw_buildStrategy : string;
  sw_dockerfile : string;
  sw_buildTimeout : string;
  sw_buildArgs : list string;
}.

(** The argument of [createMutation.mutate]. *)
Record CreateRequest := {
  cr_name : string;
  cr_namespace : string;
  cr_gitUrl : string;
  cr_gitPath : string;
  cr_gitBranch : string;
  cr_imageTag : string;
  cr_protocol : string;
  cr_framework : string;
  cr_envVars : list EnvVar;
  cr_workloadType : WorkloadType;
  cr_deploymentMethod : DeploymentMethod;
  cr_registryUrl : option string;
  cr_registrySecret : option string;
  cr_startCommand : option string;
  cr_containerImage : option string;
  cr_imagePullSecret : option string;
  cr_servicePorts : list ServicePort;
  cr_createHttpRoute : bool;
  cr_authBridgeEnabled : bool;
  cr_spireEnabled : bool;
  cr_shipwrightConfig : option ShipwrightBuildConfig;
}.

(** [ev.name && (ev.value || ev.valueFrom)] *)
Definition env_filled (ev : EnvVar) : bool :=
  truthy (ev_name ev)
  && (from_option truthy false (ev_value ev) || bool_decide (is_Some (ev_valueFrom ev))).

(** [s || undefined] *)
Definition or_undefined (s : string) : option string :=
  if truthy s then Some s else None.

(** [handleSubmit]: the state after [setValidated], and the calls made to
    [createMutation.mutate]. *)
Definition handleSubmit (st : State) : State * list CreateRequest :=
  let '(newValidated, isValid) := validateForm st in
  let st' := set_validated newValidated st in
  if negb isValid then (st', [])
  else
    let finalName := finalName st in
    if decide (deploymentMethod st = source) then
      let finalPath := or_else (gitPath st) (selectedExample st) in
      let shipwrightConfig :=
        {| sw_buildStrategy := buildStrategy st;
           sw_dockerfile := dockerfile st;
           sw_buildTimeout := buildTimeout st;
           sw_buildArgs := List.filter trim_nonempty (buildArgs st) |} in
      (st', [ {| cr_name := finalName;
                 cr_namespace := namespace st;
                 cr_gitUrl := gitUrl st;
                 cr_gitPath := finalPath;
                 cr_gitBranch := gitBranch st;
                 cr_imageTag := "v0.0.1";
                 cr_protocol := protocol st;
                 cr_framework := framework st;
                 cr_envVars := List.filter env_filled (envVars st);
                 cr_workloadType := workloadType st;
                 cr_deploymentMethod := source;
                 cr_registryUrl := Some (getRegistryUrl st);
                 cr_registrySecret :=
                   if decide (registryType st ≠ "local")
                   then Some (registrySecret st) else None;
                 cr_startCommand :=
                   if showStartCommand st then Some (startCommand st) else None;
                 cr_containerImage := None;
                 cr_imagePullSecret := None;
                 cr_servicePorts := servicePorts st;
                 cr_createHttpRoute := createHttpRoute st;
                 cr_authBridgeEnabled := authBridgeEnabled st;
                 cr_spireEnabled := spireEnabled st;
                 cr_shipwrightConfig := Some shipwrightConfig |} ])
    else
      let fullImage :=
        if truthy (imageTag st) then containerImage st +:+ ":" +:+ imageTag st
        else containerImage st in
      (st', [ {| cr_name := finalName;
                 cr_namespace := namespace st;
                 cr_gitUrl := "";
                 cr_gitPath := "";
                 cr_gitBranch := "";
                 cr_imageTag := imageTag st;
                 cr_protocol := protocol st;
                 cr_framework := framework st;
                 cr_envVars := List.filter env_filled (envVars st);
                 cr_workloadType := workloadType st;
                 cr_deploymentMethod := image;
                 cr_registryUrl := None;
                 cr_registrySecret := None;
                 cr_startCommand := None;
                 cr_containerImage := Some fullImage;
                 cr_imagePullSecret := or_undefined (imagePullSecret st);
                 cr_servicePorts := servicePorts st;
                 cr_createHttpRoute := createHttpRoute st;
                 cr_authBridgeEnabled := authBridgeEnabled st;
                 cr_spireEnabled := spireEnabled st;
                 cr_shipwrightConfig := None |} ]).

(** [handlePathChange] *)
Definition handlePathChange (value : string) (st : State) : State :=
  let st' := set_selectedExample "" (set_gitPath value st) in
  if truthy value && negb (truthy (name st)) then
    let parts := split "/" value in
    let autoName := toLowerCase (replace_underscores (last_part parts)) in
    set_name autoName st'
  else st'.

(** [addServicePort] *)
Definition addServicePort (st : State) : State :=
  set_servicePorts
    (servicePorts st ++
       [ {| sp_name := "http"; sp_port := 8080; sp_targetPort := 8000;
            sp_protocol := TCP |} ]) st.

(** [handleImportEnvVars] *)
Definition handleImportEnvVars (importedVars : list EnvVar) (st : State) : State :=
  let existingNames : gset string := list_to_set (ev_name <$> envVars st) in
  let newVars := filter (λ v, ev_name v ∉ existingNames) importedVars in
  set_showEnvVars true (set_envVars (envVars st ++ newVars) st).

(** *** The conditions under which the form is, or should be, rejected *)

Fixpoint last_char (c : ascii) (s : string) : ascii :=
  match s with
  | EmptyString => c
  | String c' s' => last_char c' s'
  end.

(** Not empty, each character a lower-case letter, a digit or a hyphen, the
    first and the last one not a hyphen. *)
Definition label_shape (s : string) : bool :=
  match s with
  | EmptyString => false
  | String c s' =>
      lower_alnum c && all_chars lower_alnum_dash s' && lower_alnum (last_char c s')
  end.

(** The specification's words, "a valid DNS-1123 label": of that shape and at
    most 63 characters long. *)
Definition dns_1123_label (s : string) : bool :=
  label_shape s && bool_decide (String.length s ≤ 63)%nat.

(** The specification's words: the three reasons for a ValidationError. *)
Definition spec_rejects (st : State) : Prop :=
  dns_1123_label (finalName st) = false
  ∨ ¬ NoDup (sp_port <$> servicePorts st)
  ∨ ¬ NoDup (ev_name <$> envVars st).

(** What [validateForm] checks. *)
Definition form_invalid (st : State) : Prop :=
  test name_regex (finalName st) = false
  ∨ (deploymentMethod st = source ∧
     (gitUrl st = ""
      ∨ (gitPath st = "" ∧ selectedExample st = "")
      ∨ (registryType st ≠ "local" ∧ registryNamespace st = "")))
  ∨ (deploymentMethod st = image ∧ containerImage st = "").

(** *** Sample forms *)

(** The form after the user has typed a source path. *)
Definition form_filled : State := handlePathChange "a2a/weather_service" initial.

(** The same after a click on "add port": two ports 8080. *)
Definition form_two_ports : State := addServicePort form_filled.

(** The same with a name of 64 characters typed in. *)
Definition form_long_name : State :=
  set_name "a123456789b123456789c123456789d123456789e123456789f123456789g123"
    form_filled.

(** The mounted form with the repository URL erased. *)
Definition form_no_url : State :=
  {| deploymentMethod := source; namespace := "team1"; name := "weather";
     protocol := "a2a"; framework := "LangGraph";
     gitUrl := ""; gitBranch := DEFAULT_BRANCH; gitPath := "a2a/weather_service";
     selectedExample := ""; startCommand := "python main.py";
     showStartCommand := false;
     registryType := "local"; registryNamespace := ""; registrySecret := "";
     buildStrategy := "buildah-insecure-push"; dockerfile := "Dockerfile";
     buildTimeout := "15m"; buildArgs := [];
     containerImage := ""; imageTag := "latest"; imagePullSecret := "";
     servicePorts := [ {| sp_name := "http"; sp_port := 8080;
                          sp_targetPort := 8000; sp_protocol := TCP |} ];
     envVars := []; showEnvVars := false;
     workloadType := deployment; createHttpRoute := false;
     authBridgeEnabled := true; spireEnabled := false;
     validated := ∅ |}.

End ImportAgentPage.

(** ** The catalog pages *)

(** [deleteMutation.mutate({ namespace, name })] *)
Record DeleteRequest := { del_namespace : string; del_name : string }.

Module ToolCatalogPage.

Record Tool := {
  name : string;
  namespace : string;
  description : string;
  status : string;
}.

Record State := {
  deleteModalOpen : bool;
  toolToDelete : option Tool;
  deleteConfirmText : string;
  openMenuId : option string;
}.

Definition handleDeleteClick (tool : Tool) (st : State) : State :=
  {| deleteModalOpen := true; toolToDelete := Some tool;
     deleteConfirmText := deleteConfirmText st; openMenuId := None |}.

Definition handleCloseDeleteModal (st : State) : State :=
  {| deleteModalOpen := false; toolToDelete := None;
     deleteConfirmText := ""; openMenuId := openMenuId st |}.

Definition setDeleteConfirmText (value : string) (st : State) : State :=
  {| deleteModalOpen := deleteModalOpen st; toolToDelete := toolToDelete st;
     deleteConfirmText := value; openMenuId := openMenuId st |}.

(** [handleDeleteConfirm]: the calls made to [deleteMutation.mutate]. *)
Definition handleDeleteConfirm (st : State) : list DeleteRequest :=
  match toolToDelete st with
  | Some tool =>
      if decide (deleteConfirmText st = name tool)
      then [ {| del_namespace := namespace tool; del_name := name tool |} ]
      else []
  | None => []
  end.

(** A sample tool, and the page with its delete dialog open. *)
Definition weather_tool : Tool :=
  {| name := "weather-tool"; namespace := "team1";
     description := "Weather lookup tool for MCP"; status := "Ready" |}.

Definition dialog_open : State :=
  handleDeleteClick weather_tool
    {| deleteModalOpen := false; toolToDelete := None;
       deleteConfirmText := ""; openMenuId := Some "team1-weather-tool" |}.

End ToolCatalogPage.

Module AgentCatalogPage.

Record Agent := {
  name : string;
  namespace : string;
  description : string;
  status : string;
}.

Record State := {
  deleteModalOpen : bool;
  agentToDelete : option Agent;
  deleteConfirmText : string;
  openMenuId : option string;
}.

Definition handleDeleteClick (agent : Agent) (st : State) : State :=
  {| deleteModalOpen := true; agentToDelete := Some agent;
     deleteConfirmText := deleteConfirmText st; openMenuId := None |}.

Definition handleCloseDeleteModal (st : State) : State :=
  {| deleteModalOpen := false; agentToDelete := None;
     deleteConfirmText := ""; openMenuId := openMenuId st |}.

Definition setDeleteConfirmText (value : string) (st : State) : State :=
  {| deleteModalOpen := deleteModalOpen st; agentToDelete := agentToDelete st;
     deleteConfirmText := value; openMenuId := openMenuId st |}.

Definition handleDeleteConfirm (st : State) : list DeleteRequest :=
  match agentToDelete st with
  | Some agent =>
      if decide (deleteConfirmText st = name agent)
      then [ {| del_namespace := namespace agent; del_name := name agent |} ]
      else []
  | None => []
  end.

Inductive Color := green | red | blue | cyan.

(** [renderStatusBadge]: the colour of the label. *)
Definition renderStatusBadge (status : string) : Color :=
  let color := red in
  if bool_decide (status = "Ready") || bool_decide (status = "Completed")
     || bool_decide (status = "Running") then green
  else if bool_decide (status = "Progressing") then blue
  else if bool_decide (status = "Pending") then cyan
  else color.

(** A sample agent, and the page with its delete dialog open. *)
Definition weather_agent : Agent :=
  {| name := "weather-service"; namespace := "team1";
     description := "Weather agent"; status := "Ready" |}.

Definition dialog_open : State :=
  handleDeleteClick weather_agent
    {| deleteModalOpen := false; agentToDelete := None;
       deleteConfirmText := ""; openMenuId := Some "team1-weather-service" |}.

End AgentCatalogPage.

(** ** The tool detail page *)

Module ToolDetailPage.

(** The fields of the fetched tool that the handlers below read. *)
Record ToolDetail := {
  workloadType : option string;
  readyStatus : option string;
}.

Record State := {
  (** [useParams()] *)
  name : option string;
  namespace : option string;
  deleteModalOpen : bool;
  deleteConfirmText : string;
}.

(** [toolService.delete(namespace!, name!)], called by [deleteMutation.mutate()] *)
Record DeleteCall := { arg_namespace : option string; arg_name : option string }.

Definition handleCloseDeleteModal (st : State) : State :=
  {| name := name st; namespace := namespace st;
     deleteModalOpen := false; deleteConfirmText := "" |}.

Definition handleDeleteConfirm (st : State) : list DeleteCall :=
  if decide (Some (deleteConfirmText st) = name st)
  then [ {| arg_namespace := namespace st; arg_name := name st |} ]
  else [].

(** [refetchInterval]: [None] stands for [false] (no refetch), [Some n] for a
    refetch after [n] milliseconds. The argument is [query.state.data]. *)
Definition refetchInterval (data : option ToolDetail) : option Z :=
  let readyStatus := Js.or_else (default "" (data ≫= readyStatus)) "" in
  if decide (readyStatus = "Ready") then None else Some 5000.

(** A value interpolated in a template literal. *)
Definition interpolate (v : option string) : string := default "undefined" v.

Definition mcpInClusterUrl (st : State) : string :=
  "http://" +:+ interpolate (name st) +:+ "-mcp." +:+ interpolate (namespace st)
  +:+ ".svc.cluster.local:8000/mcp".

(** The query cycle: after each fetch the interval is computed from the data
    just fetched; the next fetch is scheduled unless it is [false]. Given the
    statuses the backend would return, the number of fetches performed. *)
Fixpoint fetches (answers : list ToolDetail) : nat :=
  match answers with
  | [] => 0
  | d :: rest =>
      match refetchInterval (Some d) with
      | None => 1
      | Some _ => S (fetches rest)
      end
  end.

(** The page of the tool [weather-tool], its delete dialog open. *)
Definition dialog_open : State :=
  {| name := Some "weather-tool"; namespace := Some "team1";
     deleteModalOpen := true; deleteConfirmText := "" |}.

Definition setDeleteConfirmText (value : string) (st : State) : State :=
  {| name := name st; namespace := namespace st;
     deleteModalOpen := deleteModalOpen st; deleteConfirmText := value |}.

(** A tool whose workload has failed for good. *)
Definition failed_tool : ToolDetail :=
  {| workloadType := Some "deployment"; readyStatus := Some "Failed" |}.

End ToolDetailPage.

(** ** The build-and-deploy script: success and waiting time *)

Module ScriptRun.
Import Script.


(** The seconds a run has spent in [sleep]. *)
Definition slept (t : list event) : Z :=
  foldr (λ e acc, match e with Sleep n => n + acc | _ => acc end) 0 t.

(** The number of times a run has read the status of the Succeeded condition. *)
Definition reads (t : list event) : nat :=
  foldr (λ e acc,
           match e with
           | GetCondition _ field => if decide (field = "status") then S acc else acc
           | _ => acc
           end) 0%nat t.

(** Every label of [l1] is a label of [l2]. *)
Definition labels_within (l1 l2 : Labels) : Prop := ∀ kv, kv ∈ l1 → kv ∈ l2.

(** The Service routes to the pods of the Deployment: its selector is within
    the labels of the pod template, as is the Deployment's own selector, and
    its target port is the container's port. *)
Definition service_selects (d s : Manifest) : Prop :=
  match spec d, spec s with
  | DeploymentSpec _ matchLabels template_labels _ _ containerPort,
    ServiceSpec selector _ _ targetPort =>
      labels_within matchLabels template_labels
      ∧ labels_within selector template_labels
      ∧ targetPort = containerPort
      ∧ namespace d = namespace s
  | _, _ => False
  end.

(** The BuildRun starts the Build: it names it, in the same namespace, and
    carries its name as a label. *)
Definition buildrun_starts (b r : Manifest) : Prop :=
  spec r = BuildRunSpec (name b)
  ∧ namespace r = namespace b
  ∧ ("kagenti.io/build-name", name b) ∈ labels r.

End ScriptRun.

(** ** The cluster deployment script: its wait loops *)

(** The three wait loops of the HyperShift deployment script
    ([70-deploy-kagenti.sh], run under [set -euo pipefail]): for the nodes,
    for the operator lifecycle manager, and for the OpenShift build of its
    inline fallback. *)
Module DeployKagenti.
Import Script.

Inductive event :=
| Echo (line : string)
| Run (command : string)
| Sleep (seconds : Z).

Definition Sh (A : Type) : Type := list event * result A.

Definition ret {A} (a : A) : Sh A := ([], Next a).

Definition bind {A B} (m : Sh A) (k : A → Sh B) : Sh B :=
  match m with
  | (t, Next a) => let '(t', r) := k a in (t ++ t', r)
  | (t, Exit c) => (t, Exit c)
  | (t, OutOfFuel) => (t, OutOfFuel)
  end.

#[global] Instance Sh_ret : MRet Sh := @ret.
#[global] Instance Sh_bind : MBind Sh := λ A B k m, bind m k.

Definition echo (line : string) : Sh unit := ([Echo line], Next tt).
Definition run (command : string) : Sh unit := ([Run command], Next tt).
Definition sleep (seconds : Z) : Sh unit := ([Sleep seconds], Next tt).
Definition exit {A} (code : Z) : Sh A := ([], Exit code).

(** A simple command under [set -e]. *)
Definition errexit (command : string) (status : Z) : Sh unit :=
  ([Run command], if decide (status = 0) then Next tt else Exit status).

(** What the script reads from the cluster. A read of the nodes gives the
    STATUS column of each line of [kubectl get nodes --no-headers], or
    [None] when [kubectl] fails (without output). The script reads the nodes
    twice at each attempt. *)
Record Cluster := {
  nodes_for_not_ready : nat → option (list string);
  nodes_for_total : nat → option (list string);
  (** exit status of the diagnostic [kubectl get nodes] *)
  get_nodes : Z;
  (** whether [kubectl api-resources | grep -q ...] succeeds at an attempt *)
  olm_api : nat → bool;
  (** [oc get "$OC_BUILD" -o jsonpath='{.status.phase}'] at an attempt,
      [None] when [oc] fails *)
  build_phase : nat → option string;
}.

Definition newline : string := String (Ascii.ascii_of_nat 10) "".

(** [awk '$2 != "Ready" {count++} END {print count+0}'] *)
Definition not_ready_count (statuses : list string) : nat :=
  length (filter (λ s, s ≠ "Ready") statuses).

(** [$(kubectl get nodes ... | awk ... || echo "999")]: under [pipefail] a
    failure of [kubectl] fails the pipeline after [awk] has printed 0, and
    the fallback is printed on a second line. *)
Definition NOT_READY_raw (r : option (list string)) : string :=
  match r with
  | Some statuses => pretty (not_ready_count statuses)
  | None => "0" +:+ newline +:+ "999"
  end.

(** [$(kubectl get nodes ... | wc -l | tr -d ' ' || echo "0")] *)
Definition TOTAL_raw (r : option (list string)) : string :=
  match r with
  | Some statuses => pretty (length statuses)
  | None => "0" +:+ newline +:+ "0"
  end.

Definition is_digit (c : ascii) : bool := Js.in_range 48 57 c.

(** [[[ "$X" =~ ^[0-9]+$ ]]] *)
Definition is_number (s : string) : bool :=
  bool_decide (s ≠ "") && Js.all_chars is_digit s.

(** [[[ ! "$X" =~ ^[0-9]+$ ]] && X=fallback] *)
Definition validated (s fallback : string) : string :=
  if is_number s then s else fallback.

Fixpoint decimal_go (acc : Z) (s : string) : Z :=
  match s with
  | EmptyString => acc
  | String c s' => decimal_go (10 * acc + (Z.of_N (Ascii.N_of_ascii c) - 48)) s'
  end.

(** The value of a string of digits in an arithmetic context. (The strings
    met here are printed by [awk], [wc] and [echo] and have no leading
    zero.) *)
Definition decimal (s : string) : Z := decimal_go 0 s.

Definition MAX_RETRIES : Z := 60.
Definition RETRY_DELAY : Z := 10.

(** The values of [NOT_READY] and [TOTAL] at the i-th attempt, after their
    validation. *)
Definition NOT_READY (c : Cluster) (i : nat) : string :=
  validated (NOT_READY_raw (nodes_for_not_ready c i)) "999".
Definition TOTAL (c : Cluster) (i : nat) : string :=
  validated (TOTAL_raw (nodes_for_total c i)) "0".

(** [[[ "$NOT_READY" == "0" && "$TOTAL" -gt 0 ]]] *)
Definition all_ready (c : Cluster) (i : nat) : bool :=
  bool_decide (NOT_READY c i = "0") && (0 <? decimal (TOTAL c i)).

(** [READY_COUNT=$((TOTAL - NOT_READY)); [[ $READY_COUNT -lt 0 ]] && READY_COUNT=0] *)
Definition READY_COUNT (c : Cluster) (i : nat) : Z :=
  let n := decimal (TOTAL c i) - decimal (NOT_READY c i) in
  if n <? 0 then 0 else n.

(** The body of [for i in $(seq 1 $MAX_RETRIES)], for the values of [i]
    still to come: [rest] of them, the first one [i]. *)
Fixpoint nodes_loop (c : Cluster) (rest : nat) (i : nat) : Sh unit :=
  match rest with
  | O => mret tt
  | S rest' =>
      run "kubectl get nodes --no-headers" ;;
      run "kubectl get nodes --no-headers" ;;
      if all_ready c i then
        echo ("All " +:+ TOTAL c i +:+ " nodes are ready")
      else
        echo ("[" +:+ pretty i +:+ "/" +:+ pretty MAX_RETRIES
              +:+ "] Waiting for nodes... (" +:+ pretty (READY_COUNT c i) +:+ "/"
              +:+ TOTAL c i +:+ " ready)") ;;
        (if decide (Z.of_nat i = MAX_RETRIES) then
           echo ("ERROR: Nodes not ready after "
                 +:+ pretty (MAX_RETRIES * RETRY_DELAY) +:+ " seconds") ;;
           errexit "kubectl get nodes" (get_nodes c) ;;
           exit 1
         else mret tt) ;;
        sleep RETRY_DELAY ;;
        nodes_loop c rest' (S i)
  end.

Definition wait_for_nodes (c : Cluster) : Sh unit :=
  echo "Waiting for cluster nodes to be ready..." ;;
  nodes_loop c (Z.to_nat MAX_RETRIES) 1.

Fixpoint olm_loop (c : Cluster) (rest : nat) (i : nat) : Sh unit :=
  match rest with
  | O => mret tt
  | S rest' =>
      run "kubectl api-resources" ;;
      if olm_api c i then
        echo "OLM Subscription API is available"
      else
        echo ("[" +:+ pretty i +:+ "/" +:+ pretty MAX_RETRIES +:+ "] Waiting for OLM...") ;;
        (if decide (Z.of_nat i = MAX_RETRIES) then
           echo ("WARNING: OLM not available after "
                 +:+ pretty (MAX_RETRIES * RETRY_DELAY) +:+ " seconds") ;;
           echo "Continuing anyway - some operators may not install correctly"
         else mret tt) ;;
        sleep RETRY_DELAY ;;
        olm_loop c rest' (S i)
  end.

Definition wait_for_olm (c : Cluster) : Sh unit :=
  echo "Waiting for OLM to be available..." ;;
  olm_loop c (Z.to_nat MAX_RETRIES) 1.

(** [[[ "$PHASE" == "Failed" || "$PHASE" == "Error" || "$PHASE" == "Cancelled" ]]] *)
Definition phase_failed (PHASE : string) : bool :=
  bool_decide (PHASE = "Failed") || bool_decide (PHASE = "Error")
  || bool_decide (PHASE = "Cancelled").

(** [$(oc get "$OC_BUILD" ... -o jsonpath='{.status.phase}' 2>/dev/null || echo "Unknown")] *)
Definition phase_read (c : Cluster) (i : nat) : string :=
  default "Unknown" (build_phase c i).

(** The body of [for _ in {1..120}]; returns the last value of [PHASE]. *)
Fixpoint build_loop (c : Cluster) (rest : nat) (i : nat) (PHASE : string) : Sh string :=
  match rest with
  | O => mret PHASE
  | S rest' =>
      run "oc get build" ;;
      let PHASE := phase_read c i in
      if decide (PHASE = "Complete") then
        echo "OpenShift build completed" ;;
        mret PHASE
      else if phase_failed PHASE then
        echo ("ERROR: ui-oauth-secret build failed with phase: " +:+ PHASE) ;;
        run "oc logs" ;;
        exit 1
      else
        sleep 5 ;;
        build_loop c rest' (S i) PHASE
  end.

Definition wait_for_build (c : Cluster) : Sh unit :=
  PHASE ← build_loop c 120 1 "Unknown" ;
  if decide (PHASE ≠ "Complete") then
    echo ("ERROR: ui-oauth-secret build timed out after 600s (phase: " +:+ PHASE +:+ ")") ;;
    run "oc logs" ;;
    exit 1
  else mret tt.

(** Counting what a run of a loop did. *)
Definition slept (t : list event) : Z :=
  foldr (λ e acc, match e with Sleep n => n + acc | _ => acc end) 0 t.

Definition runs (command : string) (t : list event) : nat :=
  foldr (λ e acc,
           match e with
           | Run cmd => if decide (cmd = command) then S acc else acc
           | _ => acc
           end) 0%nat t.

(** The nodes as the i-th attempt sees them: both reads succeed, the first
    shows no node that is not Ready, the second shows at least one node. *)
Definition nodes_ready (c : Cluster) (i : nat) : Prop :=
  ∃ statuses statuses',
    nodes_for_not_ready c i = Some statuses ∧ nodes_for_total c i = Some statuses'
    ∧ Forall (λ s, s = "Ready") statuses ∧ statuses' ≠ [].

(** Some sample clusters. *)
Definition cluster_with (nodes : nat → option (list string)) : Cluster :=
  {| nodes_for_not_ready := nodes; nodes_for_total := nodes; get_nodes := 0;
     olm_api := λ i, bool_decide (i = 2%nat);
     build_phase := λ i, if decide (i = 3%nat) then Some "Complete" else Some "Running" |}.

(** Two nodes, the second one Ready from the third attempt on; before the
    second attempt [kubectl] cannot reach the cluster. *)
Definition cluster_warming_up : Cluster :=
  cluster_with (λ i, if decide (i = 1%nat) then None
                     else if decide (i = 2%nat) then Some ["Ready"; "NotReady"]
                     else Some ["Ready"; "Ready"]).

(** No node ever registers. *)
Definition cluster_empty : Cluster := cluster_with (λ _, Some []).

(** The build goes on at an attempt: its phase is neither Complete nor one
    of the failures. *)
Definition build_going (c : Cluster) (i : nat) : Prop :=
  phase_read c i ≠ "Complete" ∧ phase_failed (phase_read c i) = false.

End DeployKagenti.

(** ** The cluster deployment script as a whole *)

Module DeployKagentiRun.
Import Script DeployKagenti.

(** What the script reads from the machine it runs on, besides the cluster:
    its environment, and the exit status (and output) of each command. *)
Record Host := {
  GITHUB_WORKSPACE : option string;
  (** [$(cd "$(dirname "${BASH_SOURCE[0]}")" && pwd)] *)
  script_dir : Z * string;
  (** [$(cd "$SCRIPT_DIR/../../../.." && pwd)] *)
  repo_root_from_script_dir : Z * string;
  (** [$(which python3)] *)
  which_python3 : Z * string;
  (** [[ -f "$SECRETS_FILE" ]] *)
  secrets_file_exists : bool;
  (** [cat > "$SECRETS_FILE"] *)
  write_secrets_file : Z;
  (** [cd "$REPO_ROOT"] *)
  cd_repo_root : Z;
  cluster : Cluster;
  (** [hypershift-full-test.sh --include-kagenti-install --include-agents --env ocp] *)
  full_test : Z;
  GITHUB_ACTIONS : option string;
  (** [[[ -x "$HELPER_SCRIPT" ]]] and [[[ -f "$HELPER_SCRIPT" ]]] *)
  helper_executable : bool;
  helper_is_file : bool;
  (** ["$HELPER_SCRIPT"] and [bash "$HELPER_SCRIPT"] *)
  helper : Z;
  bash_helper : Z;
  (** [oc apply -f -] *)
  oc_apply : Z;
  (** [oc start-build ... -o name]: exit status and standard output *)
  oc_start_build : Z * string;
  (** [kubectl delete job ... --ignore-not-found] *)
  delete_job : Z;
  (** [helm upgrade kagenti ...] *)
  helm_upgrade : Z;
  (** [kubectl wait --for=condition=complete job/...] *)
  wait_job : Z;
  (** [kubectl rollout restart] and [kubectl rollout status] *)
  rollout_restart : Z;
  rollout_status : Z;
  GITHUB_STEP_SUMMARY : option string;
  (** the redirection [>> "$GITHUB_STEP_SUMMARY"] of the summary *)
  append_summary : Z;
}.

(** [VAR=$(command)] under [set -e]: the output, or the end of the script. *)
Definition capture (command : string) (answer : Z * string) : Sh string :=
  ([Run command], if decide (answer.1 = 0) then Next answer.2 else Exit answer.1).

(** [${VAR:-}] *)
Definition or_empty (v : option string) : string := default "" v.

(** The inline fallback of the OAuth bootstrap. [OC_BUILD] is what
    [oc start-build] has printed, whether it succeeded or not: on a failure
    [|| echo ""] only adds an empty line. *)
Definition inline_fallback (h : Host) (HELPER_SCRIPT : string) : Sh unit :=
  echo ("WARNING: " +:+ HELPER_SCRIPT +:+ " not found; using inline fallback path.") ;;
  echo "Creating ImageStream and BuildConfig for ui-oauth-secret..." ;;
  errexit "oc apply" (oc_apply h) ;;
  echo "Starting OpenShift binary build from source..." ;;
  run "oc start-build" ;;
  let OC_BUILD := (oc_start_build h).2 in
  if decide (OC_BUILD = "") then
    echo "ERROR: Failed to start ui-oauth-secret build" ;;
    exit 1
  else
    wait_for_build (cluster h) ;;
    echo "Restarting oauth-secret job with updated image..." ;;
    errexit "kubectl delete job" (delete_job h) ;;
    sleep 2 ;;
    run "helm upgrade" ;;
    run "kubectl wait" ;;
    (if decide (wait_job h = 0) then mret tt
     else
       echo "ERROR: OAuth secret job did not complete" ;;
       run "kubectl logs" ;;
       exit 1) ;;
    errexit "kubectl rollout restart" (rollout_restart h) ;;
    errexit "kubectl rollout status" (rollout_status h).

(** The script. [MAIN_REPO_ROOT], computed from [REPO_ROOT], only names the
    secrets file and is left out. *)
Definition main (h : Host) : Sh unit :=
  SCRIPT_DIR ← capture "cd script dir && pwd" (script_dir h) ;
  REPO_ROOT ←
    (if decide (or_empty (GITHUB_WORKSPACE h) = "")
     then capture "cd repo root && pwd" (repo_root_from_script_dir h)
     else mret (or_empty (GITHUB_WORKSPACE h))) ;
  echo "Deploying Kagenti to cluster..." ;;
  ANSIBLE_PYTHON_INTERPRETER ← capture "which python3" (which_python3 h) ;
  (if secrets_file_exists h then mret tt
   else
     echo "Creating secrets file for CI..." ;;
     errexit "cat > secrets file" (write_secrets_file h)) ;;
  errexit "cd" (cd_repo_root h) ;;
  wait_for_nodes (cluster h) ;;
  wait_for_olm (cluster h) ;;
  errexit "hypershift-full-test.sh" (full_test h) ;;
  if decide (or_empty (GITHUB_ACTIONS h) = "true") then
    let HELPER_SCRIPT :=
      REPO_ROOT +:+ "/.github/scripts/common/25-build-oauth-secret-image.sh" in
    echo "Rebuilding and restarting ui-oauth-secret job from current checkout..." ;;
    (if helper_executable h then errexit "helper script" (helper h)
     else if helper_is_file h then
       echo ("Helper script is not executable, running with bash: " +:+ HELPER_SCRIPT) ;;
       errexit "bash helper script" (bash_helper h)
     else inline_fallback h HELPER_SCRIPT) ;;
    (if decide (or_empty (GITHUB_STEP_SUMMARY h) = "") then mret tt
     else errexit "append summary" (append_summary h))
  else mret tt.

(** The exit status of the script. *)
Definition exit_status (h : Host) : option Z :=
  match (main h).2 with
  | Next _ => Some 0
  | Exit code => Some code
  | OutOfFuel => None
  end.

(** Everything before the waits succeeds. *)
Definition prelude_ok (h : Host) : Prop :=
  (script_dir h).1 = 0
  ∧ (or_empty (GITHUB_WORKSPACE h) = "" → (repo_root_from_script_dir h).1 = 0)
  ∧ (which_python3 h).1 = 0
  ∧ (secrets_file_exists h = false → write_secrets_file h = 0)
  ∧ cd_repo_root h = 0.

(** The nodes are seen ready at one of the 60 attempts. *)
Definition nodes_become_ready (h : Host) : Prop :=
  ∃ j, (1 ≤ j ≤ 60)%nat ∧ nodes_ready (cluster h) j.

(** The OpenShift build is seen Complete at one of the 120 reads, and not
    failed before. *)
Definition build_completes (h : Host) : Prop :=
  ∃ j, (1 ≤ j ≤ 120)%nat ∧ phase_read (cluster h) j = "Complete"
       ∧ ∀ k, (1 ≤ k < j)%nat → phase_failed (phase_read (cluster h) k) = false.

(** The OAuth bootstrap passes, by the helper script or by the inline
    fallback. *)
Definition oauth_bootstrap_ok (h : Host) : Prop :=
  if helper_executable h then helper h = 0
  else if helper_is_file h then bash_helper h = 0
  else oc_apply h = 0 ∧ (oc_start_build h).2 ≠ "" ∧ build_completes h
       ∧ delete_job h = 0 ∧ wait_job h = 0
       ∧ rollout_restart h = 0 ∧ rollout_status h = 0.

Definition deploys (h : Host) : Prop :=
  prelude_ok h ∧ nodes_become_ready h ∧ full_test h = 0
  ∧ (or_empty (GITHUB_ACTIONS h) = "true" →
     oauth_bootstrap_ok h
     ∧ (or_empty (GITHUB_STEP_SUMMARY h) ≠ "" → append_summary h = 0)).

(** A machine on which every command succeeds, in GitHub Actions, without
    the helper script; the operator lifecycle manager never shows up and
    [helm upgrade] fails. *)
Definition host_ci : Host :=
  {| GITHUB_WORKSPACE := Some "/home/runner/work/kagenti/kagenti";
     script_dir := (0, "/home/runner/work/kagenti/kagenti/.github/scripts/hypershift/ci");
     repo_root_from_script_dir := (1, "");
     which_python3 := (0, "/usr/bin/python3");
     secrets_file_exists := false;
     write_secrets_file := 0;
     cd_repo_root := 0;
     cluster :=
       {| nodes_for_not_ready := nodes_for_not_ready cluster_warming_up;
          nodes_for_total := nodes_for_total cluster_warming_up;
          get_nodes := 0;
          olm_api := λ _, false;
          build_phase := λ i, if decide (i = 3%nat) then Some "Complete" else None |};
     full_test := 0;
     GITHUB_ACTIONS := Some "true";
     helper_executable := false;
     helper_is_file := false;
     helper := 127;
     bash_helper := 127;
     oc_apply := 0;
     oc_start_build := (0, "build.build.openshift.io/ui-oauth-secret-1");
     delete_job := 0;
     helm_upgrade := 1;
     wait_job := 0;
     rollout_restart := 0;
     rollout_status := 0;
     GITHUB_STEP_SUMMARY := None;
     append_summary := 0 |}.

End DeployKagentiRun.

(** ** The import page: its other handlers *)

Module ImportAgentHandlers.
Import Js ImportAgentPage.

(** [setContainerImage(x)] *)
Definition set_containerImage (x : string) (st : State) : State :=
  {| deploymentMethod := deploymentMethod st; namespace := namespace st;
     name := name st; protocol := protocol st; framework := framework st;
     gitUrl := gitUrl st; gitBranch := gitBranch st; gitPath := gitPath st;
     selectedExample := selectedExample st; startCommand := startCommand st;
     showStartCommand := showStartCommand st;
     registryType := registryType st;
     registryNamespace := registryNamespace st;
     registrySecret := registrySecret st; buildStrategy := buildStrategy st;
     dockerfile := dockerfile st; buildTimeout := buildTimeout st;
     buildArgs := buildArgs st; containerImage := x;
     imageTag := imageTag st; imagePullSecret := imagePullSecret st;
     servicePorts := servicePorts st; envVars := envVars st;
     showEnvVars := showEnvVars st; workloadType := workloadType st;
     createHttpRoute := createHttpRoute st;
     authBridgeEnabled := authBridgeEnabled st;
     spireEnabled := spireEnabled st; validated := validated st |}.

(** [handleExampleChange] *)
Definition handleExampleChange (value : string) (st : State) : State :=
  let st := set_selectedExample value st in
  if truthy value then
    let st := set_gitPath value st in
    let parts := split "/" value in
    let autoName := toLowerCase (replace_underscores (last_part parts)) in
    if negb (truthy (name st)) then set_name autoName st else st
  else st.

(** [handleImageChange] *)
Definition handleImageChange (value : string) (st : State) : State :=
  let st := set_containerImage value st in
  if truthy value && negb (truthy (name st)) then
    let parts := split "/" value in
    let imageName := first_part (split ":" (last_part parts)) in
    set_name (toLowerCase (replace_underscores imageName)) st
  else st.

(** The [onChange] events of the three fields a name is derived from. *)
Inductive Change :=
| ExampleChange (value : string)
| PathChange (value : string)
| ImageChange (value : string).

Definition change (st : State) (c : Change) : State :=
  match c with
  | ExampleChange value => handleExampleChange value st
  | PathChange value => handlePathChange value st
  | ImageChange value => handleImageChange value st
  end.

(** The state after a sequence of such events, the first one first. *)
Definition changes (cs : list Change) (st : State) : State := foldl change st cs.

(** A character that [getNameFromPath] can leave in a name: no slash, no
    underscore, no upper-case letter. *)
Definition derived_char (c : ascii) : bool :=
  negb (bool_decide (c = "/"%char)) && negb (bool_decide (c = "_"%char))
  && negb (in_range 65 90 c).

(** *** Environment variables *)

(** [addEnvVar] *)
Definition addEnvVar (st : State) : State :=
  set_envVars (envVars st ++ [ {| ev_name := ""; ev_value := Some "";
                                  ev_valueFrom := None |} ]) st.

(** [array.filter((_, i) => i !== index)] *)
Definition filter_other_index {A} (index : nat) (array : list A) : list A :=
  (imap (λ i x, (i, x)) array) ≫= λ '(i, x), if decide (i ≠ index) then [x] else [].

(** [removeEnvVar] *)
Definition removeEnvVar (index : nat) (st : State) : State :=
  set_envVars (filter_other_index index (envVars st)) st.

(** [removeServicePort] *)
Definition removeServicePort (index : nat) (st : State) : State :=
  set_servicePorts (filter_other_index index (servicePorts st)) st.

Inductive EnvVarType := value | secret | configMap.

#[global] Instance EnvVarType_eq_dec : EqDecision EnvVarType.
Proof. solve_decision. Defined.

(** [getEnvVarType] *)
Definition getEnvVarType (envVar : EnvVar) : EnvVarType :=
  if bool_decide (is_Some (ev_valueFrom envVar ≫= secretKeyRef)) then secret
  else if bool_decide (is_Some (ev_valueFrom envVar ≫= configMapKeyRef)) then configMap
  else value.

(** [handleEnvVarTypeChange]: [None] when [updated[index]] is undefined and
    reading its name throws. *)
Definition handleEnvVarTypeChange (index : nat) (type : EnvVarType) (st : State)
  : option State :=
  let updated := envVars st in
  match updated !! index with
  | None => None
  | Some current =>
      let currentName := ev_name current in
      let entry :=
        match type with
        | value => {| ev_name := currentName; ev_value := Some ""; ev_valueFrom := None |}
        | secret =>
            {| ev_name := currentName; ev_value := None;
               ev_valueFrom :=
                 Some {| secretKeyRef := Some {| ref_name := ""; ref_key := "" |};
                         configMapKeyRef := None |} |}
        | configMap =>
            {| ev_name := currentName; ev_value := None;
               ev_valueFrom :=
                 Some {| secretKeyRef := None;
                         configMapKeyRef := Some {| ref_name := ""; ref_key := "" |} |} |}
        end in
      Some (set_envVars (<[index := entry]> updated) st)
  end.

(** The [field] argument of [updateEnvVar]: ['name' | 'value']. *)
Inductive VarField := field_name | field_value.

(** The [field] argument of [updateEnvVarSecret] and
    [updateEnvVarConfigMap]: ['name' | 'key']. *)
Inductive RefField := ref_field_name | ref_field_key.

(** [entry[field] = v] *)
Definition set_var_field (field : VarField) (v : string) (entry : EnvVar) : EnvVar :=
  match field with
  | field_name =>
      {| ev_name := v; ev_value := ev_value entry; ev_valueFrom := ev_valueFrom entry |}
  | field_value =>
      {| ev_name := ev_name entry; ev_value := Some v;
         ev_valueFrom := ev_valueFrom entry |}
  end.

(** [ref[field] = v] *)
Definition set_ref_field (field : RefField) (v : string) (ref : KeyRef) : KeyRef :=
  match field with
  | ref_field_name => {| ref_name := v; ref_key := ref_key ref |}
  | ref_field_key => {| ref_name := ref_name ref; ref_key := v |}
  end.

(** [updateEnvVar]: [None] when [updated[index]] is undefined and the
    assignment throws. *)
Definition updateEnvVar (index : nat) (field : VarField) (v : string) (st : State)
  : option State :=
  let updated := envVars st in
  match updated !! index with
  | None => None
  | Some entry => Some (set_envVars (<[index := set_var_field field v entry]> updated) st)
  end.

(** [updateEnvVarSecret]: without a secret reference in the entry, no state
    is set. *)
Definition updateEnvVarSecret (index : nat) (field : RefField) (v : string) (st : State)
  : option State :=
  let updated := envVars st in
  match updated !! index with
  | None => None
  | Some entry =>
      match ev_valueFrom entry with
      | Some valueFrom =>
          match secretKeyRef valueFrom with
          | Some ref =>
              let entry :=
                {| ev_name := ev_name entry; ev_value := ev_value entry;
                   ev_valueFrom :=
                     Some {| secretKeyRef := Some (set_ref_field field v ref);
                             configMapKeyRef := configMapKeyRef valueFrom |} |} in
              Some (set_envVars (<[index := entry]> updated) st)
          | None => Some st
          end
      | None => Some st
      end
  end.

(** [updateEnvVarConfigMap] *)
Definition updateEnvVarConfigMap (index : nat) (field : RefField) (v : string)
    (st : State) : option State :=
  let updated := envVars st in
  match updated !! index with
  | None => None
  | Some entry =>
      match ev_valueFrom entry with
      | Some valueFrom =>
          match configMapKeyRef valueFrom with
          | Some ref =>
              let entry :=
                {| ev_name := ev_name entry; ev_value := ev_value entry;
                   ev_valueFrom :=
                     Some {| secretKeyRef := secretKeyRef valueFrom;
                             configMapKeyRef := Some (set_ref_field field v ref) |} |} in
              Some (set_envVars (<[index := entry]> updated) st)
          | None => Some st
          end
      | None => Some st
      end
  end.

(** *** The default URL of the environment file *)

(** The longest prefix of [s] whose characters all satisfy [p], and what
    follows it. *)
Fixpoint span (p : ascii → bool) (s : string) : string * string :=
  match s with
  | EmptyString => ("", "")
  | String c s' =>
      if p c then let '(taken, rest) := span p s' in (String c taken, rest)
      else ("", s)
  end.

(** What is left of [s] after the prefix [prefix], if it starts with it. *)
Fixpoint after_prefix (prefix s : string) : option string :=
  match prefix, s with
  | EmptyString, _ => Some s
  | String c prefix', String c' s' =>
      if decide (c = c') then after_prefix prefix' s' else None
  | String _ _, EmptyString => None
  end.

(** [/github\.com[/:]([^/]+)\/([^/.]+)(\.git)?/] tried at the beginning of
    [s]: the two groups [org] and [repo]. Both groups are greedy; the first
    one holds no slash and must be followed by one, so that it cannot give
    characters back; after the second one nothing more is required. *)
Definition github_match_here (s : string) : option (string * string) :=
  match after_prefix "github.com" s with
  | Some (String c s') =>
      if bool_decide (c = "/"%char) || bool_decide (c = ":"%char) then
        let '(org, s') := span (λ c, negb (bool_decide (c = "/"%char))) s' in
        match org, s' with
        | String _ _, String "/" s' =>
            let '(repo, _) :=
              span (λ c, negb (bool_decide (c = "/"%char) || bool_decide (c = "."%char)))
                s' in
            match repo with
            | String _ _ => Some (org, repo)
            | EmptyString => None
            end
        | _, _ => None
        end
      else None
  | _ => None
  end.

(** [gitUrl.match(...)]: the match that starts first. *)
Fixpoint github_match (s : string) : option (string * string) :=
  match github_match_here s with
  | Some groups => Some groups
  | None =>
      match s with
      | EmptyString => None
      | String _ s' => github_match s'
      end
  end.

Fixpoint strip_leading_slashes (s : string) : string :=
  match s with
  | String c s' => if decide (c = "/"%char) then strip_leading_slashes s' else s
  | EmptyString => ""
  end.

Fixpoint strip_trailing_slashes (s : string) : string :=
  match s with
  | String c s' =>
      let rest := strip_trailing_slashes s' in
      if decide (c = "/"%char) then
        match rest with EmptyString => "" | _ => String c rest end
      else String c rest
  | EmptyString => ""
  end.

(** [gitPath.replace(/^\/+|\/+$/g, '')] *)
Definition strip_slashes (s : string) : string :=
  strip_trailing_slashes (strip_leading_slashes s).

(** [getDefaultEnvUrl]; [None] stands for [undefined]. *)
Definition getDefaultEnvUrl (st : State) : option string :=
  if negb (truthy (gitUrl st)) || negb (truthy (gitPath st)) then None
  else
    match github_match (gitUrl st) with
    | None => None
    | Some (org, repo) =>
        let branch := or_else (gitBranch st) "main" in
        let path := strip_slashes (gitPath st) in
        Some ("https://raw.githubusercontent.com/" +:+ org +:+ "/" +:+ repo
              +:+ "/refs/heads/" +:+ branch +:+ "/" +:+ path +:+ "/.env.openai")
    end.

(** *** Sample forms *)

(** The mounted form after the path has been typed one key at a time. *)
Definition form_typed : State :=
  changes [PathChange "a2"; PathChange "a2a"; PathChange "a2a/"; PathChange "a2a/w"]
    (handlePathChange "a" initial).

(** The filled form with one variable, named and then turned into a secret
    reference. *)
Definition form_with_var : State :=
  set_envVars [ {| ev_name := "API_KEY"; ev_value := Some ""; ev_valueFrom := None |} ]
    form_filled.

(** The filled form pushing to Quay under an organisation. *)
Definition form_quay : State :=
  {| deploymentMethod := source; namespace := "team1"; name := "weather";
     protocol := "a2a"; framework := "LangGraph";
     gitUrl := DEFAULT_REPO_URL; gitBranch := DEFAULT_BRANCH;
     gitPath := "a2a/weather_service";
     selectedExample := ""; startCommand := "python main.py";
     showStartCommand := false;
     registryType := "quay"; registryNamespace := "kagenti";
     registrySecret := "quay-registry-secret";
     buildStrategy := "buildah-insecure-push"; dockerfile := "Dockerfile";
     buildTimeout := "15m"; buildArgs := [];
     containerImage := ""; imageTag := "latest"; imagePullSecret := "";
     servicePorts := [ {| sp_name := "http"; sp_port := 8080;
                          sp_targetPort := 8000; sp_protocol := TCP |} ];
     envVars := []; showEnvVars := false;
     workloadType := deployment; createHttpRoute := false;
     authBridgeEnabled := true; spireEnabled := false;
     validated := ∅ |}.

(** The form set to deploy an image, the image typed in. *)
Definition form_image : State :=
  handleImageChange "quay.io/Kagenti/Weather_Tool:v1"
    {| deploymentMethod := image; namespace := "team1"; name := "";
       protocol := "a2a"; framework := "LangGraph";
       gitUrl := DEFAULT_REPO_URL; gitBranch := DEFAULT_BRANCH; gitPath := "";
       selectedExample := ""; startCommand := "python main.py";
       showStartCommand := false;
       registryType := "local"; registryNamespace := ""; registrySecret := "";
       buildStrategy := "buildah-insecure-push"; dockerfile := "Dockerfile";
       buildTimeout := "15m"; buildArgs := [];
       containerImage := ""; imageTag := "latest"; imagePullSecret := "";
       servicePorts := [ {| sp_name := "http"; sp_port := 8080;
                            sp_targetPort := 8000; sp_protocol := TCP |} ];
       envVars := []; showEnvVars := false;
       workloadType := deployment; createHttpRoute := false;
       authBridgeEnabled := true; spireEnabled := false;
       validated := ∅ |}.

End ImportAgentHandlers.

(** ** The agent catalog: the life of the delete dialog *)

Module AgentCatalogDialog.
Import AgentCatalogPage.

(** What happens on the page as far as the delete dialog goes. The text
    input is a child of the modal, which is rendered only while
    [deleteModalOpen] holds. *)
Inductive Event :=
| DeleteClick (agent : Agent)         (* the menu item "Delete agent" *)
| ConfirmTextChange (value : string)  (* [onChange] of the text input *)
| CloseDeleteModal                    (* [onClose] of the modal, "Cancel" *)
| DeleteConfirm                       (* the button "Delete" *)
| DeleteSuccess.                      (* [onSuccess] of the mutation *)

(** The state after mounting. *)
Definition mounted : State :=
  {| deleteModalOpen := false; agentToDelete := None;
     deleteConfirmText := ""; openMenuId := None |}.

Definition step (st : State) (e : Event) : State :=
  match e with
  | DeleteClick agent => handleDeleteClick agent st
  | ConfirmTextChange value =>
      if deleteModalOpen st then setDeleteConfirmText value st else st
  | CloseDeleteModal => handleCloseDeleteModal st
  | DeleteConfirm => st
  | DeleteSuccess => handleCloseDeleteModal st
  end.

(** The calls to [deleteMutation.mutate] an event makes. *)
Definition requests (st : State) (e : Event) : list DeleteRequest :=
  match e with
  | DeleteConfirm => handleDeleteConfirm st
  | _ => []
  end.

(** A run of the page from a state: the state it ends in and all the
    requests made, the first one first. *)
Fixpoint run (st : State) (es : list Event) : State * list DeleteRequest :=
  match es with
  | [] => (st, [])
  | e :: es =>
      let '(st', rs) := run (step st e) es in (st', requests st e ++ rs)
  end.

(** What holds of the page after the events [es], the requests made being
    [rs]. *)
Definition dialog_invariant (es : list Event) (st : State) (rs : list DeleteRequest)
  : Prop :=
  (deleteModalOpen st = false → deleteConfirmText st = "" ∧ agentToDelete st = None)
  ∧ (deleteConfirmText st = "" ∨ ConfirmTextChange (deleteConfirmText st) ∈ es)
  ∧ (∀ agent, agentToDelete st = Some agent → DeleteClick agent ∈ es)
  ∧ (∀ r, r ∈ rs →
       ∃ agent, DeleteClick agent ∈ es
         ∧ r = {| del_namespace := namespace agent; del_name := name agent |}
         ∧ (name agent = "" ∨ ConfirmTextChange (name agent) ∈ es)).

End AgentCatalogDialog.

(** ** The tool detail page: the URLs it shows *)

Module ToolDetailUrls.
Import ToolDetailPage.

(** The outcome of a request to the backend. *)
Inductive Fetch (A : Type) :=
| resolved (data : A)
| rejected.
Arguments resolved {A} data.
Arguments rejected {A}.

(** The answer of [toolService.getRouteStatus]; the field may be missing. *)
Record RouteStatus := { hasRoute : option bool }.

Record DashboardConfig := {
  domainName : option string;
  mcpInspector : option string;
}.

(** [queryFn] of the route status query: a failure is caught and read as
    "no route". *)
Definition routeStatus_queryFn (answer : Fetch RouteStatus) : RouteStatus :=
  match answer with
  | resolved data => data
  | rejected => {| hasRoute := Some false |}
  end.

(** [routeStatusData?.hasRoute ?? false]; the data is undefined while the
    query is loading or disabled. *)
Definition hasRoute_or_false (routeStatusData : option RouteStatus) : bool :=
  default false (routeStatusData ≫= hasRoute).

(** [dashboardConfig?.domainName || 'localtest.me'] *)
Definition domainName_or_default (dashboardConfig : option DashboardConfig) : string :=
  Js.or_else (default "" (dashboardConfig ≫= domainName)) "localtest.me".

Definition toolExternalUrl (st : State) (routeStatusData : option RouteStatus)
    (dashboardConfig : option DashboardConfig) : string :=
  if hasRoute_or_false routeStatusData then
    "http://" +:+ interpolate (name st) +:+ "." +:+ interpolate (namespace st)
    +:+ "." +:+ domainName_or_default dashboardConfig +:+ ":8080/mcp"
  else
    "http://" +:+ interpolate (name st) +:+ "-mcp." +:+ interpolate (namespace st)
    +:+ ".svc.cluster.local:8000/mcp".

End ToolDetailUrls.

(** ** The end-to-end deployment of the weather tool *)

(** The script that deploys the weather tool from an image already built
    ([72-deploy-weather-tool.sh]). *)
Module DeployWeatherTool.

(** [WEATHER_TOOL_IMAGE], set from [$IS_OPENSHIFT]. *)
Definition WEATHER_TOOL_IMAGE (IS_OPENSHIFT : string) : string :=
  if decide (IS_OPENSHIFT = "true")
  then "image-registry.openshift-image-registry.svc:5000/team1/weather-tool:v0.0.1"
  else "registry.cr-system.svc.cluster.local:5000/weather-tool:v0.0.1".

(** The image a Build pushes to ([spec.output.image]). *)
Definition build_output_image (m : Script.Manifest) : option string :=
  match Script.spec m with
  | Script.BuildSpec _ _ _ _ output_image => Some output_image
  | _ => None
  end.

(** A world of the build script on OpenShift, nothing set in the
    environment. *)
Definition world_openshift : Script.World :=
  {| Script.getenv := λ _, None;
     Script.IS_OPENSHIFT := Some "true";
     Script.date_s := 1700000000;
     Script.kubectl_apply := λ _, 0;
     Script.succeeded_status := λ _, Some "True";
     Script.succeeded_reason := λ _, Some "Succeeded";
     Script.buildrun_yaml := 0;
     Script.output_image :=
       (0, "image-registry.openshift-image-registry.svc:5000/team1/weather-tool:v0.0.1");
     Script.output_digest := (0, "sha256:0123");
     Script.kubectl_wait := 0;
     Script.deployment_yaml := 0 |}.

End DeployWeatherTool.

(** ** The build-and-deploy script: what a run reports *)

Module ScriptReport.
Import Script.






End ScriptReport.

(** * Properties *)

(** ** The script: how a run unfolds *)

Import Script.

Lemma pending_until_S w j :
  pending_until w j → status_at w j ≠ "True" → status_at w j ≠ "False" →
  pending_until w (S j).
Proof.
  intros H H1 H2 k Hk. destruct (decide (k = j)) as [->|]; [done|]. apply H. lia.
Qed.

(** At most one poll is the first to read a terminal condition. *)
Lemma first_terminal_unique w i j :
  pending_until w i → pending_until w j →
  (status_at w i = "True" ∨ status_at w i = "False") →
  (status_at w j = "True" ∨ status_at w j = "False") →
  i = j.
Proof.
  intros Hi Hj Ti Tj.
  destruct (Nat.lt_trichotomy i j) as [Hlt|[->|Hlt]]; [|done|].
  - destruct (Hj i Hlt) as [? ?]. by destruct Ti.
  - destruct (Hi j Hlt) as [? ?]. by destruct Tj.
Qed.

Lemma succeeded_not_failed w i j :
  build_succeeded_at w i → build_failed_at w j → False.
Proof.
  intros (_ & Hi & Ti) (_ & Hj & Tj).
  assert (i = j) as -> by (eapply first_terminal_unique; eauto).
  rewrite Ti in Tj. discriminate.
Qed.

Lemma succeeded_not_timed_out w i :
  build_succeeded_at w i → poll_timed_out w → False.
Proof. intros (Hlt & _ & Ti) Hp. destruct (Hp i Hlt). done. Qed.

Lemma failed_not_timed_out w i :
  build_failed_at w i → poll_timed_out w → False.
Proof. intros (Hlt & _ & Ti) Hp. destruct (Hp i Hlt). done. Qed.

Lemma poll_fuel_eq : poll_fuel = 60%nat.
Proof. reflexivity. Qed.

(** The loop, from its i-th iteration on, given that the polls before it
    were all pending. *)
Lemma poll_loop_spec w brn fuel : ∀ i t r,
  (i + fuel = poll_fuel)%nat →
  pending_until w i →
  poll_loop w brn fuel i (POLL_INTERVAL * Z.of_nat i) = (t, r) →
  (∃ k, steps t = replicate k PollBuildRun ∧ ((i < poll_fuel)%nat → (0 < k)%nat)) ∧
  match r with
  | Next E =>
      (E < TIMEOUT ∧ ∃ j, build_succeeded_at w j ∧ Echo "BuildRun succeeded!" ∈ t)
      ∨ (E >= TIMEOUT ∧ poll_timed_out w)
  | Exit c =>
      ∃ j, build_failed_at w j ∧ c ≠ 0 ∧ (buildrun_yaml w = 0 → c = 1) ∧
           Echo ("BuildRun failed with reason: " +:+ reason_at w j) ∈ t
  | OutOfFuel => False
  end.
Proof.
  induction fuel as [|fuel IH]; intros i t r Hi Hp.
  - assert (i = poll_fuel) as -> by lia. cbn.
    intros [= <- <-]. split; [exists 0%nat; split; [done|lia]|].
    right. split; [done|]. apply Hp.
  - assert (Hlt : (i < poll_fuel)%nat) by lia.
    assert (HE : POLL_INTERVAL * Z.of_nat i < TIMEOUT).
    { rewrite poll_fuel_eq in Hlt. unfold TIMEOUT, POLL_INTERVAL. lia. }
    cbn [poll_loop]. rewrite decide_True by done.
    unfold capture_or_empty. cbn [mbind Sh_bind bind].
    fold (status_at w i). fold (reason_at w i).
    destruct (decide (status_at w i = "True")) as [HT|HT].
    { cbn. intros [= <- <-]. split; [exists 2%nat; split; [done|lia]|].
      left. split; [done|]. exists i. split; [done|]. clear IH. set_solver. }
    destruct (decide (status_at w i = "False")) as [HF|HF].
    { cbn. unfold errexit.
      destruct (decide (buildrun_yaml w = 0)) as [Hy|Hy]; cbn;
        intros [= <- <-]; (split; [exists 2%nat; split; [done|lia]|]);
        exists i; (split; [done|]); (split; [done|]); (split; [done|]);
        clear IH; set_solver. }
    cbn [mbind Sh_bind bind echo].
    replace (POLL_INTERVAL * Z.of_nat i + POLL_INTERVAL)
      with (POLL_INTERVAL * Z.of_nat (S i)) by lia.
    destruct (poll_loop w brn fuel (S i) (POLL_INTERVAL * Z.of_nat (S i)))
      as [t' r'] eqn:E.
    apply IH in E; [|lia|by apply pending_until_S].
    destruct E as [(k & Hk & _) Hr].
    cbn. intros [= <- <-]. split.
    { exists (S (S k)). split; [|lia]. unfold steps in *. cbn. by rewrite Hk. }
    destruct r' as [E'|c|]; [| |done].
    + destruct Hr as [(? & j & ? & ?)|?]; [left|by right].
      split; [done|]. exists j. split; [done|]. by do 4 apply list_elem_of_further.
    + destruct Hr as (j & ? & ? & ? & ?). exists j. split_and!; [done..|].
      by do 4 apply list_elem_of_further.
Qed.


Lemma steps_app t1 t2 : steps (t1 ++ t2) = steps t1 ++ steps t2.
Proof. apply omap_app. Qed.

Lemma steps_1_2_cases w t r :
  steps_1_2 w = (t, r) →
  (steps t = [Create (the_build w)] ∧ kubectl_apply w (the_build w) ≠ 0 ∧
     r = Exit (kubectl_apply w (the_build w)))
  ∨ (steps t = [Create (the_build w); Create (the_buildrun w)] ∧
     kubectl_apply w (the_build w) = 0 ∧ kubectl_apply w (the_buildrun w) ≠ 0 ∧
     r = Exit (kubectl_apply w (the_buildrun w)))
  ∨ (steps t = [Create (the_build w); Create (the_buildrun w)] ∧
     build_started w ∧ r = Next (BUILDRUN_NAME (vars w) (date_s w))).
Proof.
  unfold steps_1_2, errexit, build_started. fold (the_build w). fold (the_buildrun w).
  destruct (decide (kubectl_apply w (the_build w) = 0)) as [Hb|Hb]; cbn.
  - destruct (decide (kubectl_apply w (the_buildrun w) = 0)) as [Hr|Hr]; cbn;
      intros [= <- <-]; [right; right|right; left]; done.
  - intros [= <- <-]. left. done.
Qed.

Lemma step_3_cases w brn t r :
  step_3 w brn = (t, r) →
  ∃ k, steps t = replicate (S k) PollBuildRun ∧
  match r with
  | Next _ => ∃ j, build_succeeded_at w j ∧ Echo "BuildRun succeeded!" ∈ t
  | Exit c =>
      c ≠ 0 ∧
      ((∃ j, build_failed_at w j ∧ (buildrun_yaml w = 0 → c = 1) ∧
             Echo ("BuildRun failed with reason: " +:+ reason_at w j) ∈ t)
       ∨ (poll_timed_out w ∧ c = 1 ∧
          last t = Some (Echo "Timeout waiting for BuildRun to complete")))
  | OutOfFuel => False
  end.
Proof.
  unfold step_3. cbn [mbind Sh_bind bind echo].
  destruct (poll_loop w brn poll_fuel 0 0) as [tl rl] eqn:Hl.
  change 0 with (POLL_INTERVAL * Z.of_nat 0) in Hl.
  apply poll_loop_spec in Hl; [|done|by intros k ?; lia].
  destruct Hl as [(k & Hk & Hpos) Hr].
  destruct k as [|k]; [rewrite poll_fuel_eq in Hpos; lia|].
  destruct rl as [E|c|]; [| |done]; cbn [mbind Sh_bind bind echo].
  - destruct Hr as [(HE & j & Hj & Hin)|(HE & Hto)].
    + rewrite decide_False by lia. cbn. intros [= <- <-].
      exists k. split; [unfold steps in *; cbn; by rewrite app_nil_r|].
      exists j. split; [done|]. rewrite app_nil_r. by do 3 apply list_elem_of_further.
    + rewrite decide_True by lia. cbn. intros [= <- <-].
      exists k. split.
      { unfold steps in *. cbn. rewrite omap_app, Hk. cbn. by rewrite app_nil_r. }
      split; [done|]. right. split_and!; [done..|].
      rewrite !last_cons, last_snoc. done.
  - destruct Hr as (j & ? & ? & ? & ?). cbn. intros [= <- <-].
    exists k. split; [done|]. split; [done|]. left. exists j. split_and!; [done..|].
    by do 3 apply list_elem_of_further.
Qed.

Lemma steps_4_6_cases w brn t r :
  steps_4_6 w brn = (t, r) →
  ∃ n, (n ≤ 3)%nat ∧
       steps t = take n [Create (the_deployment w); Create (the_service w); PollReady] ∧
       Forall (step_ok w)
         (take (pred n) [Create (the_deployment w); Create (the_service w); PollReady]) ∧
       match r with
       | Next _ => n = 3%nat ∧ kubectl_apply w (the_service w) = 0
       | Exit c => c ≠ 0
       | OutOfFuel => False
       end.
Proof.
  unfold steps_4_6, capture, errexit, the_deployment, the_service.
  destruct (output_image w) as [si oi], (output_digest w) as [sd od].
  cbn [fst snd mbind Sh_bind bind echo].
  destruct (decide (si = 0)) as [Hi|Hi]; cbn [mbind Sh_bind bind echo];
    [|intros [= <- <-]; exists 0%nat; split; [lia|by cbn]].
  destruct (decide (sd = 0)) as [Hd|Hd]; cbn [mbind Sh_bind bind echo];
    [|intros [= <- <-]; exists 0%nat; split; [lia|by cbn]].
  destruct (decide (kubectl_apply w (deployment_manifest (vars w) oi) = 0)) as [Ha|Ha];
    cbn [mbind Sh_bind bind echo];
    [|intros [= <- <-]; exists 1%nat; split; [lia|by cbn]].
  destruct (decide (kubectl_apply w (service_manifest (vars w)) = 0)) as [Hs|Hs];
    cbn [mbind Sh_bind bind echo];
    [|intros [= <- <-]; exists 2%nat; cbn; split_and!; [lia|done| |done];
      by repeat constructor].
  destruct (decide (kubectl_wait w = 0)) as [Hw|Hw]; cbn [mbind Sh_bind bind echo mret Sh_ret ret].
  { intros [= <- <-]. exists 3%nat. cbn. split_and!; [lia|done| |done..].
    by repeat constructor. }
  destruct (decide (deployment_yaml w = 0)) as [Hy|Hy]; cbn [mbind Sh_bind bind echo];
    intros [= <- <-]; exists 3%nat; cbn; (split_and!; [lia|done| |done..]);
    by repeat constructor.
Qed.

#[local] Arguments steps_1_2 : simpl never.
#[local] Arguments step_3 : simpl never.
#[local] Arguments steps_4_6 : simpl never.

Lemma run_outcome w : outcome w (trace w) (exit_status w).
Proof.
  unfold trace, exit_status, run, main.
  destruct (steps_1_2 w) as [A ra] eqn:HA.
  apply steps_1_2_cases in HA as [(HsA & Hb & ->)|[(HsA & Hb & Hr & ->)|(HsA & Hst & ->)]];
    cbn [mbind Sh_bind bind fst snd].
  { by constructor. }
  { by constructor. }
  destruct (step_3 w (BUILDRUN_NAME (vars w) (date_s w))) as [P rp] eqn:HP.
  apply step_3_cases in HP as (k & HsP & Hrp).
  destruct rp as [[]|c|]; [| |done]; cbn [mbind Sh_bind bind fst snd].
  - destruct Hrp as (j & Hj & Hin).
    destruct (steps_4_6 w (BUILDRUN_NAME (vars w) (date_s w))) as [D rd] eqn:HD.
    apply steps_4_6_cases in HD as (n & Hn & HsD & Hok & Hrd).
    destruct rd as [[]|c|]; [| |done]; cbn [fst snd].
    + destruct Hrd. eapply build_success; eauto.
    + eapply build_success; eauto. done.
  - destruct Hrp as [Hc [(j & Hj & Hy & Hin)|(Hto & -> & Hl)]].
    + eapply build_failure; eauto.
    + eapply poll_timeout; eauto.
Qed.

(** ** The script: build before deploy, and the order of creation *)

Lemma workload_apply_step t e :
  e ∈ t → is_workload_apply e → ∃ s, s ∈ steps t ∧ workload_step s.
Proof.
  intros Hin (m & -> & Hk). exists (Create m). split; [|done].
  apply list_elem_of_omap. by exists (Apply m).
Qed.

Lemma no_workload_step_started w k s :
  s ∈ [Create (the_build w); Create (the_buildrun w)] ++ replicate k PollBuildRun →
  ¬ workload_step s.
Proof.
  intros [H|Hr]%elem_of_app.
  - apply elem_of_cons in H as [->|H]; [by intros [|]|].
    apply elem_of_cons in H as [->|H]; [by intros [|]|].
    by apply elem_of_nil in H.
  - apply elem_of_replicate_inv in Hr as ->. by intros [].
Qed.

(** In a trace [X ++ Y] whose part [X] holds the event [a] and none of the
    events [e] looked for, [a] comes before every such [e]. *)
Lemma before_app (a : event) (Q : event → Prop) X Y t1 e t2 :
  (∀ x, x ∈ X → ¬ Q x) → a ∈ X →
  X ++ Y = t1 ++ e :: t2 → Q e → a ∈ t1.
Proof.
  intros HX Ha Heq He.
  apply app_eq_inv in Heq as [(k & -> & Hk)|(k & -> & _)].
  - apply elem_of_app in Ha as [Ha|Ha]; [done|].
    exfalso. destruct k as [|x k]; [by apply elem_of_nil in Ha|].
    injection Hk as <- _. apply (HX e); [|done]. apply elem_of_app. right. by left.
  - apply elem_of_app. by left.
Qed.

Lemma no_workload_apply w k t :
  steps t `prefix_of` [Create (the_build w); Create (the_buildrun w)] ++ replicate k PollBuildRun →
  ∀ e, e ∈ t → ¬ is_workload_apply e.
Proof.
  intros [rest Hp] e He Hw.
  destruct (workload_apply_step t e He Hw) as (s & Hs & Hws).
  eapply (no_workload_step_started w k s); [|done].
  rewrite Hp. apply elem_of_app. by left.
Qed.

Lemma steps_started w A P k :
  steps A = [Create (the_build w); Create (the_buildrun w)] →
  steps P = replicate k PollBuildRun →
  steps (A ++ P) = [Create (the_build w); Create (the_buildrun w)] ++ replicate k PollBuildRun.
Proof. intros HA HP. by rewrite steps_app, HA, HP. Qed.

(** C1. A run whose BuildRun reports Succeeded=False, or whose poll times
    out, contains no [kubectl apply] of a Deployment or a Service and ends
    with a non-zero exit status; and wherever a run applies a Deployment or
    a Service, the poll has read Succeeded=True and the script has printed
    "BuildRun succeeded!" earlier in that run. *)
Theorem build_before_deploy (w : World) :
  (build_failed w ∨ poll_timed_out w →
     (∀ e, e ∈ trace w → ¬ is_workload_apply e) ∧
     ∃ c, exit_status w = Exit c ∧ c ≠ 0)
  ∧ (∀ t1 e t2, trace w = t1 ++ e :: t2 → is_workload_apply e →
       build_succeeded w ∧ Echo "BuildRun succeeded!" ∈ t1).
Proof.
  generalize (run_outcome w). generalize (trace w) (exit_status w).
  intros t r H.
  assert (Hearly : ∀ t k,
    steps t `prefix_of` [Create (the_build w); Create (the_buildrun w)] ++ replicate k PollBuildRun →
    ∀ t1 e t2, t = t1 ++ e :: t2 → is_workload_apply e →
       build_succeeded w ∧ Echo "BuildRun succeeded!" ∈ t1).
  { intros t' k Hp t1 e t2 -> He. exfalso.
    eapply (no_workload_apply w k); [exact Hp| |exact He].
    apply elem_of_app. right. by left. }
  destruct H as [t Hs Hb|t Hs Hb Hr|A P k j c HA Hst HP Hj Hc Hy Hin
                |A P k HA Hst HP Hto Hl|A P k j D n c HA Hst HP Hj Hin Hn HD Hok Hc].
  - assert (Hp : steps t `prefix_of`
        [Create (the_build w); Create (the_buildrun w)] ++ replicate 0 PollBuildRun).
    { rewrite Hs. by exists [Create (the_buildrun w)]. }
    split; [intros _; split; [by eapply no_workload_apply|by eexists]|by eapply Hearly].
  - assert (Hp : steps t `prefix_of`
        [Create (the_build w); Create (the_buildrun w)] ++ replicate 0 PollBuildRun).
    { rewrite Hs. by exists []. }
    split; [intros _; split; [by eapply no_workload_apply|by eexists]|by eapply Hearly].
  - assert (Hp : steps (A ++ P) `prefix_of`
        [Create (the_build w); Create (the_buildrun w)] ++ replicate (S k) PollBuildRun).
    { erewrite steps_started by done. done. }
    split; [intros _; split; [by eapply no_workload_apply|by eexists]|by eapply Hearly].
  - assert (Hp : steps (A ++ P) `prefix_of`
        [Create (the_build w); Create (the_buildrun w)] ++ replicate (S k) PollBuildRun).
    { erewrite steps_started by done. done. }
    split; [intros _; split; [by eapply no_workload_apply|by eexists]|by eapply Hearly].
  - split.
    + intros [[j' Hf]|Hto]; exfalso.
      * by eapply succeeded_not_failed.
      * by eapply succeeded_not_timed_out.
    + intros t1 e t2 Heq He. split; [by exists j|].
      rewrite app_assoc in Heq.
      eapply (before_app _ is_workload_apply (A ++ P) D); [|by apply elem_of_app; right|done..].
      eapply (no_workload_apply w (S k)). by erewrite steps_started.
Qed.




(** ** The script: what a failed build and a timeout report *)

Import ScriptReport.






(** ** The script: sample runs *)

Lemma world_fails_failed_at : build_failed_at world_fails 1.
Proof.
  split_and!; [rewrite poll_fuel_eq; lia| |reflexivity].
  intros k Hk. assert (k = 0%nat) as -> by lia. by vm_compute.
Qed.

Lemma world_succeeds_succeeded_at : build_succeeded_at world_succeeds 2.
Proof.
  split_and!; [rewrite poll_fuel_eq; lia| |reflexivity].
  intros k Hk. unfold status_at. cbn. by case_decide; [lia|].
Qed.

Lemma world_hangs_timed_out : poll_timed_out world_hangs.
Proof. intros k _. by vm_compute. Qed.

Lemma world_with_started st : build_started (world_with st).
Proof. by split. Qed.

(** C1 at the failing and at the succeeding sample world. *)
Lemma build_before_deploy_witness :
  ((∀ e, e ∈ trace world_fails → ¬ is_workload_apply e) ∧
   ∃ c, exit_status world_fails = Exit c ∧ c ≠ 0)
  ∧ (build_succeeded world_succeeds ∧
     Echo "BuildRun succeeded!" ∈ take 37 (trace world_succeeds)).
Proof.
  split.
  - apply (proj1 (build_before_deploy world_fails)).
    left. exists 1%nat. apply world_fails_failed_at.
  - apply (proj2 (build_before_deploy world_succeeds)
             (take 37 (trace world_succeeds))
             (Apply (the_deployment world_succeeds))
             (drop 38 (trace world_succeeds))).
    + vm_compute. reflexivity.
    + exists (the_deployment world_succeeds). split; [reflexivity|]. left. reflexivity.
Defined.





(** ** The script: names *)

Lemma append_cons c s t : String c s +:+ t = String c (s +:+ t).
Proof. reflexivity. Qed.

Lemma append_assoc (s t u : string) : (s +:+ t) +:+ u = s +:+ t +:+ u.
Proof.
  induction s as [|c s IH]; [done|]. by rewrite !append_cons, IH.
Qed.

(** C3, counterexample: two runs that differ (one build fails, the other
    succeeds) and start within the same second apply a BuildRun of the same
    name. *)
Lemma buildrun_name_reused :
  ¬ (world_fails ≠ world_succeeds →
     name (the_buildrun world_fails) ≠ name (the_buildrun world_succeeds)).
Proof.
  intros H. apply H; [|reflexivity].
  intros Heq. apply (f_equal (λ w, succeeded_status w 1)) in Heq. discriminate.
Qed.

(** C3, as amended. The BuildRuns of two runs have the same name exactly when
    [date +%s] printed the same number of seconds in both. *)
Theorem buildrun_name_by_second (w1 w2 : World) :
  name (the_buildrun w1) = name (the_buildrun w2) ↔ date_s w1 = date_s w2.
Proof.
  unfold the_buildrun, BUILDRUN_NAME. cbn [name buildrun_manifest vars TOOL_NAME].
  split; [|by intros ->].
  intros H. do 2 apply (inj (String.append _)) in H. by apply (inj pretty) in H.
Qed.


(** ** The import form *)

Import Js ImportAgentPage.

(** *** The regular expression matcher *)

Lemma append_nil_l (s : string) : "" +:+ s = s.
Proof. reflexivity. Qed.

Lemma append_nil_r (s : string) : s +:+ "" = s.
Proof. induction s as [|c s IH]; [done|]. by rewrite append_cons, IH. Qed.

Lemma append_eq_nil (s t : string) : s +:+ t = "" → s = "" ∧ t = "".
Proof. by destruct s. Qed.

Lemma append_eq_cons (s t : string) c u :
  s +:+ t = String c u →
  (s = "" ∧ t = String c u) ∨ (∃ s', s = String c s' ∧ u = s' +:+ t).
Proof.
  destruct s as [|c' s']; [by left|].
  rewrite append_cons. intros [= -> <-]. right. by exists s'.
Qed.

Lemma nullable_matches r : nullable r = true ↔ matches r "".
Proof.
  split.
  - induction r as [| |p|r1 IH1 r2 IH2|r1 IH1 r2 IH2|r IH]; cbn; intros H;
      try discriminate.
    + constructor.
    + apply andb_true_iff in H as [H1 H2].
      change "" with ("" +:+ ""). constructor; auto.
    + apply orb_true_iff in H as [H|H]; [apply m_alt_l|apply m_alt_r]; auto.
    + constructor.
  - intros H. remember "" as s eqn:Hs.
    induction H as [|p c Hp|r1 r2 s1 s2 H1 IH1 H2 IH2|r1 r2 s H IH|r1 r2 s H IH
                   |r|r s1 s2 H1 IH1 H2 IH2]; cbn; try done.
    + apply append_eq_nil in Hs as [-> ->]. by rewrite IH1, IH2.
    + by rewrite IH.
    + rewrite IH by done. by rewrite orb_true_r.
Qed.

Lemma matches_star_cons_inv r c s :
  matches (Star r) (String c s) →
  ∃ s1 s2, s = s1 +:+ s2 ∧ matches r (String c s1) ∧ matches (Star r) s2.
Proof.
  intros H. remember (Star r) as r' eqn:Hr. remember (String c s) as u eqn:Hu.
  induction H as [|p c' Hp|r1 r2 s1 s2 H1 IH1 H2 IH2|r1 r2 s' H IH|r1 r2 s' H IH
                 |r0|r0 s1 s2 H1 IH1 H2 IH2]; try discriminate.
  injection Hr as ->.
  apply append_eq_cons in Hu as [[-> ->]|(s1' & -> & ->)].
  - by apply IH2.
  - by exists s1', s2.
Qed.

Lemma matches_seq_inv r1 r2 u :
  matches (Seq r1 r2) u → ∃ s1 s2, u = s1 +:+ s2 ∧ matches r1 s1 ∧ matches r2 s2.
Proof. inversion 1; subst; eauto. Qed.

Lemma matches_alt_inv r1 r2 u : matches (Alt r1 r2) u → matches r1 u ∨ matches r2 u.
Proof. inversion 1; subst; eauto. Qed.

Lemma matches_class_inv p u : matches (Class p) u → ∃ c, u = String c "" ∧ p c = true.
Proof. inversion 1; subst; eauto. Qed.

Lemma deriv_matches r : ∀ c s, matches (deriv c r) s ↔ matches r (String c s).
Proof.
  induction r as [| |p|r1 IH1 r2 IH2|r1 IH1 r2 IH2|r IH]; intros c s; cbn.
  - split; inversion 1.
  - split; inversion 1.
  - split.
    + destruct (p c) eqn:Hp; inversion 1; subst. by constructor.
    + intros (c' & Heq & Hp)%matches_class_inv. injection Heq as -> ->.
      rewrite Hp. constructor.
  - assert (Hd : ∀ s, matches (Seq (deriv c r1) r2) s →
                      matches (Seq r1 r2) (String c s)).
    { intros u (s1 & s2 & -> & H1 & H2)%matches_seq_inv.
      rewrite <- append_cons. constructor; [by apply IH1|done]. }
    split.
    + destruct (nullable r1) eqn:Hn; [|by apply Hd].
      intros [H|H]%matches_alt_inv; [by apply Hd|].
      rewrite <- (append_nil_l (String c s)).
      constructor; [by apply nullable_matches|by apply IH2].
    + intros (s1 & s2 & Hs & H1 & H2)%matches_seq_inv. symmetry in Hs.
      apply append_eq_cons in Hs as [[-> ->]|(s1' & -> & ->)].
      * assert (nullable r1 = true) as -> by by apply nullable_matches.
        apply m_alt_r. by apply IH2.
      * assert (matches (Seq (deriv c r1) r2) (s1' +:+ s2))
          by (constructor; [by apply IH1|done]).
        destruct (nullable r1); [by apply m_alt_l|done].
  - split.
    + intros [H|H]%matches_alt_inv; [apply m_alt_l; by apply IH1|apply m_alt_r; by apply IH2].
    + intros [H|H]%matches_alt_inv; [apply m_alt_l; by apply IH1|apply m_alt_r; by apply IH2].
  - split.
    + intros (s1 & s2 & -> & H1 & H2)%matches_seq_inv.
      rewrite <- append_cons. constructor; [by apply IH|done].
    + intros (s1 & s2 & -> & H1 & H2)%matches_star_cons_inv.
      constructor; [by apply IH|done].
Qed.

Lemma test_matches r s : test r s = true ↔ matches r s.
Proof.
  revert r. induction s as [|c s IH]; intros r; cbn.
  - apply nullable_matches.
  - by rewrite IH, deriv_matches.
Qed.

Lemma matches_star_class p s : matches (Star (Class p)) s ↔ all_chars p s = true.
Proof.
  split.
  - induction s as [|c s IH]; [done|].
    intros (s1 & s2 & -> & H1 & H2)%matches_star_cons_inv.
    apply matches_class_inv in H1 as (c' & [= <- ->] & Hp).
    cbn. rewrite Hp. by apply IH.
  - induction s as [|c s IH]; [constructor|].
    cbn. intros [Hp Hs]%andb_true_iff.
    change (String c s) with (String c "" +:+ s).
    constructor; [by constructor|by apply IH].
Qed.

Lemma all_chars_snoc p s c :
  all_chars p (s +:+ String c "") = all_chars p s && p c.
Proof.
  induction s as [|c' s IH].
  - rewrite append_nil_l. cbn. by rewrite andb_true_r.
  - rewrite append_cons. cbn. by rewrite IH, andb_assoc.
Qed.

Lemma last_char_snoc c s c' : last_char c (s +:+ String c' "") = c'.
Proof. revert c. induction s as [|c'' s IH]; intros c; [done|]. apply IH. Qed.

Lemma snoc_view c s : ∃ mid, String c s = mid +:+ String (last_char c s) "".
Proof.
  revert c. induction s as [|c' s IH]; intros c; [by exists ""|].
  destruct (IH c') as [mid Hmid]. exists (String c mid).
  cbn [last_char]. by rewrite append_cons, <- Hmid.
Qed.

Lemma lower_alnum_dash_alnum c : lower_alnum c = true → lower_alnum_dash c = true.
Proof. unfold lower_alnum_dash. by intros ->. Qed.

Lemma matches_name_regex s : matches name_regex s ↔ label_shape s = true.
Proof.
  unfold name_regex. split.
  - intros [H|H]%matches_alt_inv.
    + apply matches_seq_inv in H as (s1 & s2 & -> & H1 & H2).
      apply matches_class_inv in H1 as (c & -> & Hc).
      apply matches_seq_inv in H2 as (mid & s3 & -> & Hmid & H3).
      apply matches_class_inv in H3 as (c' & -> & Hc').
      apply matches_star_class in Hmid.
      rewrite append_cons, append_nil_l. cbn [label_shape].
      rewrite Hc, all_chars_snoc, Hmid, last_char_snoc, Hc'.
      by rewrite (lower_alnum_dash_alnum c').
    + apply matches_class_inv in H as (c & -> & Hc). cbn. by rewrite Hc.
  - destruct s as [|c s]; [done|]. cbn.
    intros [[Hc Hs]%andb_true_iff Hl]%andb_true_iff.
    destruct s as [|c' s]; [apply m_alt_r; by constructor|apply m_alt_l].
    destruct (snoc_view c' s) as [mid Hmid].
    cbn [last_char] in Hl. rewrite Hmid in Hs |- *.
    rewrite all_chars_snoc in Hs. apply andb_true_iff in Hs as [Hs _].
    change (String c (mid +:+ String (last_char c' s) ""))
      with (String c "" +:+ mid +:+ String (last_char c' s) "").
    constructor; [by constructor|].
    constructor; [by apply matches_star_class|by constructor].
Qed.

(** The regular expression of [validateForm] accepts the strings of the shape
    of a DNS-1123 label, of any length. *)
Lemma test_name_regex s : test name_regex s = label_shape s.
Proof.
  apply eq_true_iff_eq. by rewrite test_matches, matches_name_regex.
Qed.

(** *** Validation and submission *)

Lemma truthy_true s : truthy s = true ↔ s ≠ "".
Proof. unfold truthy. by rewrite bool_decide_eq_true. Qed.

Lemma truthy_false s : truthy s = false ↔ s = "".
Proof.
  unfold truthy. rewrite bool_decide_eq_false. split; [|by intros -> ?].
  intros H. destruct (decide (s = "")); [done|]. by destruct H.
Qed.

Lemma test_name_regex_empty : test name_regex "" = false.
Proof. reflexivity. Qed.

Lemma validateForm_invalid st : (validateForm st).2 = false ↔ form_invalid st.
Proof.
  unfold validateForm, form_invalid.
  destruct (truthy (finalName st)) eqn:Hn; cbn [negb].
  - destruct (test name_regex (finalName st)) eqn:Hr; cbn [negb].
    + destruct (decide (deploymentMethod st = source)) as [Hm|Hm].
      * destruct (truthy (gitUrl st)) eqn:Hu, (truthy (gitPath st)) eqn:Hp,
          (truthy (selectedExample st)) eqn:He,
          (truthy (registryNamespace st)) eqn:Hg;
          rewrite ?truthy_true, ?truthy_false in *;
          cbn [negb andb]; case_bool_decide; cbn [negb andb snd];
          intuition congruence.
      * destruct (truthy (containerImage st)) eqn:Hc;
          rewrite ?truthy_true, ?truthy_false in *; cbn [negb snd];
          destruct (deploymentMethod st); intuition congruence.
    + split; [by left|intros _].
      destruct (decide (deploymentMethod st = source)); repeat (case_match; simplify_eq/=); done.
  - apply truthy_false in Hn. rewrite Hn, test_name_regex_empty.
    split; [by left|intros _].
    destruct (decide (deploymentMethod st = source)); repeat (case_match; simplify_eq/=); done.
Qed.

Lemma form_invalid_ports_env st ps es :
  form_invalid (set_servicePorts ps (set_envVars es st)) ↔ form_invalid st.
Proof. reflexivity. Qed.

(** C4, counterexample: a form with two service ports 8080 passes validation
    and is submitted; a form that has a valid name and no duplicates but no
    repository URL is rejected; a form whose name has 64 characters is
    submitted. *)
Lemma duplicate_ports_submitted :
  ¬ ((handleSubmit form_two_ports).2 = [] ↔ spec_rejects form_two_ports)
  ∧ ¬ ((handleSubmit form_no_url).2 = [] ↔ spec_rejects form_no_url)
  ∧ ¬ ((handleSubmit form_long_name).2 = [] ↔ spec_rejects form_long_name).
Proof.
  split_and!.
  - intros [_ H].
    assert ((handleSubmit form_two_ports).2 = []) as Hs; [|by vm_compute in Hs].
    apply H. right; left. intros Hnd.
    apply NoDup_cons in Hnd as [Hn _]. apply Hn. vm_compute. by left.
  - intros [H _]. destruct H as [H|[H|H]]; [reflexivity|by vm_compute in H|..].
    + apply H. vm_compute. apply NoDup_singleton.
    + apply H. vm_compute. apply NoDup_nil_2.
  - intros [_ H].
    assert ((handleSubmit form_long_name).2 = []) as Hs; [|by vm_compute in Hs].
    apply H. left. reflexivity.
Qed.

(** C4, as amended. [handleSubmit] issues no create call exactly when
    [validateForm] fails: the final name does not match the regular
    expression (it is empty or not of the shape of a DNS-1123 label; its
    length is not checked), or, for a source build, the
    repository URL is empty, or both the path and the example are empty, or
    an external registry has no namespace, or, for an image deployment, the
    image is empty. Otherwise one create call is issued, with the final name
    and the service ports of the form as they are. The service ports and the
    environment variables play no part in the decision. *)
Theorem submit_iff_form_valid (st : State) :
  ((handleSubmit st).2 = [] ↔ form_invalid st)
  ∧ (¬ form_invalid st →
       ∃ req, (handleSubmit st).2 = [req] ∧ cr_name req = finalName st ∧
              cr_servicePorts req = servicePorts st ∧
              cr_envVars req = List.filter env_filled (envVars st))
  ∧ (∀ ps es, form_invalid (set_servicePorts ps (set_envVars es st)) ↔ form_invalid st)
  ∧ test name_regex (finalName st) = label_shape (finalName st).
Proof.
  pose proof (validateForm_invalid st) as Hv.
  unfold handleSubmit. destruct (validateForm st) as [nv ok]. cbn [snd] in Hv.
  split_and!.
  - destruct ok; cbn [negb]; [|by split; [intros _; apply Hv|]].
    split; [|intros Hi; by apply Hv in Hi].
    by case_decide.
  - intros Hi. destruct ok; [|by destruct Hi; apply Hv].
    cbn [negb]. case_decide; by eexists.
  - intros ps es. apply form_invalid_ports_env.
  - apply test_name_regex.
Qed.

Lemma form_two_ports_valid : ¬ form_invalid form_two_ports.
Proof.
  unfold form_invalid. vm_compute. intuition congruence.
Qed.

(** C4 (amended) at the form with two ports 8080. *)
Lemma submit_iff_form_valid_witness :
  ∃ req, (handleSubmit form_two_ports).2 = [req] ∧
         cr_name req = finalName form_two_ports ∧
         cr_servicePorts req = servicePorts form_two_ports ∧
         cr_envVars req = List.filter env_filled (envVars form_two_ports).
Proof.
  apply (proj1 (proj2 (submit_iff_form_valid form_two_ports))).
  apply form_two_ports_valid.
Defined.

Lemma import_keeps_names (imported : list EnvVar) (es : list EnvVar) :
  filter (λ v, ev_name v ∉ (list_to_set (ev_name <$> es) : gset string)) imported
  = filter (λ v, ev_name v ∉ ev_name <$> es) imported.
Proof. apply list_filter_iff. intros v. by rewrite elem_of_list_to_set. Qed.

Lemma filter_none {A} (P : A → Prop) `{!∀ x, Decision (P x)} (l : list A) :
  (∀ x, x ∈ l → ¬ P x) → filter P l = [].
Proof.
  induction l as [|x l IH]; intros Hall; [done|].
  rewrite filter_cons, decide_False by (apply Hall; by left).
  apply IH. intros y Hy. apply Hall. by right.
Qed.

(** C10. An import leaves the existing variables in place and appends the
    imported ones whose name is not among the existing names; importing the
    same list again changes nothing. *)
Theorem import_env_vars_merge (imported : list EnvVar) (st : State) :
  envVars (handleImportEnvVars imported st)
  = envVars st ++ filter (λ v, ev_name v ∉ ev_name <$> envVars st) imported
  ∧ envVars st `prefix_of` envVars (handleImportEnvVars imported st)
  ∧ handleImportEnvVars imported (handleImportEnvVars imported st)
    = handleImportEnvVars imported st.
Proof.
  assert (Heq : envVars (handleImportEnvVars imported st)
    = envVars st ++ filter (λ v, ev_name v ∉ ev_name <$> envVars st) imported).
  { unfold handleImportEnvVars. cbn. by rewrite import_keeps_names. }
  split_and!; [done|rewrite Heq; by eexists|].
  unfold handleImportEnvVars at 1. rewrite import_keeps_names.
  rewrite filter_none.
  - rewrite app_nil_r. unfold handleImportEnvVars. by destruct st.
  - intros v Hv Hnot. apply Hnot. rewrite Heq, fmap_app, elem_of_app.
    destruct (decide (ev_name v ∈ ev_name <$> envVars st)) as [?|Hn]; [by left|right].
    apply list_elem_of_fmap. exists v. split; [done|].
    apply list_elem_of_filter. done.
Qed.

(** ** Deleting, polling and status *)

(** C8. On the tool catalog, the agent catalog and the tool detail page, a
    delete request comes out of [handleDeleteConfirm] only when the typed
    text equals the name of the selected resource, and it is a request for
    that resource; with any other text no request is made. *)
Theorem delete_needs_exact_name :
  (∀ st r, r ∈ ToolCatalogPage.handleDeleteConfirm st →
     ∃ tool, ToolCatalogPage.toolToDelete st = Some tool ∧
             ToolCatalogPage.deleteConfirmText st = ToolCatalogPage.name tool ∧
             r = {| del_namespace := ToolCatalogPage.namespace tool;
                    del_name := ToolCatalogPage.name tool |})
  ∧ (∀ st tool, ToolCatalogPage.toolToDelete st = Some tool →
       ToolCatalogPage.deleteConfirmText st ≠ ToolCatalogPage.name tool →
       ToolCatalogPage.handleDeleteConfirm st = [])
  ∧ (∀ st r, r ∈ AgentCatalogPage.handleDeleteConfirm st →
     ∃ agent, AgentCatalogPage.agentToDelete st = Some agent ∧
              AgentCatalogPage.deleteConfirmText st = AgentCatalogPage.name agent ∧
              r = {| del_namespace := AgentCatalogPage.namespace agent;
                     del_name := AgentCatalogPage.name agent |})
  ∧ (∀ st agent, AgentCatalogPage.agentToDelete st = Some agent →
       AgentCatalogPage.deleteConfirmText st ≠ AgentCatalogPage.name agent →
       AgentCatalogPage.handleDeleteConfirm st = [])
  ∧ (∀ st c, c ∈ ToolDetailPage.handleDeleteConfirm st →
       ToolDetailPage.name st = Some (ToolDetailPage.deleteConfirmText st) ∧
       c = {| ToolDetailPage.arg_namespace := ToolDetailPage.namespace st;
              ToolDetailPage.arg_name := ToolDetailPage.name st |})
  ∧ (∀ st, ToolDetailPage.name st ≠ Some (ToolDetailPage.deleteConfirmText st) →
       ToolDetailPage.handleDeleteConfirm st = []).
Proof.
  split_and!.
  - intros st r. unfold ToolCatalogPage.handleDeleteConfirm.
    destruct (ToolCatalogPage.toolToDelete st) as [tool|]; [|by intros ?%elem_of_nil].
    case_decide; [|by intros ?%elem_of_nil].
    intros ->%list_elem_of_singleton. by exists tool.
  - intros st tool H Hne. unfold ToolCatalogPage.handleDeleteConfirm.
    rewrite H. by rewrite decide_False.
  - intros st r. unfold AgentCatalogPage.handleDeleteConfirm.
    destruct (AgentCatalogPage.agentToDelete st) as [agent|]; [|by intros ?%elem_of_nil].
    case_decide; [|by intros ?%elem_of_nil].
    intros ->%list_elem_of_singleton. by exists agent.
  - intros st agent H Hne. unfold AgentCatalogPage.handleDeleteConfirm.
    rewrite H. by rewrite decide_False.
  - intros st c. unfold ToolDetailPage.handleDeleteConfirm.
    case_decide; [|by intros ?%elem_of_nil].
    by intros ->%list_elem_of_singleton.
  - intros st Hne. unfold ToolDetailPage.handleDeleteConfirm.
    rewrite decide_False; [done|]. by intros E.
Qed.

(** C8 on the sample pages: the exact name, a prefix of it, another case, a
    trailing space. *)
Lemma delete_needs_exact_name_witness :
  (∃ tool, ToolCatalogPage.toolToDelete
             (ToolCatalogPage.setDeleteConfirmText "weather-tool" ToolCatalogPage.dialog_open)
           = Some tool ∧
           "weather-tool" = ToolCatalogPage.name tool ∧
           {| del_namespace := "team1"; del_name := "weather-tool" |}
           = {| del_namespace := ToolCatalogPage.namespace tool;
                del_name := ToolCatalogPage.name tool |})
  ∧ ToolCatalogPage.handleDeleteConfirm
      (ToolCatalogPage.setDeleteConfirmText "weather-too" ToolCatalogPage.dialog_open) = []
  ∧ (∃ agent, AgentCatalogPage.agentToDelete
             (AgentCatalogPage.setDeleteConfirmText "weather-service"
                AgentCatalogPage.dialog_open)
           = Some agent ∧
           "weather-service" = AgentCatalogPage.name agent ∧
           {| del_namespace := "team1"; del_name := "weather-service" |}
           = {| del_namespace := AgentCatalogPage.namespace agent;
                del_name := AgentCatalogPage.name agent |})
  ∧ AgentCatalogPage.handleDeleteConfirm
      (AgentCatalogPage.setDeleteConfirmText "Weather-Service" AgentCatalogPage.dialog_open) = []
  ∧ (Some "weather-tool" = Some "weather-tool" ∧
     {| ToolDetailPage.arg_namespace := Some "team1";
        ToolDetailPage.arg_name := Some "weather-tool" |}
     = {| ToolDetailPage.arg_namespace := Some "team1";
          ToolDetailPage.arg_name := Some "weather-tool" |})
  ∧ ToolDetailPage.handleDeleteConfirm
      (ToolDetailPage.setDeleteConfirmText "weather-tool " ToolDetailPage.dialog_open) = [].
Proof.
  pose proof delete_needs_exact_name as (H1 & H2 & H3 & H4 & H5 & H6).
  split; [|split; [|split; [|split; [|split]]]].
  - apply (H1 (ToolCatalogPage.setDeleteConfirmText "weather-tool" ToolCatalogPage.dialog_open)).
    vm_compute. by left.
  - apply (H2 _ ToolCatalogPage.weather_tool); [reflexivity|]. vm_compute. discriminate.
  - apply (H3 (AgentCatalogPage.setDeleteConfirmText "weather-service"
                 AgentCatalogPage.dialog_open)).
    vm_compute. by left.
  - apply (H4 _ AgentCatalogPage.weather_agent); [reflexivity|]. vm_compute. discriminate.
  - apply (H5 (ToolDetailPage.setDeleteConfirmText "weather-tool" ToolDetailPage.dialog_open)).
    vm_compute. by left.
  - apply H6. vm_compute. discriminate.
Defined.

(** C9. The refetch interval depends on the last fetched [readyStatus] only:
    no refetch when it is "Ready", 5000 ms otherwise (also before the first
    answer and for "Failed"). A tool that stays "Failed" is fetched again and
    again, and fetching stops at the first answer that is "Ready". *)
Theorem refetch_until_ready :
  (∀ data, ToolDetailPage.refetchInterval data =
       if decide (data ≫= ToolDetailPage.readyStatus = Some "Ready")
       then None else Some 5000)
  ∧ (∀ d1 d2, ToolDetailPage.readyStatus d1 = ToolDetailPage.readyStatus d2 →
       ToolDetailPage.refetchInterval (Some d1) = ToolDetailPage.refetchInterval (Some d2))
  ∧ ToolDetailPage.refetchInterval (Some ToolDetailPage.failed_tool) = Some 5000
  ∧ (∀ n, ToolDetailPage.fetches (replicate n ToolDetailPage.failed_tool) = n)
  ∧ (∀ ds d rest,
       Forall (λ d, ToolDetailPage.readyStatus d ≠ Some "Ready") ds →
       ToolDetailPage.readyStatus d = Some "Ready" →
       ToolDetailPage.fetches (ds ++ d :: rest) = S (length ds)).
Proof.
  assert (H1 : ∀ data, ToolDetailPage.refetchInterval data =
       if decide (data ≫= ToolDetailPage.readyStatus = Some "Ready")
       then None else Some 5000).
  { intros [[wt [rs|]]|]; unfold ToolDetailPage.refetchInterval, Js.or_else, Js.truthy;
      cbn; [|done..].
    case_bool_decide as E.
    - destruct (decide (rs = "Ready")) as [->|]; [by rewrite decide_True|].
      rewrite decide_False; [done|]. by intros [= ?].
    - assert (rs = "") as -> by (by destruct (decide (rs = "")); [|destruct E]).
      done. }
  split_and!; [done| | | |].
  - intros d1 d2 E. rewrite !H1. cbn. by rewrite E.
  - reflexivity.
  - induction n as [|n IH]; [done|]. cbn. by rewrite IH.
  - intros ds d rest Hds Hd. induction Hds as [|d' ds Hd' _ IH]; cbn [app ToolDetailPage.fetches length].
    + rewrite H1. cbn. by rewrite decide_True.
    + rewrite H1. cbn. rewrite decide_False by done. by rewrite IH.
Qed.

(** C9 on sample answers. *)
Lemma refetch_until_ready_witness :
  ToolDetailPage.refetchInterval (Some ToolDetailPage.failed_tool)
  = ToolDetailPage.refetchInterval
      (Some {| ToolDetailPage.workloadType := None;
               ToolDetailPage.readyStatus := Some "Failed" |})
  ∧ ToolDetailPage.fetches
      ([ToolDetailPage.failed_tool; ToolDetailPage.failed_tool]
       ++ {| ToolDetailPage.workloadType := None;
             ToolDetailPage.readyStatus := Some "Ready" |}
       :: [ToolDetailPage.failed_tool]) = 3%nat.
Proof.
  pose proof refetch_until_ready as (_ & H2 & _ & _ & H5).
  split.
  - apply H2. reflexivity.
  - apply H5; [|reflexivity]. repeat constructor; discriminate.
Defined.


(** ** The weather-tool script: exit status, time spent, resources *)

Section ScriptRunProperties.
Import Script ScriptRun.



Lemma steps_1_2_verdict w :
  (build_started w ∧ (steps_1_2 w).2 = Next (BUILDRUN_NAME (vars w) (date_s w)))
  ∨ (¬ build_started w ∧ ∃ c, (steps_1_2 w).2 = Exit c ∧ c ≠ 0).
Proof.
  destruct (steps_1_2 w) as [t r] eqn:E. cbn [snd].
  apply steps_1_2_cases in E as [(_ & Hb & ->)|[(_ & Hb & Hr & ->)|(_ & Hst & ->)]].
  - right. split; [by intros [? _]|by eexists].
  - right. split; [by intros [_ ?]|by eexists].
  - by left.
Qed.

Lemma slept_app t1 t2 : slept (t1 ++ t2) = slept t1 + slept t2.
Proof.
  induction t1 as [|e t1 IH]; [done|].
  change (slept ((e :: t1) ++ t2))
    with (match e with Sleep n => n + slept (t1 ++ t2) | _ => slept (t1 ++ t2) end).
  change (slept (e :: t1))
    with (match e with Sleep n => n + slept t1 | _ => slept t1 end).
  destruct e; rewrite IH; lia.
Qed.

Lemma reads_app t1 t2 : reads (t1 ++ t2) = (reads t1 + reads t2)%nat.
Proof.
  induction t1 as [|e t1 IH]; [done|].
  change (reads ((e :: t1) ++ t2))
    with (match e with
          | GetCondition _ f =>
              if decide (f = "status") then S (reads (t1 ++ t2)) else reads (t1 ++ t2)
          | _ => reads (t1 ++ t2)
          end).
  change (reads (e :: t1))
    with (match e with
          | GetCondition _ f => if decide (f = "status") then S (reads t1) else reads t1
          | _ => reads t1
          end).
  destruct e; rewrite IH; try done. by case_decide.
Qed.

Lemma slept_cons e t : slept (e :: t) = slept [e] + slept t.
Proof. apply (slept_app [e]). Qed.

Lemma slept_cons2 e e' t : slept (e :: e' :: t) = slept [e] + slept (e' :: t).
Proof. apply slept_cons. Qed.

Lemma reads_cons e t : reads (e :: t) = (reads [e] + reads t)%nat.
Proof. apply (reads_app [e]). Qed.

Lemma reads_cons2 e e' t : reads (e :: e' :: t) = (reads [e] + reads (e' :: t))%nat.
Proof. apply reads_cons. Qed.

(** The loop from its i-th iteration on: how long it sleeps and how often it
    reads the status. *)
Lemma poll_loop_counts w brn fuel : ∀ i t r,
  (i + fuel = poll_fuel)%nat →
  pending_until w i →
  poll_loop w brn fuel i (POLL_INTERVAL * Z.of_nat i) = (t, r) →
  ((∃ j, (i ≤ j)%nat ∧ (build_succeeded_at w j ∨ build_failed_at w j) ∧
         slept t = POLL_INTERVAL * Z.of_nat (j - i) ∧ reads t = S (j - i))
   ∨ (poll_timed_out w ∧ slept t = POLL_INTERVAL * Z.of_nat fuel ∧ reads t = fuel)).
Proof.
  induction fuel as [|fuel IH]; intros i t r Hi Hp.
  - assert (i = poll_fuel) as -> by lia. cbn. intros [= <- <-]. right. by split.
  - assert (Hlt : (i < poll_fuel)%nat) by lia.
    assert (HE : POLL_INTERVAL * Z.of_nat i < TIMEOUT).
    { rewrite poll_fuel_eq in Hlt. unfold TIMEOUT, POLL_INTERVAL. lia. }
    cbn [poll_loop]. rewrite decide_True by done.
    unfold capture_or_empty. cbn [mbind Sh_bind bind].
    fold (status_at w i). fold (reason_at w i).
    destruct (decide (status_at w i = "True")) as [HT|HT].
    { cbn. intros [= <- <-]. left. exists i. rewrite Nat.sub_diag.
      split_and!; [lia|by left|done..]. }
    destruct (decide (status_at w i = "False")) as [HF|HF].
    { cbn. unfold errexit.
      destruct (decide (buildrun_yaml w = 0)); cbn; intros [= <- <-];
        left; exists i; rewrite Nat.sub_diag; (split_and!; [lia|by right|done..]). }
    cbn [mbind Sh_bind bind echo].
    replace (POLL_INTERVAL * Z.of_nat i + POLL_INTERVAL)
      with (POLL_INTERVAL * Z.of_nat (S i)) by lia.
    destruct (poll_loop w brn fuel (S i) (POLL_INTERVAL * Z.of_nat (S i)))
      as [t' r'] eqn:E.
    apply IH in E; [|lia|by apply pending_until_S].
    cbn [mbind Sh_bind bind echo]. intros [= <- <-].
    rewrite !slept_cons2, !reads_cons2, (slept_cons _ t'), (reads_cons _ t').
    destruct E as [(j & Hj & Hterm & Hs & Hr)|(Hto & Hs & Hr)];
      rewrite Hs, Hr; [left|right].
    + exists j. split_and!; [lia|done|..].
      * cbn. unfold POLL_INTERVAL. lia.
      * cbn. rewrite decide_True, decide_False by done. lia.
    + split_and!; [done|..].
      * cbn. unfold POLL_INTERVAL. lia.
      * cbn. rewrite decide_True, decide_False by done. lia.
Qed.

Lemma step_3_counts w brn :
  (∃ j, (build_succeeded_at w j ∨ build_failed_at w j) ∧
        slept (step_3 w brn).1 = POLL_INTERVAL * Z.of_nat j ∧
        reads (step_3 w brn).1 = S j)
  ∨ (poll_timed_out w ∧ slept (step_3 w brn).1 = TIMEOUT ∧
     reads (step_3 w brn).1 = poll_fuel).
Proof.
  destruct (step_3 w brn) as [t r] eqn:E. cbn [fst].
  unfold step_3 in E. cbn [mbind Sh_bind bind echo] in E.
  destruct (poll_loop w brn poll_fuel 0 0) as [tl rl] eqn:Hl.
  change 0 with (POLL_INTERVAL * Z.of_nat 0) in Hl.
  pose proof Hl as Hc.
  apply poll_loop_counts in Hc; [|done|by intros k ?; lia].
  apply poll_loop_spec in Hl as [_ Hr]; [|done|by intros k ?; lia].
  destruct rl as [E'|c|]; [| |done]; cbn [mbind Sh_bind bind echo] in E.
  - destruct Hr as [(HE & j' & Hj' & _)|(HE & Hto)].
    + rewrite decide_False in E by lia. cbn in E. injection E as <- <-.
      rewrite app_nil_r.
      destruct Hc as [(j & _ & Hterm & Hs & Hrd)|(Hto & _)].
      * left. exists j. rewrite Nat.sub_0_r in *.
        rewrite !slept_cons2, !reads_cons2, (slept_cons _ tl), (reads_cons _ tl).
        rewrite Hs, Hrd. by cbn.
      * exfalso. by eapply succeeded_not_timed_out.
    + rewrite decide_True in E by lia. cbn in E. injection E as <- <-.
      destruct Hc as [(j & _ & [Hj|Hj] & _)|(_ & Hs & Hrd)].
      * exfalso. by eapply succeeded_not_timed_out.
      * exfalso. by eapply failed_not_timed_out.
      * right. split; [done|].
        rewrite !slept_cons2, !reads_cons2, (slept_cons _ (tl ++ _)),
          (reads_cons _ (tl ++ _)), slept_app, reads_app, Hs, Hrd.
        cbn. split; [by vm_compute|lia].
  - cbn in E. injection E as <- <-. destruct Hr as (j' & Hj' & _).
    destruct Hc as [(j & _ & Hterm & Hs & Hrd)|(Hto & _)].
    + left. exists j. rewrite Nat.sub_0_r in *.
      rewrite !slept_cons2, !reads_cons2, (slept_cons _ tl), (reads_cons _ tl).
      rewrite Hs, Hrd. by cbn.
    + exfalso. by eapply failed_not_timed_out.
Qed.




Lemma trace_decompose w :
  trace w =
    (steps_1_2 w).1 ++
    match (steps_1_2 w).2 with
    | Next brn =>
        (step_3 w brn).1 ++
        match (step_3 w brn).2 with
        | Next _ => (steps_4_6 w brn).1
        | _ => []
        end
    | _ => []
    end.
Proof.
  unfold trace, run, main.
  destruct (steps_1_2 w) as [A [brn|c|]]; cbn [mbind Sh_bind bind fst snd];
    [|by rewrite app_nil_r..].
  destruct (step_3 w brn) as [P [[]|c|]]; cbn [mbind Sh_bind bind fst snd];
    [|by rewrite app_nil_r..].
  by destruct (steps_4_6 w brn) as [D [[]|c|]].
Qed.

Lemma steps_1_2_quiet w : slept (steps_1_2 w).1 = 0 ∧ reads (steps_1_2 w).1 = 0%nat.
Proof.
  unfold steps_1_2, errexit. cbn [mbind Sh_bind bind echo].
  repeat (case_decide; cbn [mbind Sh_bind bind echo fst]); by cbn.
Qed.

Lemma steps_4_6_quiet w brn :
  slept (steps_4_6 w brn).1 = 0 ∧ reads (steps_4_6 w brn).1 = 0%nat.
Proof.
  unfold steps_4_6, errexit, capture. cbn [mbind Sh_bind bind echo].
  repeat (case_decide; cbn [mbind Sh_bind bind echo mret Sh_ret ret fst]); by cbn.
Qed.

(** X2. A run never sleeps more than the 600 seconds of the timeout and
    never reads the BuildRun's condition more than 60 times. Once the
    BuildRun is created, a run whose j-th read (counting from 0) is the first
    to report True or False has slept 10 j seconds and made j + 1 reads, and
    a run that times out has slept the whole 600 seconds in 60 reads. *)
Theorem poll_budget (w : World) :
  0 ≤ slept (trace w) ≤ TIMEOUT ∧ (reads (trace w) ≤ poll_fuel)%nat
  ∧ (build_started w →
      (∀ j, build_succeeded_at w j ∨ build_failed_at w j →
            slept (trace w) = POLL_INTERVAL * Z.of_nat j ∧ reads (trace w) = S j)
      ∧ (poll_timed_out w → slept (trace w) = TIMEOUT ∧ reads (trace w) = poll_fuel)).
Proof.
  rewrite trace_decompose, slept_app, reads_app.
  destruct (steps_1_2_quiet w) as [-> ->].
  destruct (steps_1_2_verdict w) as [[H1 ->]|[H1 (c & -> & Hc)]]; cbn [slept reads foldr];
    [|split_and!; [done|done|lia|tauto]].
  set (brn := BUILDRUN_NAME (vars w) (date_s w)).
  rewrite slept_app, reads_app.
  assert (Htail : slept match (step_3 w brn).2 with
                        | Next _ => (steps_4_6 w brn).1 | _ => [] end = 0
                ∧ reads match (step_3 w brn).2 with
                        | Next _ => (steps_4_6 w brn).1 | _ => [] end = 0%nat).
  { destruct (step_3 w brn).2; [apply steps_4_6_quiet|done..]. }
  destruct Htail as [-> ->].
  destruct (step_3_counts w brn) as [(j & Hterm & -> & ->)|(Hto & -> & ->)].
  - assert (j < poll_fuel)%nat as Hj by (destruct Hterm as [(? & _)|(? & _)]; done).
    rewrite poll_fuel_eq in *. unfold TIMEOUT, POLL_INTERVAL.
    split_and!; [lia..|]. intros _. split.
    + intros j' Hterm'. assert (j' = j) as ->; [|split; lia].
      destruct Hterm as [(_ & ? & ?)|(_ & ? & ?)], Hterm' as [(_ & ? & ?)|(_ & ? & ?)];
        eapply first_terminal_unique; eauto.
    + intros Hto. exfalso. destruct Hterm.
      * by eapply succeeded_not_timed_out.
      * by eapply failed_not_timed_out.
  - rewrite poll_fuel_eq. unfold TIMEOUT.
    split_and!; [lia..|]. intros _. split; [|intros _; split; lia].
    intros j [Hj|Hj]; exfalso.
    + by eapply succeeded_not_timed_out.
    + by eapply failed_not_timed_out.
Qed.

(** X2 at the succeeding and at the hanging sample world. *)
Lemma poll_budget_witness :
  (slept (trace world_succeeds) = 20 ∧ reads (trace world_succeeds) = 3%nat)
  ∧ (slept (trace world_hangs) = 600 ∧ reads (trace world_hangs) = 60%nat).
Proof.
  split.
  - apply (proj1 (proj2 (proj2 (poll_budget world_succeeds)) (world_with_started _))
             2%nat).
    left. apply world_succeeds_succeeded_at.
  - apply (proj2 (proj2 (proj2 (poll_budget world_hangs)) (world_with_started _))).
    apply world_hangs_timed_out.
Defined.

Lemma applied_one_of_four (w : World) (m : Manifest) :
  Apply m ∈ trace w →
  m ∈ [the_build w; the_buildrun w; the_deployment w; the_service w].
Proof.
  intros Hin.
  assert (Create m ∈ steps (trace w)) as Hstep.
  { apply list_elem_of_omap. by exists (Apply m). }
  assert (∀ k, Create m ∈ replicate k PollBuildRun → False) as Hpoll.
  { intros k Hk. by apply elem_of_replicate_inv in Hk. }
  assert (∀ n, Create m ∈ take n [Create (the_deployment w); Create (the_service w); PollReady] →
               m = the_deployment w ∨ m = the_service w) as Hdeploy.
  { intros n Hn. apply elem_of_take in Hn as (i & Hi & _).
    destruct i as [|[|[|i]]]; cbn in Hi; simplify_eq; auto. }
  rewrite !elem_of_cons.
  destruct (run_outcome w) as
    [t Hs _|t Hs _ _|A P k j c HA _ HP _ _ _ _|A P k HA _ HP _ _
    |A P k j D n c HA _ HP _ _ _ HD _ _];
    rewrite ?steps_app, ?HA, ?HP, ?HD, ?Hs in Hstep;
    rewrite ?elem_of_app, ?elem_of_cons, ?elem_of_nil in Hstep;
    repeat match goal with
           | H : _ ∨ _ |- _ => destruct H
           | H : Create _ = Create _ |- _ => injection H as ->
           | H : Create _ ∈ replicate _ _ |- _ => destruct (Hpoll _ H)
           | H : Create _ ∈ take _ _ |- _ => apply Hdeploy in H
           | H : False |- _ => destruct H
           end; subst; auto.
Qed.

(** X3. Whatever the environment and the answers of the cluster, the
    resources a run applies fit together: they are all in the namespace of
    the run, a BuildRun names the Build that was applied, and the selector of
    a Service selects the pods of the Deployment and targets the port of
    their container. *)
Theorem applied_resources_linked (w : World) :
  (∀ m, Apply m ∈ trace w → namespace m = NAMESPACE (vars w))
  ∧ (∀ b r, Apply b ∈ trace w → Apply r ∈ trace w →
            kind b = Build → kind r = BuildRun → buildrun_starts b r)
  ∧ (∀ d s, Apply d ∈ trace w → Apply s ∈ trace w →
            kind d = Deployment → kind s = Service → service_selects d s).
Proof.
  assert (∀ m, Apply m ∈ trace w →
               m = the_build w ∨ m = the_buildrun w ∨ m = the_deployment w
               ∨ m = the_service w) as Hfour.
  { intros m Hm. apply applied_one_of_four in Hm.
    rewrite !elem_of_cons, elem_of_nil in Hm. tauto. }
  split; [|split].
  - intros m Hm. by destruct (Hfour m Hm) as [->|[->|[->| ->]]].
  - intros b r Hb Hr Kb Kr.
    destruct (Hfour b Hb) as [->|[->|[->| ->]]]; try done.
    destruct (Hfour r Hr) as [->|[->|[->| ->]]]; try done.
    split_and!; try done. cbn. rewrite !elem_of_cons. tauto.
  - intros d s Hd Hs Kd Ks.
    destruct (Hfour d Hd) as [->|[->|[->| ->]]]; try done.
    destruct (Hfour s Hs) as [->|[->|[->| ->]]]; try done.
    cbn. split_and!; try done; intros kv; rewrite !elem_of_cons; tauto.
Qed.

(** X3 at the succeeding sample world, whose run applies all four
    resources. *)
Lemma applied_resources_linked_witness :
  buildrun_starts (the_build world_succeeds) (the_buildrun world_succeeds)
  ∧ service_selects (the_deployment world_succeeds) (the_service world_succeeds).
Proof.
  split.
  - apply (proj1 (proj2 (applied_resources_linked world_succeeds))); try done.
    + apply (list_elem_of_lookup_2 _ 9). vm_compute. reflexivity.
    + apply (list_elem_of_lookup_2 _ 13). vm_compute. reflexivity.
  - apply (proj2 (proj2 (applied_resources_linked world_succeeds))); try done.
    + apply (list_elem_of_lookup_2 _ 37). vm_compute. reflexivity.
    + apply (list_elem_of_lookup_2 _ 39). vm_compute. reflexivity.
Defined.

End ScriptRunProperties.

(** ** The weather-tool script: the names of the workload and of its Service *)

Section ToolServiceNameProperties.
Import Script.

Lemma applied_of_step (t : list event) (m : Manifest) :
  Create m ∈ steps t → Apply m ∈ t.
Proof.
  intros (e & He & Hs)%list_elem_of_omap.
  destruct e; cbn in Hs; simplify_eq. done.
Qed.

(** A run that exits with status 0 has applied the Deployment and the
    Service, and [kubectl apply] accepted both. *)
Lemma complete_run_applies (w : World) :
  exit_status w = Exit 0 →
  Apply (the_deployment w) ∈ trace w ∧ kubectl_apply w (the_deployment w) = 0
  ∧ Apply (the_service w) ∈ trace w ∧ kubectl_apply w (the_service w) = 0.
Proof.
  generalize (run_outcome w). generalize (trace w) (exit_status w).
  intros t r H Hr.
  destruct H as [t Hs Hb'|t Hs Hb' Hr'|A P k j c HA Hst HP Hj Hc Hy Hin
                |A P k HA Hst HP Hto Hl|A P k j D n c HA Hst HP Hj Hin Hn HD Hok Hc];
    try (injection Hr as Hr; congruence).
  injection Hr as ->. destruct Hc as [-> Hs]; [done|].
  cbn [take pred Init.Nat.pred] in *.
  inversion_clear Hok as [|? ? Hd Hok'].
  assert (∀ m, Create m ∈ steps D → Apply m ∈ A ++ P ++ D) as Hin'.
  { intros m Hm. rewrite !elem_of_app. right; right. by apply applied_of_step. }
  split_and!; [apply Hin'; rewrite HD; set_solver|done|apply Hin'; rewrite HD; set_solver|done].
Qed.

(** C6. In every run of the script, whatever the environment and the answers
    of the cluster, a Deployment it applies has the plain tool name and a
    Service it applies has the tool name followed by "-mcp". A run that exits
    with status 0 has created both: a Deployment [d] named after the tool
    and a Service [s], in the same namespace, whose name is that of [d]
    followed by "-mcp"; and the in-cluster MCP URL that the detail page of
    the tool [d] derives is the address of [s] at port 8000. For every tool
    name [n] and namespace [ns], that URL names the host [n] followed by
    "-mcp". *)
Theorem tool_service_name (w : World) :
  (∀ m, Apply m ∈ trace w → kind m = Deployment → name m = TOOL_NAME (vars w))
  ∧ (∀ m, Apply m ∈ trace w → kind m = Service →
       name m = TOOL_NAME (vars w) +:+ "-mcp")
  ∧ (exit_status w = Exit 0 →
       ∃ d s, Apply d ∈ trace w ∧ kind d = Deployment ∧ kubectl_apply w d = 0
            ∧ Apply s ∈ trace w ∧ kind s = Service ∧ kubectl_apply w s = 0
            ∧ name d = TOOL_NAME (vars w)
            ∧ name s = name d +:+ "-mcp"
            ∧ namespace s = namespace d
            ∧ ∀ open txt,
                ToolDetailPage.mcpInClusterUrl
                  {| ToolDetailPage.name := Some (name d);
                     ToolDetailPage.namespace := Some (namespace d);
                     ToolDetailPage.deleteModalOpen := open;
                     ToolDetailPage.deleteConfirmText := txt |}
                = "http://" +:+ name s +:+ "." +:+ namespace s
                  +:+ ".svc.cluster.local:8000/mcp")
  ∧ (∀ n ns open txt,
       ToolDetailPage.mcpInClusterUrl
         {| ToolDetailPage.name := Some n; ToolDetailPage.namespace := Some ns;
            ToolDetailPage.deleteModalOpen := open;
            ToolDetailPage.deleteConfirmText := txt |}
       = "http://" +:+ (n +:+ "-mcp") +:+ "." +:+ ns +:+ ".svc.cluster.local:8000/mcp").
Proof.
  assert (∀ n ns open txt,
       ToolDetailPage.mcpInClusterUrl
         {| ToolDetailPage.name := Some n; ToolDetailPage.namespace := Some ns;
            ToolDetailPage.deleteModalOpen := open;
            ToolDetailPage.deleteConfirmText := txt |}
       = "http://" +:+ (n +:+ "-mcp") +:+ "." +:+ ns +:+ ".svc.cluster.local:8000/mcp")
    as Hurl.
  { intros n ns open txt. unfold ToolDetailPage.mcpInClusterUrl.
    cbn [ToolDetailPage.name ToolDetailPage.namespace ToolDetailPage.interpolate default].
    by rewrite append_assoc. }
  split_and!; [| | |exact Hurl].
  - intros m Hm Hk. apply applied_one_of_four in Hm.
    rewrite !elem_of_cons, elem_of_nil in Hm.
    destruct Hm as [->|[->|[->|[->|[]]]]]; done.
  - intros m Hm Hk. apply applied_one_of_four in Hm.
    rewrite !elem_of_cons, elem_of_nil in Hm.
    destruct Hm as [->|[->|[->|[->|[]]]]]; done.
  - intros (Hd & Hdok & Hs & Hsok)%complete_run_applies.
    exists (the_deployment w), (the_service w).
    split_and!; done.
Qed.

(** C6 at the succeeding sample world: the run exits with status 0, and the
    Service it applies is called "weather-tool-mcp". *)
Lemma tool_service_name_witness :
  (∃ d s, Apply d ∈ trace world_succeeds ∧ kind d = Deployment
        ∧ kubectl_apply world_succeeds d = 0
        ∧ Apply s ∈ trace world_succeeds ∧ kind s = Service
        ∧ kubectl_apply world_succeeds s = 0
        ∧ name d = TOOL_NAME (vars world_succeeds)
        ∧ name s = name d +:+ "-mcp"
        ∧ namespace s = namespace d
        ∧ ∀ open txt,
            ToolDetailPage.mcpInClusterUrl
              {| ToolDetailPage.name := Some (name d);
                 ToolDetailPage.namespace := Some (namespace d);
                 ToolDetailPage.deleteModalOpen := open;
                 ToolDetailPage.deleteConfirmText := txt |}
            = "http://" +:+ name s +:+ "." +:+ namespace s
              +:+ ".svc.cluster.local:8000/mcp")
  ∧ name (the_service world_succeeds) = "weather-tool-mcp".
Proof.
  split.
  - apply (proj1 (proj2 (proj2 (tool_service_name world_succeeds)))).
    vm_compute. reflexivity.
  - apply (proj1 (proj2 (tool_service_name world_succeeds)) (the_service world_succeeds)).
    + apply (list_elem_of_lookup_2 _ 39). vm_compute. reflexivity.
    + reflexivity.
Defined.

End ToolServiceNameProperties.

(** ** The cluster deployment script: its wait loops *)

Section DeployKagentiProperties.
Import DeployKagenti.

(** *** Printing and reading numbers *)

Lemma pretty_N_go_app (x : N) (s : string) :
  pretty_N_go x s = pretty_N_go x "" +:+ s.
Proof.
  revert s. induction (N.lt_wf_0 x) as [x _ IH]; intros s.
  assert (x = 0 ∨ 0 < x)%N as [->|Hx] by lia.
  - by rewrite !pretty_N_go_0.
  - rewrite !(pretty_N_go_step x) by done.
    assert (x `div` 10 < x)%N as Hlt by (by apply N.div_lt).
    rewrite (IH _ Hlt (String _ s)), (IH _ Hlt (String _ "")).
    by rewrite append_assoc.
Qed.

Lemma decimal_go_app (acc : Z) (s1 s2 : string) :
  decimal_go acc (s1 +:+ s2) = decimal_go (decimal_go acc s1) s2.
Proof. revert acc. induction s1 as [|c s1 IH]; intros acc; [done|]. apply IH. Qed.

Lemma pretty_N_char_value (d : N) :
  (d < 10)%N → Z.of_N (Ascii.N_of_ascii (pretty_N_char d)) - 48 = Z.of_N d.
Proof.
  intros Hd.
  assert (d = 0 ∨ d = 1 ∨ d = 2 ∨ d = 3 ∨ d = 4 ∨ d = 5 ∨ d = 6 ∨ d = 7
          ∨ d = 8 ∨ d = 9)%N as Hcases by lia.
  repeat (destruct Hcases as [->|Hcases]; [done|]). by subst.
Qed.

Lemma pretty_N_char_digit (d : N) : is_digit (pretty_N_char d) = true.
Proof. unfold pretty_N_char. by repeat case_match. Qed.

Lemma decimal_pretty_N_go (x : N) : decimal_go 0 (pretty_N_go x "") = Z.of_N x.
Proof.
  induction (N.lt_wf_0 x) as [x _ IH].
  assert (x = 0 ∨ 0 < x)%N as [->|Hx] by lia; [done|].
  rewrite pretty_N_go_step, pretty_N_go_app, decimal_go_app by done.
  rewrite IH by (by apply N.div_lt). cbn [decimal_go].
  rewrite pretty_N_char_value by (by apply N.mod_lt).
  rewrite (N.div_mod x 10) at 3 by done. lia.
Qed.

Lemma all_chars_app (p : ascii → bool) (s1 s2 : string) :
  Js.all_chars p (s1 +:+ s2) = Js.all_chars p s1 && Js.all_chars p s2.
Proof.
  induction s1 as [|c s1 IH]; [done|].
  rewrite append_cons. cbn [Js.all_chars]. rewrite IH. by rewrite andb_assoc.
Qed.

Lemma digits_pretty_N_go (x : N) : Js.all_chars is_digit (pretty_N_go x "") = true.
Proof.
  induction (N.lt_wf_0 x) as [x _ IH].
  assert (x = 0 ∨ 0 < x)%N as [->|Hx] by lia; [done|].
  rewrite pretty_N_go_step, pretty_N_go_app, all_chars_app by done.
  rewrite IH by (by apply N.div_lt). cbn [Js.all_chars].
  by rewrite pretty_N_char_digit.
Qed.

Lemma pretty_N_go_nonempty (x : N) : (0 < x)%N → pretty_N_go x "" ≠ "".
Proof.
  intros Hx. rewrite pretty_N_go_step, pretty_N_go_app by done.
  by destruct (pretty_N_go _ "").
Qed.

Lemma decimal_pretty (n : nat) : decimal (pretty n) = Z.of_nat n.
Proof.
  unfold decimal, pretty, pretty_nat, pretty, pretty_N.
  case_decide as Hn; [cbn; lia|].
  rewrite decimal_pretty_N_go. lia.
Qed.

Lemma is_number_pretty (n : nat) : is_number (pretty n) = true.
Proof.
  unfold is_number, pretty, pretty_nat, pretty, pretty_N.
  case_decide as Hn; [done|].
  rewrite digits_pretty_N_go, andb_true_r.
  apply bool_decide_eq_true, pretty_N_go_nonempty. lia.
Qed.

Lemma pretty_nat_zero (n : nat) : pretty n = "0" ↔ n = 0%nat.
Proof.
  split; [|by intros ->].
  intros Hn. by apply (inj (pretty : nat → string)).
Qed.

(** *** What an attempt of the node loop sees *)

Lemma not_ready_count_zero (statuses : list string) :
  not_ready_count statuses = 0%nat ↔ Forall (λ s, s = "Ready") statuses.
Proof.
  unfold not_ready_count.
  induction statuses as [|s statuses IH]; [by split; [constructor|]|].
  rewrite filter_cons, Forall_cons. case_decide as Hs; cbn [length].
  - split; [done|]. by intros [? _].
  - rewrite IH. tauto.
Qed.

Lemma NOT_READY_Some (c : Cluster) (i : nat) (statuses : list string) :
  nodes_for_not_ready c i = Some statuses →
  NOT_READY c i = pretty (not_ready_count statuses).
Proof.
  intros E. unfold NOT_READY, validated. rewrite E. cbn [NOT_READY_raw].
  by rewrite is_number_pretty.
Qed.

Lemma NOT_READY_None (c : Cluster) (i : nat) :
  nodes_for_not_ready c i = None → NOT_READY c i = "999".
Proof. intros E. unfold NOT_READY. by rewrite E. Qed.

Lemma TOTAL_Some (c : Cluster) (i : nat) (statuses : list string) :
  nodes_for_total c i = Some statuses → TOTAL c i = pretty (length statuses).
Proof.
  intros E. unfold TOTAL, validated. rewrite E. cbn [TOTAL_raw].
  by rewrite is_number_pretty.
Qed.

Lemma TOTAL_None (c : Cluster) (i : nat) :
  nodes_for_total c i = None → TOTAL c i = "0".
Proof. intros E. unfold TOTAL. by rewrite E. Qed.

Lemma all_ready_nodes_ready (c : Cluster) (i : nat) :
  all_ready c i = true ↔ nodes_ready c i.
Proof.
  unfold all_ready, nodes_ready.
  rewrite andb_true_iff, bool_decide_eq_true, Z.ltb_lt.
  destruct (nodes_for_not_ready c i) as [sts|] eqn:E1.
  2:{ rewrite (NOT_READY_None _ _ E1). split; [by intros [? _]|].
      by intros (? & ? & ? & _). }
  rewrite (NOT_READY_Some _ _ _ E1), pretty_nat_zero, not_ready_count_zero.
  destruct (nodes_for_total c i) as [sts'|] eqn:E2.
  2:{ rewrite (TOTAL_None _ _ E2). split; [intros [_ ?]; by cbn in *|].
      by intros (? & ? & _ & ? & _). }
  rewrite (TOTAL_Some _ _ _ E2), decimal_pretty.
  split.
  - intros [Hall Hlen]. exists sts, sts'. split_and!; try done.
    intros ->. cbn in Hlen. lia.
  - intros (? & ? & [= <-] & [= <-] & Hall & Hne). split; [done|].
    destruct sts'; [done|]. cbn [length]. lia.
Qed.

(** *** The wait loops *)

Lemma nodes_loop_step (c : Cluster) (rest i : nat) :
  ∃ l1 l2,
    nodes_loop c (S rest) i =
      if all_ready c i then
        ([Run "kubectl get nodes --no-headers"; Run "kubectl get nodes --no-headers";
          Echo l1], Script.Next tt)
      else if decide (Z.of_nat i = MAX_RETRIES) then
        ([Run "kubectl get nodes --no-headers"; Run "kubectl get nodes --no-headers";
          Echo l2; Echo "ERROR: Nodes not ready after 600 seconds";
          Run "kubectl get nodes"],
         Script.Exit (if decide (get_nodes c = 0) then 1 else get_nodes c))
      else
        (Run "kubectl get nodes --no-headers" :: Run "kubectl get nodes --no-headers"
           :: Echo l2 :: Sleep RETRY_DELAY :: (nodes_loop c rest (S i)).1,
         (nodes_loop c rest (S i)).2).
Proof.
  eexists _, _. cbn [nodes_loop].
  destruct (all_ready c i); [reflexivity|].
  destruct (decide (Z.of_nat i = MAX_RETRIES)).
  - unfold errexit. destruct (decide (get_nodes c = 0)); reflexivity.
  - destruct (nodes_loop c rest (S i)) as [t r] eqn:E.
    unfold mbind, Sh_bind, bind, run, echo, sleep, mret, Sh_ret, ret.
    cbn. by destruct r.
Qed.

Lemma nodes_loop_spec (c : Cluster) (rest : nat) :
  ∀ i, (1 ≤ rest)%nat → (i + rest = 61)%nat →
  (∃ j, (i ≤ j ≤ 60)%nat ∧ all_ready c j = true
        ∧ (∀ k, (i ≤ k < j)%nat → all_ready c k = false)
        ∧ (nodes_loop c rest i).2 = Script.Next tt
        ∧ slept (nodes_loop c rest i).1 = RETRY_DELAY * Z.of_nat (j - i)
        ∧ runs "kubectl get nodes --no-headers" (nodes_loop c rest i).1
          = (2 * S (j - i))%nat)
  ∨ ((∀ k, (i ≤ k ≤ 60)%nat → all_ready c k = false)
     ∧ (∃ code, (nodes_loop c rest i).2 = Script.Exit code ∧ code ≠ 0)
     ∧ slept (nodes_loop c rest i).1 = RETRY_DELAY * Z.of_nat (60 - i)
     ∧ runs "kubectl get nodes --no-headers" (nodes_loop c rest i).1
       = (2 * (61 - i))%nat
     ∧ last (nodes_loop c rest i).1 = Some (Run "kubectl get nodes")
     ∧ Echo "ERROR: Nodes not ready after 600 seconds" ∈ (nodes_loop c rest i).1).
Proof.
  induction rest as [|rest IH]; intros i Hrest Hi; [lia|].
  destruct (nodes_loop_step c rest i) as (l1 & l2 & ->).
  destruct (all_ready c i) eqn:Hready.
  { left. exists i. replace (i - i)%nat with 0%nat by lia.
    split_and!; try done; try lia. }
  case_decide as Hmax.
  { right. unfold MAX_RETRIES in Hmax. assert (i = 60%nat) as -> by lia.
    split_and!; try done.
    - intros k ?. by assert (k = 60%nat) as -> by lia.
    - eexists. split; [done|]. case_decide; [done|]. done.
    - cbn [fst]. set_solver. }
  unfold MAX_RETRIES in Hmax.
  destruct (IH (S i)) as
    [(j & Hj & Hrj & Hbefore & Hr & Hs & Hn)
    |(Hnever & Hr & Hs & Hn & Hlast & Hecho)]; [lia..| |].
  - left. exists j. split_and!; try done; try lia.
    + intros k Hk. destruct (decide (k = i)) as [->|]; [done|]. apply Hbefore. lia.
    + cbn [fst]. change (slept (?a :: ?b :: ?c :: Sleep ?n :: ?t)) with (n + slept t).
      rewrite Hs. unfold RETRY_DELAY. lia.
    + cbn [fst].
      change (runs ?x (Run ?x :: Run ?x :: Echo ?c :: Sleep ?n :: ?t))
        with (S (S (runs x t))).
      rewrite Hn. lia.
  - right. split_and!; try done.
    + intros k Hk. destruct (decide (k = i)) as [->|]; [done|]. apply Hnever. lia.
    + cbn [fst]. change (slept (?a :: ?b :: ?c :: Sleep ?n :: ?t)) with (n + slept t).
      rewrite Hs. unfold RETRY_DELAY. lia.
    + cbn [fst].
      change (runs ?x (Run ?x :: Run ?x :: Echo ?c :: Sleep ?n :: ?t))
        with (S (S (runs x t))).
      rewrite Hn. lia.
    + cbn [fst]. destruct (nodes_loop c rest (S i)).1 as [|e t]; [done|].
      by rewrite !last_cons_cons.
    + cbn [fst]. rewrite !elem_of_cons. tauto.
Qed.

Lemma wait_for_nodes_eq (c : Cluster) :
  wait_for_nodes c
  = (Echo "Waiting for cluster nodes to be ready..." :: (nodes_loop c 60 1).1,
     (nodes_loop c 60 1).2).
Proof.
  unfold wait_for_nodes. change (Z.to_nat MAX_RETRIES) with 60%nat.
  generalize (nodes_loop c 60 1). intros [t r]. by destruct r.
Qed.

Lemma nodes_wait_cases (c : Cluster) :
  (∃ j, (1 ≤ j ≤ 60)%nat ∧ nodes_ready c j
        ∧ (∀ k, (1 ≤ k < j)%nat → ¬ nodes_ready c k)
        ∧ (wait_for_nodes c).2 = Script.Next tt
        ∧ slept (wait_for_nodes c).1 = RETRY_DELAY * (Z.of_nat j - 1)
        ∧ runs "kubectl get nodes --no-headers" (wait_for_nodes c).1 = (2 * j)%nat)
  ∨ ((∀ k, (1 ≤ k ≤ 60)%nat → ¬ nodes_ready c k)
     ∧ (∃ code, (wait_for_nodes c).2 = Script.Exit code ∧ code ≠ 0)
     ∧ slept (wait_for_nodes c).1 = 590
     ∧ runs "kubectl get nodes --no-headers" (wait_for_nodes c).1 = 120%nat
     ∧ last (wait_for_nodes c).1 = Some (Run "kubectl get nodes")
     ∧ Echo "ERROR: Nodes not ready after 600 seconds" ∈ (wait_for_nodes c).1).
Proof.
  rewrite wait_for_nodes_eq. cbn [fst snd].
  destruct (nodes_loop_spec c 60 1) as
    [(j & Hj & Hrj & Hbefore & Hr & Hs & Hn)
    |(Hnever & Hr & Hs & Hn & Hlast & Hecho)]; [lia..| |].
  - left. exists j. split_and!; try done; try lia.
    + by apply all_ready_nodes_ready.
    + intros k Hk. rewrite <-all_ready_nodes_ready, (Hbefore k Hk). done.
    + change (slept (Echo ?l :: ?t)) with (slept t). rewrite Hs.
      unfold RETRY_DELAY. lia.
    + change (runs ?x (Echo ?l :: ?t)) with (runs x t). rewrite Hn. lia.
  - right. split_and!; try done.
    + intros k Hk. rewrite <-all_ready_nodes_ready, (Hnever k Hk). done.
    + destruct (nodes_loop c 60 1).1; [done|]. by rewrite last_cons_cons.
    + rewrite elem_of_cons. by right.
Qed.

(** X4. The wait for the nodes lets the script go on exactly when one of its
    60 attempts sees every node Ready and at least one node, both reads of
    the nodes having succeeded; otherwise the script exits with a non-zero
    status. *)
Theorem nodes_wait_verdict (c : Cluster) :
  ((wait_for_nodes c).2 = Script.Next tt
   ↔ ∃ j, (1 ≤ j ≤ 60)%nat ∧ nodes_ready c j)
  ∧ ((wait_for_nodes c).2 = Script.Next tt
     ∨ ∃ code, (wait_for_nodes c).2 = Script.Exit code ∧ code ≠ 0).
Proof.
  destruct (nodes_wait_cases c) as
    [(j & Hj & Hrj & _ & Hr & _)|(Hnever & (code & Hr & Hcode) & _)].
  - split; [|by left]. split; [|done]. intros _. by exists j.
  - split; [|right; by exists code]. rewrite Hr. split; [done|].
    intros (j & Hj & Hrj). by destruct (Hnever j Hj).
Qed.

(** X5. When the j-th attempt is the first one to see the nodes ready, the
    script has slept 10 seconds after each earlier attempt and has read the
    nodes twice at each attempt. *)
Theorem nodes_wait_time (c : Cluster) (j : nat) :
  (1 ≤ j ≤ 60)%nat → nodes_ready c j →
  (∀ k, (1 ≤ k < j)%nat → ¬ nodes_ready c k) →
  slept (wait_for_nodes c).1 = RETRY_DELAY * (Z.of_nat j - 1)
  ∧ runs "kubectl get nodes --no-headers" (wait_for_nodes c).1 = (2 * j)%nat.
Proof.
  intros Hj Hrj Hfirst.
  destruct (nodes_wait_cases c) as
    [(j' & Hj' & Hrj' & Hfirst' & _ & Hs & Hn)|(Hnever & _)].
  - assert (j' = j) as ->; [|done].
    destruct (Nat.lt_trichotomy j' j) as [?|[?|?]]; [|done|].
    + destruct (Hfirst j'); [lia|done].
    + destruct (Hfirst' j); [lia|done].
  - by destruct (Hnever j Hj).
Qed.

(** X6. When no attempt sees the nodes ready, the script gives up after 60
    attempts: it has slept 590 seconds (its message says 600), it has read
    the nodes 120 times, and the last thing it does before exiting with a
    non-zero status is to list the nodes. *)
Theorem nodes_wait_gives_up (c : Cluster) :
  (∀ j, (1 ≤ j ≤ 60)%nat → ¬ nodes_ready c j) →
  (∃ code, (wait_for_nodes c).2 = Script.Exit code ∧ code ≠ 0)
  ∧ slept (wait_for_nodes c).1 = 590
  ∧ runs "kubectl get nodes --no-headers" (wait_for_nodes c).1 = 120%nat
  ∧ Echo "ERROR: Nodes not ready after 600 seconds" ∈ (wait_for_nodes c).1
  ∧ last (wait_for_nodes c).1 = Some (Run "kubectl get nodes").
Proof.
  intros Hnever.
  destruct (nodes_wait_cases c) as [(j & Hj & Hrj & _)|(_ & ? & ? & ? & ? & ?)].
  - by destruct (Hnever j Hj).
  - done.
Qed.

Lemma decimal_NOT_READY_nonneg (c : Cluster) (i : nat) : 0 ≤ decimal (NOT_READY c i).
Proof.
  destruct (nodes_for_not_ready c i) as [sts|] eqn:E.
  - rewrite (NOT_READY_Some _ _ _ E), decimal_pretty. lia.
  - by rewrite (NOT_READY_None _ _ E).
Qed.

Lemma decimal_TOTAL_nonneg (c : Cluster) (i : nat) : 0 ≤ decimal (TOTAL c i).
Proof.
  destruct (nodes_for_total c i) as [sts|] eqn:E.
  - rewrite (TOTAL_Some _ _ _ E), decimal_pretty. lia.
  - by rewrite (TOTAL_None _ _ E).
Qed.

Lemma ready_plus_not_ready (statuses : list string) :
  (length (filter (λ s, s = "Ready") statuses) + not_ready_count statuses
   = length statuses)%nat.
Proof.
  unfold not_ready_count. induction statuses as [|s statuses IH]; [done|].
  rewrite !filter_cons. destruct (decide (s = "Ready")) as [->|Hs].
  - rewrite decide_False by (by intros ?). cbn [length]. lia.
  - rewrite decide_True by done. cbn [length]. lia.
Qed.

(** X7. The progress line of the wait for the nodes never shows a negative
    number of ready nodes, nor more ready nodes than nodes. *)
Theorem ready_count_bounds (c : Cluster) (i : nat) :
  0 ≤ READY_COUNT c i ≤ decimal (TOTAL c i).
Proof.
  pose proof (decimal_NOT_READY_nonneg c i) as Hn.
  pose proof (decimal_TOTAL_nonneg c i) as Ht.
  unfold READY_COUNT.
  destruct (Z.ltb_spec (decimal (TOTAL c i) - decimal (NOT_READY c i)) 0); lia.
Qed.

(** X8. When both reads of an attempt see the same nodes, the progress line
    shows the number of nodes whose status is Ready over the number of
    nodes. *)
Theorem ready_count_exact (c : Cluster) (i : nat) (statuses : list string) :
  nodes_for_not_ready c i = Some statuses →
  nodes_for_total c i = Some statuses →
  READY_COUNT c i = Z.of_nat (length (filter (λ s, s = "Ready") statuses))
  ∧ TOTAL c i = pretty (length statuses).
Proof.
  intros E1 E2. unfold READY_COUNT.
  rewrite (NOT_READY_Some _ _ _ E1), (TOTAL_Some _ _ _ E2), !decimal_pretty.
  pose proof (ready_plus_not_ready statuses).
  split; [|done].
  destruct (Z.ltb_spec (Z.of_nat (length statuses)
                        - Z.of_nat (not_ready_count statuses)) 0); lia.
Qed.

Lemma cluster_empty_never_ready (j : nat) : ¬ nodes_ready cluster_empty j.
Proof. intros (sts & sts' & _ & [= <-] & _ & Hne). done. Qed.

Lemma cluster_warming_up_first_ready :
  nodes_ready cluster_warming_up 3
  ∧ ∀ k, (1 ≤ k < 3)%nat → ¬ nodes_ready cluster_warming_up k.
Proof.
  split.
  - exists ["Ready"; "Ready"], ["Ready"; "Ready"].
    split_and!; try done. by repeat constructor.
  - intros k Hk (sts & sts' & E1 & _ & Hall & _).
    assert (k = 1 ∨ k = 2)%nat as [->| ->] by lia; [done|].
    injection E1 as <-. by inversion Hall as [|? ? _ Hall']; inversion Hall'.
Qed.

(** X5 at the cluster that warms up: ready at the third attempt, after 20
    seconds and 6 reads. *)
Lemma nodes_wait_time_witness :
  slept (wait_for_nodes cluster_warming_up).1 = 20
  ∧ runs "kubectl get nodes --no-headers" (wait_for_nodes cluster_warming_up).1 = 6%nat.
Proof.
  apply (nodes_wait_time cluster_warming_up 3).
  - lia.
  - apply cluster_warming_up_first_ready.
  - apply cluster_warming_up_first_ready.
Defined.

(** X6 at the cluster without nodes. *)
Lemma nodes_wait_gives_up_witness :
  (∃ code, (wait_for_nodes cluster_empty).2 = Script.Exit code ∧ code ≠ 0)
  ∧ slept (wait_for_nodes cluster_empty).1 = 590
  ∧ runs "kubectl get nodes --no-headers" (wait_for_nodes cluster_empty).1 = 120%nat
  ∧ Echo "ERROR: Nodes not ready after 600 seconds" ∈ (wait_for_nodes cluster_empty).1
  ∧ last (wait_for_nodes cluster_empty).1 = Some (Run "kubectl get nodes").
Proof.
  apply (nodes_wait_gives_up cluster_empty).
  intros j _. apply cluster_empty_never_ready.
Defined.

(** X8 at the second attempt of the cluster that warms up: 1/2 ready. *)
Lemma ready_count_exact_witness :
  READY_COUNT cluster_warming_up 2 = 1 ∧ TOTAL cluster_warming_up 2 = "2".
Proof.
  apply (ready_count_exact cluster_warming_up 2 ["Ready"; "NotReady"]); reflexivity.
Defined.

(** *** The wait for the operator lifecycle manager *)

Lemma olm_loop_step (c : Cluster) (rest i : nat) :
  ∃ l,
    olm_loop c (S rest) i =
      if olm_api c i then
        ([Run "kubectl api-resources"; Echo "OLM Subscription API is available"],
         Script.Next tt)
      else if decide (Z.of_nat i = MAX_RETRIES) then
        (Run "kubectl api-resources" :: Echo l
           :: Echo "WARNING: OLM not available after 600 seconds"
           :: Echo "Continuing anyway - some operators may not install correctly"
           :: Sleep RETRY_DELAY :: (olm_loop c rest (S i)).1,
         (olm_loop c rest (S i)).2)
      else
        (Run "kubectl api-resources" :: Echo l :: Sleep RETRY_DELAY
           :: (olm_loop c rest (S i)).1,
         (olm_loop c rest (S i)).2).
Proof.
  eexists. cbn [olm_loop].
  destruct (olm_api c i); [reflexivity|].
  destruct (decide (Z.of_nat i = MAX_RETRIES));
    destruct (olm_loop c rest (S i)) as [t r] eqn:E;
    unfold mbind, Sh_bind, bind, run, echo, sleep, mret, Sh_ret, ret;
    cbn; by destruct r.
Qed.

Lemma olm_loop_spec (c : Cluster) (rest : nat) :
  ∀ i, (i + rest = 61)%nat →
  (olm_loop c rest i).2 = Script.Next tt
  ∧ ((∃ j, (i ≤ j ≤ 60)%nat ∧ olm_api c j = true
           ∧ (∀ k, (i ≤ k < j)%nat → olm_api c k = false)
           ∧ slept (olm_loop c rest i).1 = RETRY_DELAY * Z.of_nat (j - i)
           ∧ runs "kubectl api-resources" (olm_loop c rest i).1 = S (j - i))
     ∨ ((∀ k, (i ≤ k ≤ 60)%nat → olm_api c k = false)
        ∧ slept (olm_loop c rest i).1 = RETRY_DELAY * Z.of_nat (61 - i)
        ∧ runs "kubectl api-resources" (olm_loop c rest i).1 = (61 - i)%nat
        ∧ ((1 ≤ rest)%nat →
           Echo "WARNING: OLM not available after 600 seconds"
             ∈ (olm_loop c rest i).1))).
Proof.
  induction rest as [|rest IH]; intros i Hi.
  { split; [done|]. right. replace (61 - i)%nat with 0%nat by lia.
    split_and!; try done; try lia. }
  destruct (olm_loop_step c rest i) as (l & ->).
  destruct (olm_api c i) eqn:Hready.
  { split; [done|]. left. exists i. replace (i - i)%nat with 0%nat by lia.
    split_and!; try done; try lia. }
  destruct (IH (S i)) as [Hr Hcases]; [lia|].
  assert (∀ t, slept (olm_loop c rest (S i)).1 = RETRY_DELAY * Z.of_nat t →
               RETRY_DELAY + slept (olm_loop c rest (S i)).1
               = RETRY_DELAY * Z.of_nat (S t)) as Hslept.
  { intros t ->. unfold RETRY_DELAY. lia. }
  case_decide as Hmax; (split; [done|]); cbn [fst].
  - unfold MAX_RETRIES in Hmax. assert (i = 60%nat) as -> by lia.
    right. destruct Hcases as [(j & ? & _)|(_ & Hs & Hn & _)]; [lia|].
    split_and!.
    + intros k ?. by assert (k = 60%nat) as -> by lia.
    + change (slept (?a :: ?b :: ?c :: ?d :: Sleep ?n :: ?t)) with (n + slept t).
      by rewrite (Hslept _ Hs).
    + change (runs ?x (Run ?x :: ?b :: ?c :: ?d :: Sleep ?n :: ?t)) with (S (runs x t)).
      by rewrite Hn.
    + intros _. rewrite !elem_of_cons. tauto.
  - unfold MAX_RETRIES in Hmax.
    change (slept (?a :: ?b :: Sleep ?n :: ?t)) with (n + slept t).
    change (runs ?x (Run ?x :: ?b :: Sleep ?n :: ?t)) with (S (runs x t)).
    destruct Hcases as [(j & Hj & Hrj & Hbefore & Hs & Hn)|(Hnever & Hs & Hn & Hecho)].
    + left. exists j. split_and!; try done; try lia.
      * intros k Hk. destruct (decide (k = i)) as [->|]; [done|]. apply Hbefore. lia.
      * rewrite (Hslept _ Hs). f_equal. lia.
    + right. split_and!.
      * intros k Hk. destruct (decide (k = i)) as [->|]; [done|]. apply Hnever. lia.
      * rewrite (Hslept _ Hs). f_equal. lia.
      * rewrite Hn. lia.
      * intros _. rewrite !elem_of_cons. right; right; right. apply Hecho. lia.
Qed.

Lemma wait_for_olm_eq (c : Cluster) :
  wait_for_olm c
  = (Echo "Waiting for OLM to be available..." :: (olm_loop c 60 1).1,
     (olm_loop c 60 1).2).
Proof.
  unfold wait_for_olm. change (Z.to_nat MAX_RETRIES) with 60%nat.
  generalize (olm_loop c 60 1). intros [t r]. by destruct r.
Qed.

(** X9. The wait for the operator lifecycle manager never ends the script:
    it goes on as soon as an attempt finds the Subscription API, after 10
    seconds for each earlier attempt, and otherwise after 60 attempts and
    600 seconds of sleep, with a warning. *)
Theorem olm_wait_never_fails (c : Cluster) :
  (wait_for_olm c).2 = Script.Next tt
  ∧ ((∃ j, (1 ≤ j ≤ 60)%nat ∧ olm_api c j = true
           ∧ (∀ k, (1 ≤ k < j)%nat → olm_api c k = false)
           ∧ slept (wait_for_olm c).1 = RETRY_DELAY * (Z.of_nat j - 1)
           ∧ runs "kubectl api-resources" (wait_for_olm c).1 = j)
     ∨ ((∀ k, (1 ≤ k ≤ 60)%nat → olm_api c k = false)
        ∧ slept (wait_for_olm c).1 = 600
        ∧ runs "kubectl api-resources" (wait_for_olm c).1 = 60%nat
        ∧ Echo "WARNING: OLM not available after 600 seconds" ∈ (wait_for_olm c).1)).
Proof.
  rewrite wait_for_olm_eq. cbn [fst snd].
  change (slept (Echo ?l :: ?t)) with (slept t).
  change (runs ?x (Echo ?l :: ?t)) with (runs x t).
  destruct (olm_loop_spec c 60 1) as [Hr Hcases]; [lia|]. split; [done|].
  destruct Hcases as [(j & Hj & Hrj & Hbefore & Hs & Hn)|(Hnever & Hs & Hn & Hecho)].
  - left. exists j. split_and!; try done; try lia.
    rewrite Hs. unfold RETRY_DELAY. lia.
  - right. split_and!; try done. rewrite elem_of_cons. right. apply Hecho. lia.
Qed.

(** *** The wait for the OpenShift build *)

Lemma build_loop_step (c : Cluster) (rest i : nat) (PHASE : string) :
  build_loop c (S rest) i PHASE =
    if decide (phase_read c i = "Complete") then
      ([Run "oc get build"; Echo "OpenShift build completed"],
       Script.Next (phase_read c i))
    else if phase_failed (phase_read c i) then
      ([Run "oc get build";
        Echo ("ERROR: ui-oauth-secret build failed with phase: " +:+ phase_read c i);
        Run "oc logs"], Script.Exit 1)
    else
      (Run "oc get build" :: Sleep 5 :: (build_loop c rest (S i) (phase_read c i)).1,
       (build_loop c rest (S i) (phase_read c i)).2).
Proof.
  cbn [build_loop].
  destruct (decide (phase_read c i = "Complete")); [reflexivity|].
  destruct (phase_failed (phase_read c i)); [reflexivity|].
  destruct (build_loop c rest (S i) (phase_read c i)) as [t r] eqn:E.
  unfold mbind, Sh_bind, bind, run, echo, sleep, mret, Sh_ret, ret.
  cbn. by destruct r.
Qed.

Lemma build_loop_spec (c : Cluster) (rest : nat) :
  ∀ i PHASE, (i + rest = 121)%nat → PHASE ≠ "Complete" →
  (∃ j, (i ≤ j ≤ 120)%nat ∧ phase_read c j = "Complete"
        ∧ (∀ k, (i ≤ k < j)%nat → build_going c k)
        ∧ (build_loop c rest i PHASE).2 = Script.Next "Complete"
        ∧ slept (build_loop c rest i PHASE).1 = 5 * Z.of_nat (j - i)
        ∧ runs "oc get build" (build_loop c rest i PHASE).1 = S (j - i))
  ∨ (∃ j, (i ≤ j ≤ 120)%nat ∧ phase_failed (phase_read c j) = true
          ∧ (∀ k, (i ≤ k < j)%nat → build_going c k)
          ∧ (build_loop c rest i PHASE).2 = Script.Exit 1
          ∧ slept (build_loop c rest i PHASE).1 = 5 * Z.of_nat (j - i)
          ∧ runs "oc get build" (build_loop c rest i PHASE).1 = S (j - i))
  ∨ ((∀ k, (i ≤ k ≤ 120)%nat → build_going c k)
     ∧ (∃ PHASE', (build_loop c rest i PHASE).2 = Script.Next PHASE'
                  ∧ PHASE' ≠ "Complete")
     ∧ slept (build_loop c rest i PHASE).1 = 5 * Z.of_nat (121 - i)
     ∧ runs "oc get build" (build_loop c rest i PHASE).1 = (121 - i)%nat).
Proof.
  induction rest as [|rest IH]; intros i PHASE Hi HPHASE.
  { right; right. replace (121 - i)%nat with 0%nat by lia.
    split_and!; try done; [intros k ?; lia|by exists PHASE]. }
  rewrite build_loop_step.
  case_decide as Hcomplete.
  { left. exists i. replace (i - i)%nat with 0%nat by lia. rewrite Hcomplete.
    split_and!; try done; try lia. }
  destruct (phase_failed (phase_read c i)) eqn:Hfailed.
  { right; left. exists i. replace (i - i)%nat with 0%nat by lia.
    split_and!; try done; try lia. }
  cbn [fst snd].
  change (slept (?a :: Sleep ?n :: ?t)) with (n + slept t).
  change (runs ?x (Run ?x :: Sleep ?n :: ?t)) with (S (runs x t)).
  assert (build_going c i) as Hgoing by done.
  destruct (IH (S i) (phase_read c i)) as
    [(j & Hj & Hrj & Hbefore & Hr & Hs & Hn)
    |[(j & Hj & Hrj & Hbefore & Hr & Hs & Hn)
     |(Hnever & Hr & Hs & Hn)]]; [lia|done| | |].
  - left. exists j. split_and!; try done; try lia.
    intros k Hk. destruct (decide (k = i)) as [->|]; [done|]. apply Hbefore. lia.
  - right; left. exists j. split_and!; try done; try lia.
    intros k Hk. destruct (decide (k = i)) as [->|]; [done|]. apply Hbefore. lia.
  - right; right. split_and!; try done; try lia.
    intros k Hk. destruct (decide (k = i)) as [->|]; [done|]. apply Hnever. lia.
Qed.

Lemma loop_slept_app (t1 t2 : list event) : slept (t1 ++ t2) = slept t1 + slept t2.
Proof.
  induction t1 as [|e t1 IH]; [done|].
  change (slept ((e :: t1) ++ t2))
    with (match e with Sleep n => n + slept (t1 ++ t2) | _ => slept (t1 ++ t2) end).
  change (slept (e :: t1)) with (match e with Sleep n => n + slept t1 | _ => slept t1 end).
  rewrite IH. destruct e; lia.
Qed.

Lemma loop_runs_app (x : string) (t1 t2 : list event) :
  runs x (t1 ++ t2) = (runs x t1 + runs x t2)%nat.
Proof.
  induction t1 as [|e t1 IH]; [done|].
  change (runs x ((e :: t1) ++ t2))
    with (match e with
          | Run cmd => if decide (cmd = x) then S (runs x (t1 ++ t2)) else runs x (t1 ++ t2)
          | _ => runs x (t1 ++ t2)
          end).
  change (runs x (e :: t1))
    with (match e with
          | Run cmd => if decide (cmd = x) then S (runs x t1) else runs x t1
          | _ => runs x t1
          end).
  rewrite IH. destruct e; try done. by case_decide.
Qed.

Lemma wait_for_build_eq (c : Cluster) :
  wait_for_build c =
    match build_loop c 120 1 "Unknown" with
    | (t, Script.Next PHASE) =>
        if decide (PHASE ≠ "Complete") then
          (t ++ [Echo ("ERROR: ui-oauth-secret build timed out after 600s (phase: "
                       +:+ PHASE +:+ ")");
                 Run "oc logs"], Script.Exit 1)
        else (t ++ [], Script.Next tt)
    | (t, Script.Exit code) => (t, Script.Exit code)
    | (t, Script.OutOfFuel) => (t, Script.OutOfFuel)
    end.
Proof.
  unfold wait_for_build. destruct (build_loop c 120 1 "Unknown") as [t [PHASE|code|]];
    try reflexivity.
  unfold mbind, Sh_bind, bind. by case_decide.
Qed.

Lemma wait_for_build_cases (c : Cluster) :
  (∃ j, (1 ≤ j ≤ 120)%nat ∧ phase_read c j = "Complete"
        ∧ (∀ k, (1 ≤ k < j)%nat → build_going c k)
        ∧ (wait_for_build c).2 = Script.Next tt
        ∧ slept (wait_for_build c).1 = 5 * (Z.of_nat j - 1)
        ∧ runs "oc get build" (wait_for_build c).1 = j)
  ∨ (∃ j, (1 ≤ j ≤ 120)%nat ∧ phase_failed (phase_read c j) = true
          ∧ (∀ k, (1 ≤ k < j)%nat → build_going c k)
          ∧ (wait_for_build c).2 = Script.Exit 1
          ∧ slept (wait_for_build c).1 = 5 * (Z.of_nat j - 1)
          ∧ runs "oc get build" (wait_for_build c).1 = j)
  ∨ ((∀ k, (1 ≤ k ≤ 120)%nat → build_going c k)
     ∧ (wait_for_build c).2 = Script.Exit 1
     ∧ slept (wait_for_build c).1 = 600
     ∧ runs "oc get build" (wait_for_build c).1 = 120%nat).
Proof.
  rewrite wait_for_build_eq.
  destruct (build_loop_spec c 120 1 "Unknown") as
    [(j & Hj & Hrj & Hbefore & Hr & Hs & Hn)
    |[(j & Hj & Hrj & Hbefore & Hr & Hs & Hn)
     |(Hnever & (PHASE' & Hr & HPHASE') & Hs & Hn)]]; [lia|done|..];
    destruct (build_loop c 120 1 "Unknown") as [t r]; cbn [fst snd] in *; subst r.
  - left. exists j. rewrite decide_False by (by intros ?). cbn [fst snd].
    rewrite app_nil_r. split_and!; try done; lia.
  - right; left. exists j. cbn [fst snd]. split_and!; try done; lia.
  - right; right. rewrite decide_True by done. cbn [fst snd].
    rewrite loop_slept_app, loop_runs_app, Hs, Hn. split_and!; done.
Qed.

(** X10. The wait for the OpenShift build lets the script go on exactly when
    one of its 120 reads of the build's phase gives Complete and no earlier
    read gives Failed, Error or Cancelled; otherwise the script exits with
    status 1. A read that fails counts as a build still going on. The wait
    sleeps 600 seconds at most. *)
Theorem build_wait_verdict (c : Cluster) :
  ((wait_for_build c).2 = Script.Next tt
   ↔ ∃ j, (1 ≤ j ≤ 120)%nat ∧ phase_read c j = "Complete"
          ∧ ∀ k, (1 ≤ k < j)%nat → phase_failed (phase_read c k) = false)
  ∧ ((wait_for_build c).2 = Script.Next tt ∨ (wait_for_build c).2 = Script.Exit 1)
  ∧ 0 ≤ slept (wait_for_build c).1 ≤ 600.
Proof.
  destruct (wait_for_build_cases c) as
    [(j & Hj & Hrj & Hbefore & Hr & Hs & Hn)
    |[(j & Hj & Hrj & Hbefore & Hr & Hs & Hn)
     |(Hnever & Hr & Hs & Hn)]]; rewrite Hr, Hs;
    (split; [|split; [|lia]]).
  - split; [|done]. intros _. exists j.
    split; [done|]. split; [done|]. intros k Hk. by destruct (Hbefore k Hk).
  - by left.
  - split; [done|].
    intros (j' & Hj' & Hrj' & Hbefore').
    destruct (Nat.lt_trichotomy j' j) as [Hlt|[->|Hlt]].
    + destruct (Hbefore j') as [? _]; [lia|done].
    + by rewrite Hrj' in Hrj.
    + rewrite Hbefore' in Hrj by lia. done.
  - by right.
  - split; [done|].
    intros (j & Hj & Hrj & _). by destruct (Hnever j Hj).
  - by right.
Qed.

End DeployKagentiProperties.

(** ** The import page: names, registry, environment variables *)

Section ImportAgentHandlersProperties.
Import Js ImportAgentPage ImportAgentHandlers.

Lemma change_keeps_name (st : State) (c : Change) :
  name st ≠ "" → name (change st c) = name st.
Proof.
  intros Hname. apply truthy_true in Hname.
  destruct c as [v|v|v]; cbn [change];
    unfold handleExampleChange, handlePathChange, handleImageChange;
    cbn [name set_selectedExample set_gitPath set_containerImage];
    rewrite Hname; cbn [negb]; rewrite ?andb_false_r; by destruct (truthy v).
Qed.

(** X11. Once the form has a name, typed or derived, no change of the example,
    of the source path or of the image changes it: a derived name is never
    derived again. *)
Theorem auto_name_sticks (st : State) (cs : list Change) :
  name st ≠ "" → name (changes cs st) = name st.
Proof.
  revert st. induction cs as [|c cs IH]; intros st Hname; [done|].
  unfold changes in *. cbn [foldl].
  rewrite IH; rewrite change_keeps_name; done.
Qed.

(** X11 on the form whose path was typed one key at a time: the name is the
    one derived at the first key. *)
Lemma auto_name_sticks_witness :
  name form_typed = name (handlePathChange "a" initial)
  ∧ name (handlePathChange "a" initial) = "a".
Proof.
  split.
  - apply auto_name_sticks. vm_compute. discriminate.
  - vm_compute. reflexivity.
Defined.

(** *** The characters of a derived name *)

Lemma split_parts (q : ascii → bool) (sep : ascii) (s : string) :
  all_chars q s = true → Forall (λ p, all_chars q p = true) (split sep s).
Proof.
  induction s as [|c s IH]; cbn [all_chars split]; [by repeat constructor|].
  intros [Hc Hs]%andb_true_iff. specialize (IH Hs).
  case_decide; [by constructor|].
  destruct (split sep s) as [|h t]; [by repeat constructor; cbn; rewrite Hc|].
  inversion IH; subst. constructor; [|done]. cbn. by rewrite Hc.
Qed.

Lemma split_parts_no_sep (sep : ascii) (s : string) :
  Forall (λ p, all_chars (λ c, negb (bool_decide (c = sep))) p = true) (split sep s).
Proof.
  induction s as [|c s IH]; cbn [split]; [by repeat constructor|].
  case_decide as Hc; [by constructor|].
  destruct (split sep s) as [|h t];
    [by repeat constructor; cbn; rewrite bool_decide_eq_false_2|].
  inversion IH; subst. constructor; [|done]. cbn.
  by rewrite bool_decide_eq_false_2.
Qed.

Lemma last_part_Forall (P : string → Prop) (parts : list string) :
  P "" → Forall P parts → P (last_part parts).
Proof.
  intros Hempty Hall. unfold last_part.
  destruct (last parts) as [p|] eqn:E; [|done].
  apply last_Some_elem_of in E. by eapply Forall_forall in Hall.
Qed.

Lemma first_part_Forall (P : string → Prop) (parts : list string) :
  P "" → Forall P parts → P (first_part parts).
Proof. intros Hempty Hall. unfold first_part. by destruct Hall. Qed.

Lemma all_chars_map_chars (q : ascii → bool) (f : ascii → ascii) (s : string) :
  all_chars q (map_chars f s) = all_chars (λ c, q (f c)) s.
Proof. induction s as [|c s IH]; [done|]. cbn. by rewrite IH. Qed.

Lemma all_chars_impl (q r : ascii → bool) (s : string) :
  (∀ c, q c = true → r c = true) → all_chars q s = true → all_chars r s = true.
Proof.
  intros Himpl. induction s as [|c s IH]; [done|]. cbn.
  intros [Hc Hs]%andb_true_iff. by rewrite (Himpl _ Hc), IH.
Qed.

Lemma derived_char_lower (c : ascii) :
  negb (bool_decide (c = "/"%char)) = true →
  derived_char (lower_char (if decide (c = "_"%char) then "-"%char else c)) = true.
Proof.
  destruct c as [[] [] [] [] [] [] [] []]; intros H; vm_compute in H |- *;
    done.
Qed.

Lemma derived_chars (x : string) :
  all_chars (λ c, negb (bool_decide (c = "/"%char))) x = true →
  all_chars derived_char (toLowerCase (replace_underscores x)) = true.
Proof.
  intros Hx. unfold toLowerCase, replace_underscores.
  rewrite !all_chars_map_chars.
  eapply all_chars_impl; [|done]. apply derived_char_lower.
Qed.

(** X12. The name derived from the source path, the example or the image
    never holds a slash, an underscore or an upper-case letter; derived from
    an image it holds no colon either. *)
Theorem derived_name_chars (st : State) :
  all_chars derived_char (getNameFromPath st) = true
  ∧ (deploymentMethod st = image →
     all_chars (λ c, negb (bool_decide (c = ":"%char))) (getNameFromPath st) = true).
Proof.
  unfold getNameFromPath. case_decide as Hm.
  - split.
    + apply derived_chars.
      apply (first_part_Forall (λ p, all_chars _ p = true)); [done|].
      apply split_parts.
      apply (last_part_Forall (λ p, all_chars _ p = true)); [done|].
      apply split_parts_no_sep.
    + intros _. unfold toLowerCase, replace_underscores.
      rewrite !all_chars_map_chars.
      eapply all_chars_impl;
        [|apply (first_part_Forall (λ p, all_chars _ p = true));
          [done|apply (split_parts_no_sep ":")]].
      intros [[] [] [] [] [] [] [] []] H; vm_compute in H |- *; done.
  - split; [|by intros ?].
    destruct (truthy (or_else (gitPath st) (selectedExample st))); [|done].
    cbn [negb]. apply derived_chars.
    apply (last_part_Forall (λ p, all_chars _ p = true)); [done|].
    apply split_parts_no_sep.
Qed.

(** X12 on the form set to deploy the image quay.io/Kagenti/Weather_Tool:v1. *)
Lemma derived_name_chars_witness :
  getNameFromPath form_image = "weather-tool"
  ∧ all_chars (λ c, negb (bool_decide (c = ":"%char))) (getNameFromPath form_image) = true.
Proof.
  split; [vm_compute; reflexivity|].
  apply (proj2 (derived_name_chars form_image)). vm_compute. reflexivity.
Defined.

Lemma handleSubmit_source (st st' : State) (req : CreateRequest) :
  handleSubmit st = (st', [req]) → deploymentMethod st = source →
  (validateForm st).2 = true
  ∧ cr_registryUrl req = Some (getRegistryUrl st)
  ∧ cr_registrySecret req
    = (if decide (registryType st ≠ "local") then Some (registrySecret st) else None)
  ∧ cr_envVars req = List.filter env_filled (envVars st).
Proof.
  unfold handleSubmit. destruct (validateForm st) as [marks valid].
  destruct valid; cbn [negb snd]; [|by intros [= ]].
  intros Hsubmit Hm. rewrite decide_True in Hsubmit by done.
  by injection Hsubmit as <- <-.
Qed.

Lemma validateForm_registry (st : State) :
  (validateForm st).2 = true → deploymentMethod st = source →
  registryType st ≠ "local" → registryNamespace st ≠ "".
Proof.
  intros Hvalid Hm Hext Hns. unfold validateForm in Hvalid.
  rewrite Hns, (bool_decide_eq_true_2 _ Hext) in Hvalid. cbn [truthy negb andb] in Hvalid.
  destruct (decide (deploymentMethod st = source)); [|done].
  repeat (case_match; simplify_eq/=).
Qed.

(** X13. A request to build from source names the registry to push to: with
    the in-cluster registry, its URL and no secret; with one of the external
    registries, the URL of the registry followed by a slash and the registry
    namespace, which is not empty, and the registry secret of the form. *)
Theorem submitted_registry (st st' : State) (req : CreateRequest) :
  handleSubmit st = (st', [req]) → deploymentMethod st = source →
  (registryType st = "local" →
     cr_registryUrl req = Some "registry.cr-system.svc.cluster.local:5000"
     ∧ cr_registrySecret req = None)
  ∧ (∀ registry, registry ∈ REGISTRY_OPTIONS → ro_value registry = registryType st →
       registryType st ≠ "local" →
       registryNamespace st ≠ ""
       ∧ cr_registryUrl req = Some (ro_url registry +:+ "/" +:+ registryNamespace st)
       ∧ cr_registrySecret req = Some (registrySecret st)).
Proof.
  intros Hsubmit Hm.
  destruct (handleSubmit_source _ _ _ Hsubmit Hm) as (Hvalid & -> & -> & _).
  split.
  - intros Hlocal. unfold getRegistryUrl. rewrite Hlocal. done.
  - intros registry Hin Hvalue Hext.
    pose proof (validateForm_registry st Hvalid Hm Hext) as Hns.
    split; [done|]. rewrite decide_True by done. split; [|done].
    unfold getRegistryUrl. rewrite <-Hvalue in *.
    unfold REGISTRY_OPTIONS in Hin. rewrite !elem_of_cons, elem_of_nil in Hin.
    destruct Hin as [->|[->|[->|[->|[]]]]]; cbn in Hext |- *; try done;
      by rewrite (proj2 (truthy_true _) Hns).
Qed.

Lemma form_quay_submitted :
  ∃ st' req, handleSubmit form_quay = (st', [req]).
Proof. eexists _, _. vm_compute. reflexivity. Defined.

(** X13 on the form that pushes to Quay under the organisation kagenti. *)
Lemma submitted_registry_witness :
  ∃ st' req, handleSubmit form_quay = (st', [req])
    ∧ cr_registryUrl req = Some "quay.io/kagenti"
    ∧ cr_registrySecret req = Some "quay-registry-secret".
Proof.
  destruct form_quay_submitted as (st' & req & E).
  exists st', req. split; [exact E|].
  apply (proj2 (submitted_registry form_quay st' req E eq_refl)
           {| ro_value := "quay"; ro_label := "Quay.io"; ro_url := "quay.io" |}).
  - apply (list_elem_of_lookup_2 _ 1). reflexivity.
  - reflexivity.
  - discriminate.
Defined.

(** *** Environment variables *)

Lemma filter_from_index {A} (array : list A) :
  ∀ k t : nat,
    imap (λ i x, ((k + i)%nat, x)) array
      ≫= (λ '(i, x), if decide (i ≠ t) then [x] else [])
    = if decide (t < k)%nat then array else delete (t - k)%nat array.
Proof.
  induction array as [|x array IH]; intros k t; [by case_decide|].
  cbn [imap]. rewrite bind_cons.
  rewrite (imap_ext _ (λ i x, ((S k + i)%nat, x)) array)
    by (intros i y _; cbn; f_equal; lia).
  rewrite (IH (S k) t).
  destruct (decide (t < k)%nat) as [Hlt|Hge].
  - rewrite decide_True by lia. by rewrite decide_True by lia.
  - destruct (decide (t = k)) as [->|Hne].
    + rewrite decide_False by lia. rewrite decide_True by lia.
      by replace (k - k)%nat with 0%nat by lia.
    + rewrite decide_True by lia. rewrite decide_False by lia.
      replace (t - k)%nat with (S (t - S k)) by lia. done.
Qed.

Lemma filter_other_index_delete {A} (index : nat) (array : list A) :
  filter_other_index index array = delete index array.
Proof.
  unfold filter_other_index.
  rewrite (imap_ext _ (λ i x, ((0 + i)%nat, x)) array) by done.
  rewrite filter_from_index, decide_False by lia.
  by replace (index - 0)%nat with index by lia.
Qed.

(** X14. Removing an environment variable or a service port takes out the
    entry at the given index and keeps the others in their order; an index
    past the end changes nothing; and removing the entry that was just added
    gives the list back. *)
Theorem remove_at_index (index : nat) (st : State) :
  envVars (removeEnvVar index st) = take index (envVars st) ++ drop (S index) (envVars st)
  ∧ servicePorts (removeServicePort index st)
    = take index (servicePorts st) ++ drop (S index) (servicePorts st)
  ∧ envVars (removeEnvVar (length (envVars st)) (addEnvVar st)) = envVars st
  ∧ servicePorts (removeServicePort (length (servicePorts st)) (addServicePort st))
    = servicePorts st.
Proof.
  unfold removeEnvVar, removeServicePort, addEnvVar, addServicePort.
  cbn [envVars servicePorts set_envVars set_servicePorts].
  rewrite !filter_other_index_delete, !delete_take_drop.
  rewrite !take_app_length, !drop_app_ge by lia.
  rewrite !Nat.sub_succ_l, !Nat.sub_diag by lia. cbn [drop].
  by rewrite !app_nil_r.
Qed.

Lemma handleSubmit_envVars (st st2 : State) (req : CreateRequest) :
  handleSubmit st = (st2, [req]) →
  cr_envVars req = List.filter env_filled (envVars st).
Proof.
  unfold handleSubmit. destruct (validateForm st) as [marks valid].
  destruct valid; cbn [negb]; [|by intros [= ]].
  case_decide; by intros [= <- <-].
Qed.

(** X15. Changing the type of an environment variable keeps its name and the
    other variables, and gives an entry of the type asked for
    ([getEnvVarType] reads it back), with an empty value or an empty
    reference; on an index past the end the handler throws. *)
Theorem env_type_round_trip (index : nat) (type : EnvVarType) (st : State) :
  match handleEnvVarTypeChange index type st with
  | Some st2 =>
      ∃ ev ev2, envVars st !! index = Some ev ∧ envVars st2 !! index = Some ev2
        ∧ getEnvVarType ev2 = type ∧ ev_name ev2 = ev_name ev
        ∧ env_filled ev2 = bool_decide (type ≠ value) && truthy (ev_name ev)
        ∧ length (envVars st2) = length (envVars st)
        ∧ ∀ j, j ≠ index → envVars st2 !! j = envVars st !! j
  | None => (length (envVars st) ≤ index)%nat
  end.
Proof.
  unfold handleEnvVarTypeChange.
  destruct (envVars st !! index) as [ev|] eqn:E.
  - apply lookup_lt_Some in E as Hlt.
    eexists ev, _. cbn [envVars set_envVars].
    rewrite list_lookup_insert_eq by done.
    split_and!; try done.
    + by destruct type.
    + by destruct type.
    + unfold env_filled.
      destruct type; cbn [ev_name ev_value ev_valueFrom];
        destruct (truthy (ev_name ev)); by vm_compute.
    + by rewrite length_insert.
    + intros j Hj. by rewrite list_lookup_insert_ne.
  - by apply lookup_ge_None in E.
Qed.

(** X16. A variable that has a name and has just been turned into a secret
    or a config map reference is sent with the request as it is, its
    reference empty: the form does not ask for the reference to be filled. *)
Theorem unfilled_reference_submitted
    (index : nat) (type : EnvVarType) (st st2 st3 : State) (ev : EnvVar)
    (req : CreateRequest) :
  envVars st !! index = Some ev → ev_name ev ≠ "" → type ≠ value →
  handleEnvVarTypeChange index type st = Some st2 →
  handleSubmit st2 = (st3, [req]) →
  ∃ ev2, ev2 ∈ cr_envVars req ∧ ev_name ev2 = ev_name ev ∧ ev_value ev2 = None
    ∧ (ev_valueFrom ev2 ≫= secretKeyRef
       = if decide (type = secret) then Some {| ref_name := ""; ref_key := "" |} else None)
    ∧ (ev_valueFrom ev2 ≫= configMapKeyRef
       = if decide (type = configMap) then Some {| ref_name := ""; ref_key := "" |}
         else None).
Proof.
  intros E Hname Htype Hchange Hsubmit.
  rewrite (handleSubmit_envVars _ _ _ Hsubmit).
  unfold handleEnvVarTypeChange in Hchange. rewrite E in Hchange.
  injection Hchange as <-. cbn [envVars set_envVars]. clear Hsubmit.
  apply lookup_lt_Some in E as Hlt.
  destruct type; [done|..];
    (eexists; split;
     [apply list_elem_of_In, filter_In;
      split; [by eapply list_elem_of_In, list_elem_of_lookup_2, list_lookup_insert_eq|];
      unfold env_filled; cbn [ev_name ev_value ev_valueFrom];
      by rewrite (proj2 (truthy_true _) Hname)
     |done]).
Qed.

Lemma form_with_var_submitted :
  ∃ st2 st3 req,
    handleEnvVarTypeChange 0 secret form_with_var = Some st2
    ∧ handleSubmit st2 = (st3, [req]).
Proof. eexists _, _, _. split; vm_compute; reflexivity. Defined.

(** X16 on the form with the variable API_KEY, turned into a secret
    reference and submitted at once. *)
Lemma unfilled_reference_submitted_witness :
  ∃ st2 st3 req,
    handleEnvVarTypeChange 0 secret form_with_var = Some st2
    ∧ handleSubmit st2 = (st3, [req])
    ∧ ∃ ev2, ev2 ∈ cr_envVars req ∧ ev_name ev2 = "API_KEY" ∧ ev_value ev2 = None
        ∧ ev_valueFrom ev2 ≫= secretKeyRef = Some {| ref_name := ""; ref_key := "" |}
        ∧ ev_valueFrom ev2 ≫= configMapKeyRef = None.
Proof.
  destruct form_with_var_submitted as (st2 & st3 & req & E1 & E2).
  exists st2, st3, req. split; [exact E1|]. split; [exact E2|].
  apply (unfilled_reference_submitted 0 secret form_with_var st2 st3
           {| ev_name := "API_KEY"; ev_value := Some ""; ev_valueFrom := None |} req).
  - reflexivity.
  - discriminate.
  - discriminate.
  - exact E1.
  - exact E2.
Defined.

Lemma span_app (p : ascii → bool) (a rest : string) :
  all_chars p a = true →
  (rest = "" ∨ ∃ c r, rest = String c r ∧ p c = false) →
  span p (a +:+ rest) = (a, rest).
Proof.
  intros Ha Hrest. induction a as [|c a IH].
  - rewrite append_nil_l. destruct Hrest as [->|(c & r & -> & Hc)]; [done|].
    cbn. by rewrite Hc.
  - cbn in Ha. apply andb_true_iff in Ha as [Hc Ha].
    rewrite append_cons. cbn [span]. by rewrite Hc, (IH Ha).
Qed.

Lemma github_match_here_other (c : ascii) (s : string) :
  c ≠ "g"%char → github_match_here (String c s) = None.
Proof.
  intros Hc. unfold github_match_here. cbn [after_prefix].
  by rewrite decide_False by congruence.
Qed.

Lemma github_match_https (s : string) (groups : string * string) :
  github_match_here s = Some groups →
  github_match ("https://" +:+ s) = Some groups.
Proof.
  intros Hs. rewrite !append_cons, append_nil_l.
  do 8 (cbn [github_match]; rewrite github_match_here_other by done).
  destruct s; cbn [github_match]; by rewrite Hs.
Qed.

Lemma github_match_here_groups (org repo rest : string) :
  org ≠ "" → all_chars (λ c, negb (bool_decide (c = "/"%char))) org = true →
  repo ≠ "" →
  all_chars (λ c, negb (bool_decide (c = "/"%char) || bool_decide (c = "."%char))) repo
  = true →
  (rest = "" ∨ ∃ c r, rest = String c r ∧ (c = "/"%char ∨ c = "."%char)) →
  github_match_here ("github.com/" +:+ org +:+ "/" +:+ repo +:+ rest) = Some (org, repo).
Proof.
  intros Horg Horg_chars Hrepo Hrepo_chars Hrest.
  rewrite !append_cons, !append_nil_l. unfold github_match_here.
  cbn [after_prefix]. rewrite !decide_True by done.
  cbn [bool_decide decide_rel orb].
  rewrite (span_app _ org) by (done || right; by eexists _, _).
  destruct org as [|c org]; [done|].
  rewrite (span_app _ repo).
  - by destruct repo.
  - done.
  - destruct Hrest as [->|(c' & r & -> & [->| ->])]; [by left|right..];
      by eexists _, _.
Qed.

(** X17. For a repository URL of the form https://github.com/org/repo, the
    default URL of the environment file is on raw.githubusercontent.com under
    that organisation and repository, the branch of the form (main when it
    is empty) and the source path without its leading and trailing slashes.
    The repository name is read up to its first dot or slash, so that a
    trailing .git or a longer URL gives the same result. *)
Theorem default_env_url (st : State) (org repo rest : string) :
  gitUrl st = "https://github.com/" +:+ org +:+ "/" +:+ repo +:+ rest →
  org ≠ "" → all_chars (λ c, negb (bool_decide (c = "/"%char))) org = true →
  repo ≠ "" →
  all_chars (λ c, negb (bool_decide (c = "/"%char) || bool_decide (c = "."%char))) repo
  = true →
  (rest = "" ∨ ∃ c r, rest = String c r ∧ (c = "/"%char ∨ c = "."%char)) →
  gitPath st ≠ "" →
  getDefaultEnvUrl st
  = Some ("https://raw.githubusercontent.com/" +:+ org +:+ "/" +:+ repo
          +:+ "/refs/heads/" +:+ or_else (gitBranch st) "main" +:+ "/"
          +:+ strip_slashes (gitPath st) +:+ "/.env.openai").
Proof.
  intros Hurl Horg Horg_chars Hrepo Hrepo_chars Hrest Hpath.
  unfold getDefaultEnvUrl.
  rewrite (proj2 (truthy_true _) Hpath), Hurl.
  change ("https://github.com/" +:+ org +:+ "/" +:+ repo +:+ rest)
    with ("https://" +:+ ("github.com/" +:+ org +:+ "/" +:+ repo +:+ rest)).
  rewrite (github_match_https _ (org, repo)) by (by apply github_match_here_groups).
  by rewrite !append_cons.
Qed.

(** X17 on the form filled from the example repository. *)
Lemma default_env_url_witness :
  getDefaultEnvUrl form_filled
  = Some "https://raw.githubusercontent.com/kagenti/agent-examples/refs/heads/main/a2a/weather_service/.env.openai".
Proof.
  apply (default_env_url form_filled "kagenti" "agent-examples" "");
    try (vm_compute; reflexivity); try discriminate.
  by left.
Defined.

End ImportAgentHandlersProperties.

(** ** The agent catalog: the life of the delete dialog *)

Section AgentCatalogDialogProperties.
Import AgentCatalogPage AgentCatalogDialog.

Lemma run_snoc (st : State) (es : list Event) (e : Event) :
  run st (es ++ [e])
  = (step (run st es).1 e, (run st es).2 ++ requests (run st es).1 e).
Proof.
  revert st. induction es as [|e' es IH]; intros st; cbn [run app].
  - by rewrite app_nil_r.
  - rewrite IH. destruct (run (step st e') es) as [st' rs]. cbn [fst snd].
    by rewrite app_assoc.
Qed.

Lemma run_invariant (es : list Event) :
  dialog_invariant es (run mounted es).1 (run mounted es).2.
Proof.
  induction es as [|e es IH] using rev_ind.
  { split_and!; try done; [by left|]. intros r Hr. by apply elem_of_nil in Hr. }
  rewrite run_snoc. cbn [fst snd].
  destruct (run mounted es) as [st rs]. cbn [fst snd] in *.
  destruct IH as (Hclosed & Htext & Hagent & Hreqs).
  assert (∀ r, r ∈ rs →
            ∃ agent, DeleteClick agent ∈ es ++ [e]
              ∧ r = {| del_namespace := namespace agent; del_name := name agent |}
              ∧ (name agent = "" ∨ ConfirmTextChange (name agent) ∈ es ++ [e]))
    as Hreqs'.
  { intros r Hr. destruct (Hreqs r Hr) as (agent & ? & ? & Htyped).
    exists agent. rewrite !elem_of_app. tauto. }
  destruct e as [agent|value| | |]; cbn [step requests];
    rewrite ?app_nil_r; unfold dialog_invariant;
    cbn [handleDeleteClick handleCloseDeleteModal
         deleteModalOpen agentToDelete deleteConfirmText].
  - split_and!; try done.
    + destruct Htext as [?|?]; [by left|right]. cbn. rewrite elem_of_app. by left.
    + intros a [= <-]. rewrite elem_of_app, list_elem_of_singleton. by right.
  - destruct (deleteModalOpen st) eqn:Hopen.
    + split_and!; try done.
      * cbn. by rewrite Hopen.
      * right. cbn. rewrite elem_of_app, list_elem_of_singleton. by right.
      * intros a Ha. rewrite elem_of_app. left. by apply Hagent.
    + destruct (Hclosed eq_refl) as [Hempty Hnone]. split_and!; try done.
      * by left.
      * intros a Ha. by rewrite Hnone in Ha.
  - split_and!; try done. by left.
  - split_and!; try done.
    + destruct Htext as [?|?]; [by left|right]. rewrite elem_of_app. by left.
    + intros a Ha. rewrite elem_of_app. left. by apply Hagent.
    + intros r [Hr|Hr]%elem_of_app; [by apply Hreqs'|].
      unfold handleDeleteConfirm in Hr.
      destruct (agentToDelete st) as [agent|] eqn:Ha; [|by apply elem_of_nil in Hr].
      case_decide as Heq; [|by apply elem_of_nil in Hr].
      apply list_elem_of_singleton in Hr as ->.
      exists agent. rewrite !elem_of_app. split_and!; try done.
      * left. by apply Hagent.
      * rewrite <-Heq. destruct Htext as [?|?]; [by left|right; by left].
  - split_and!; try done. by left.
Qed.

(** X18. On the agent catalog, every delete request made in a run of the page
    names an agent whose delete dialog was opened in that run, and whose
    name, unless it is empty, was typed into the confirmation field in that
    run. *)
Theorem delete_requests_typed (es : list Event) (r : DeleteRequest) :
  r ∈ (run mounted es).2 →
  ∃ agent, DeleteClick agent ∈ es
    ∧ r = {| del_namespace := namespace agent; del_name := name agent |}
    ∧ (name agent = "" ∨ ConfirmTextChange (name agent) ∈ es).
Proof. intros Hr. by apply (run_invariant es). Qed.

(** X19. On the agent catalog, whenever the delete dialog is closed the
    confirmation text is empty and no agent is selected, so that a dialog
    opened from there for an agent with a name does not delete before the
    name is typed. *)
Theorem dialog_opens_blank (es : list Event) :
  deleteModalOpen (run mounted es).1 = false →
  deleteConfirmText (run mounted es).1 = ""
  ∧ agentToDelete (run mounted es).1 = None
  ∧ ∀ agent, name agent ≠ "" →
      (run mounted (es ++ [DeleteClick agent; DeleteConfirm])).2 = (run mounted es).2.
Proof.
  intros Hclosed.
  destruct (run_invariant es) as (Hinv & _). destruct (Hinv Hclosed) as [Htext Hnone].
  split; [done|]. split; [done|]. intros agent Hname.
  change (es ++ [DeleteClick agent; DeleteConfirm])
    with (es ++ [DeleteClick agent] ++ [DeleteConfirm]).
  rewrite app_assoc, !run_snoc. cbn [fst snd step requests].
  rewrite app_nil_r. unfold handleDeleteConfirm, handleDeleteClick.
  cbn [agentToDelete deleteConfirmText]. rewrite Htext.
  rewrite decide_False by done. by rewrite app_nil_r.
Qed.

(** X18 on a run that opens the dialog of the sample agent, types its name
    and confirms. *)
Lemma delete_requests_typed_witness :
  ∃ agent,
    DeleteClick agent
      ∈ [DeleteClick weather_agent; ConfirmTextChange "weather-service"; DeleteConfirm]
    ∧ {| del_namespace := "team1"; del_name := "weather-service" |}
      = {| del_namespace := namespace agent; del_name := name agent |}
    ∧ (name agent = ""
       ∨ ConfirmTextChange (name agent)
           ∈ [DeleteClick weather_agent; ConfirmTextChange "weather-service";
              DeleteConfirm]).
Proof.
  apply (delete_requests_typed
           [DeleteClick weather_agent; ConfirmTextChange "weather-service"; DeleteConfirm]
           {| del_namespace := "team1"; del_name := "weather-service" |}).
  vm_compute. apply list_elem_of_here.
Defined.

(** X19 on a run that opens the dialog, types the name and cancels. *)
Lemma dialog_opens_blank_witness :
  (run mounted
     ([DeleteClick weather_agent; ConfirmTextChange "weather-service"; CloseDeleteModal]
      ++ [DeleteClick weather_agent; DeleteConfirm])).2 = [].
Proof.
  refine (proj2 (proj2 (dialog_opens_blank
           [DeleteClick weather_agent; ConfirmTextChange "weather-service";
            CloseDeleteModal] _)) weather_agent _).
  - reflexivity.
  - discriminate.
Defined.

End AgentCatalogDialogProperties.

(** ** The tool detail page: the URLs it shows *)

Section ToolDetailUrlsProperties.
Import ToolDetailPage ToolDetailUrls.

Lemma length_append (a b : string) :
  String.length (a +:+ b) = (String.length a + String.length b)%nat.
Proof. induction a as [|c a IH]; [done|]. rewrite append_cons. cbn. by rewrite IH. Qed.

Lemma append_same_length (a b x y : string) :
  String.length x = String.length y → a +:+ x = b +:+ y → x = y.
Proof.
  intros Hlen Heq.
  assert (String.length a = String.length b) as Hab.
  { apply (f_equal String.length) in Heq. rewrite !length_append in Heq. lia. }
  revert b Heq Hab. induction a as [|c a IH]; intros [|c' b] Heq Hab; try done.
  rewrite !append_cons in Heq. injection Heq as _ Heq. apply (IH b); [done|].
  cbn in Hab. lia.
Qed.

Lemma external_not_in_cluster (st : State) (cfg : option DashboardConfig) :
  "http://" +:+ interpolate (name st) +:+ "." +:+ interpolate (namespace st)
    +:+ "." +:+ domainName_or_default cfg +:+ ":8080/mcp"
  ≠ mcpInClusterUrl st.
Proof.
  unfold mcpInClusterUrl.
  change ".svc.cluster.local:8000/mcp" with (".svc.cluster.local" +:+ ":8000/mcp").
  rewrite <-!append_assoc. intros Heq.
  by apply append_same_length in Heq.
Qed.

(** X20. The tool detail page shows the external URL of the tool only when
    the route status has been fetched and says that there is a route; while
    the status is loading, when its fetch has failed, or when the answer has
    no such field, the page shows the in-cluster URL. *)
Theorem external_url_needs_route
    (st : State) (routeStatusData : option RouteStatus)
    (dashboardConfig : option DashboardConfig) :
  (toolExternalUrl st routeStatusData dashboardConfig ≠ mcpInClusterUrl st
   ↔ ∃ data, routeStatusData = Some data ∧ hasRoute data = Some true)
  ∧ toolExternalUrl st (Some (routeStatus_queryFn rejected)) dashboardConfig
    = mcpInClusterUrl st.
Proof.
  split; [|done].
  unfold toolExternalUrl, hasRoute_or_false.
  destruct routeStatusData as [[[[]|]]|]; cbn [mbind option_bind default hasRoute].
  - split; [by exists {| hasRoute := Some true |}|].
    intros _. apply external_not_in_cluster.
  - split; [done|]. by intros (? & [= <-] & ?).
  - split; [done|]. by intros (? & [= <-] & ?).
  - split; [done|]. by intros (? & ? & _).
Qed.

End ToolDetailUrlsProperties.

(** ** The build script and the end-to-end deployment *)

Section DeployWeatherToolProperties.
Import Script DeployWeatherTool.

(** X21. With NAMESPACE, REGISTRY and IMAGE_TAG not set in the environment,
    every Build that a run of the build script applies pushes to the very
    image that the end-to-end script deploys, on OpenShift and elsewhere. *)
Theorem default_image_agrees (w : World) (v : string) (m : Manifest) :
  IS_OPENSHIFT w = Some v →
  getenv w "NAMESPACE" = None → getenv w "REGISTRY" = None →
  getenv w "IMAGE_TAG" = None →
  Apply m ∈ trace w → kind m = Build →
  build_output_image m = Some (WEATHER_TOOL_IMAGE v).
Proof.
  intros Hos Hns Hreg Htag Hm Hkind.
  apply applied_one_of_four in Hm.
  rewrite !elem_of_cons, elem_of_nil in Hm.
  destruct Hm as [->|[->|[->|[->|[]]]]]; try done.
  unfold the_build, build_manifest, build_output_image, vars, WEATHER_TOOL_IMAGE.
  cbn [spec REGISTRY TOOL_NAME IMAGE_TAG]. rewrite Hos, Hns, Hreg, Htag.
  cbn [or_default].
  destruct (decide (v = "")) as [->|Hv]; [done|].
  destruct (decide (v = "true")) as [->|Hv']; done.
Qed.

(** X21 on OpenShift. *)
Lemma default_image_agrees_witness :
  build_output_image (the_build world_openshift)
  = Some "image-registry.openshift-image-registry.svc:5000/team1/weather-tool:v0.0.1".
Proof.
  apply (default_image_agrees world_openshift "true" (the_build world_openshift));
    try reflexivity.
  apply (list_elem_of_lookup_2 _ 9). vm_compute. reflexivity.
Defined.

End DeployWeatherToolProperties.

(** ** The import page: validation marks, and the life of a variable *)

Section ImportAgentFormProperties.
Import Js ImportAgentPage ImportAgentHandlers.

Lemma validateForm_marks (st : State) :
  (validateForm st).2 = false ↔ ∃ field, (validateForm st).1 !! field = Some error.
Proof.
  unfold validateForm.
  destruct (negb (truthy (finalName st)));
    [|destruct (negb (test name_regex (finalName st)))];
    (destruct (decide (deploymentMethod st = source));
     [destruct (negb (truthy (gitUrl st)));
      destruct (negb (truthy (gitPath st)) && negb (truthy (selectedExample st)));
      destruct (bool_decide (registryType st ≠ "local")
                && negb (truthy (registryNamespace st)))
     |destruct (negb (truthy (containerImage st)))]);
    cbn [fst snd];
    (split;
     [intros Hvalid; try discriminate Hvalid;
      first [by exists "registryNamespace" | by exists "containerImage"
            | by exists "gitPath" | by exists "gitUrl" | by exists "name"]
     |intros (field & Hfield); try reflexivity;
      repeat (apply lookup_insert_Some in Hfield as [[_ [=]]|[_ Hfield]]);
      by rewrite lookup_empty in Hfield]).
Qed.

(** X22. A submission sends no request exactly when it leaves one of the
    fields of the form marked as an error: a form that is sent shows no
    error mark, and every rejection is shown on some field. *)
Theorem rejected_iff_marked (st : State) :
  (handleSubmit st).2 = []
  ↔ ∃ field, validated (handleSubmit st).1 !! field = Some error.
Proof.
  pose proof (validateForm_marks st) as Hmarks. unfold handleSubmit.
  destruct (validateForm st) as [marks valid]. cbn [fst snd] in Hmarks.
  destruct valid; cbn [negb]; [case_decide|];
    cbn [fst snd validated set_validated]; by rewrite <-Hmarks.
Qed.

Lemma set_envVars_twice (l1 l2 : list EnvVar) (st : State) :
  set_envVars l2 (set_envVars l1 st) = set_envVars l2 st.
Proof. done. Qed.

(** X23. Turning a variable into a secret reference and then typing the name
    and the key of the secret gives the entry with that reference, the
    variable's name kept, no value, and the other variables untouched; from
    then on the handler of config map references leaves the state as it is,
    as does the handler of secret references on an entry without one. *)
Theorem secret_reference_filled
    (index : nat) (st : State) (ev : EnvVar) (secret_name secret_key : string) :
  envVars st !! index = Some ev →
  (∃ st1 st2 st3,
     handleEnvVarTypeChange index secret st = Some st1
     ∧ updateEnvVarSecret index ref_field_name secret_name st1 = Some st2
     ∧ updateEnvVarSecret index ref_field_key secret_key st2 = Some st3
     ∧ st3 = set_envVars
               (<[index := {| ev_name := ev_name ev; ev_value := None;
                              ev_valueFrom :=
                                Some {| secretKeyRef :=
                                          Some {| ref_name := secret_name;
                                                  ref_key := secret_key |};
                                        configMapKeyRef := None |} |}]> (envVars st)) st
     ∧ ∀ field v, updateEnvVarConfigMap index field v st3 = Some st3)
  ∧ (getEnvVarType ev ≠ secret →
     ∀ field v, updateEnvVarSecret index field v st = Some st).
Proof.
  intros E. apply lookup_lt_Some in E as Hlt. split.
  - eexists _, _, _. split_and!.
    + unfold handleEnvVarTypeChange. by rewrite E.
    + unfold updateEnvVarSecret. cbn [envVars set_envVars].
      rewrite list_lookup_insert_eq by done. cbn. reflexivity.
    + unfold updateEnvVarSecret. cbn [envVars set_envVars].
      rewrite list_lookup_insert_eq by (by rewrite length_insert). cbn. reflexivity.
    + rewrite !set_envVars_twice, !list_insert_insert_eq. reflexivity.
    + intros field v. unfold updateEnvVarConfigMap. cbn [envVars set_envVars].
      rewrite list_lookup_insert_eq by (by rewrite !length_insert). done.
  - intros Htype field v. unfold updateEnvVarSecret. rewrite E.
    unfold getEnvVarType in Htype.
    by destruct (ev_valueFrom ev) as [[[ref|] cm]|].
Qed.

(** X23 on the form with the variable API_KEY. *)
Lemma secret_reference_filled_witness :
  ∃ st1 st2 st3,
    handleEnvVarTypeChange 0 secret form_with_var = Some st1
    ∧ updateEnvVarSecret 0 ref_field_name "openai" st1 = Some st2
    ∧ updateEnvVarSecret 0 ref_field_key "api-key" st2 = Some st3
    ∧ envVars st3
      = [ {| ev_name := "API_KEY"; ev_value := None;
             ev_valueFrom :=
               Some {| secretKeyRef :=
                         Some {| ref_name := "openai"; ref_key := "api-key" |};
                       configMapKeyRef := None |} |} ].
Proof.
  destruct (proj1 (secret_reference_filled 0 form_with_var
                     {| ev_name := "API_KEY"; ev_value := Some ""; ev_valueFrom := None |}
                     "openai" "api-key" eq_refl))
    as (st1 & st2 & st3 & E1 & E2 & E3 & E & _).
  exists st1, st2, st3. split; [exact E1|]. split; [exact E2|]. split; [exact E3|].
  rewrite E. reflexivity.
Defined.

Lemma validateForm_set_envVars (l : list EnvVar) (st : State) :
  validateForm (set_envVars l st) = validateForm st.
Proof. done. Qed.

(** X24. Adding a variable and typing its name and its value appends the
    entry to the list and changes nothing in what validation sees; a
    submission that is sent then carries the earlier filled variables
    followed by the new one, which is left out when its name or its value is
    empty. *)
Theorem added_variable_submitted (st : State) (n v : string) :
  ∃ st1 st2,
    updateEnvVar (length (envVars st)) field_name n (addEnvVar st) = Some st1
    ∧ updateEnvVar (length (envVars st)) field_value v st1 = Some st2
    ∧ envVars st2
      = envVars st ++ [ {| ev_name := n; ev_value := Some v; ev_valueFrom := None |} ]
    ∧ validateForm st2 = validateForm st
    ∧ ∀ st3 req, handleSubmit st2 = (st3, [req]) →
        cr_envVars req
        = List.filter env_filled (envVars st)
          ++ if truthy n && truthy v
             then [ {| ev_name := n; ev_value := Some v; ev_valueFrom := None |} ]
             else [].
Proof.
  eexists _, _. split_and!.
  - unfold updateEnvVar, addEnvVar. cbn [envVars set_envVars].
    by rewrite lookup_app_r, Nat.sub_diag by lia.
  - unfold updateEnvVar. cbn [envVars set_envVars].
    rewrite list_lookup_insert_eq by (rewrite length_app; cbn; lia). reflexivity.
  - cbn [envVars set_envVars]. rewrite list_insert_insert_eq.
    rewrite insert_app_r_alt, Nat.sub_diag by lia. reflexivity.
  - by rewrite !validateForm_set_envVars.
  - intros st3 req Hsubmit. rewrite (handleSubmit_envVars _ _ _ Hsubmit).
    cbn [envVars set_envVars]. rewrite list_insert_insert_eq.
    rewrite insert_app_r_alt, Nat.sub_diag by lia. cbn [insert list_insert].
    rewrite List.filter_app. f_equal. cbn [List.filter].
    unfold env_filled, set_var_field. cbn [ev_name ev_value ev_valueFrom from_option].
    by destruct (truthy n), (truthy v).
Qed.

End ImportAgentFormProperties.

(** ** The cluster deployment script as a whole *)

Section DeployKagentiRunProperties.
Import Script DeployKagenti DeployKagentiRun.

Lemma nodes_result (c : Cluster) :
  ((∃ j, (1 ≤ j ≤ 60)%nat ∧ nodes_ready c j) ∧ (wait_for_nodes c).2 = Next tt)
  ∨ (¬ (∃ j, (1 ≤ j ≤ 60)%nat ∧ nodes_ready c j)
     ∧ ∃ code, (wait_for_nodes c).2 = Exit code ∧ code ≠ 0).
Proof.
  destruct (nodes_wait_cases c) as
    [(j & Hj & Hrj & _ & Hr & _)|(Hnever & (code & Hr & Hcode) & _)].
  - left. split; [by exists j|done].
  - right. split; [|by exists code]. intros (j & Hj & Hrj). by destruct (Hnever j Hj).
Qed.

Lemma olm_result (c : Cluster) : (wait_for_olm c).2 = Next tt.
Proof. rewrite wait_for_olm_eq. cbn [snd]. by apply olm_loop_spec. Qed.

Lemma build_result (c : Cluster) :
  ((∃ j, (1 ≤ j ≤ 120)%nat ∧ phase_read c j = "Complete"
         ∧ ∀ k, (1 ≤ k < j)%nat → phase_failed (phase_read c k) = false)
   ∧ (wait_for_build c).2 = Next tt)
  ∨ (¬ (∃ j, (1 ≤ j ≤ 120)%nat ∧ phase_read c j = "Complete"
             ∧ ∀ k, (1 ≤ k < j)%nat → phase_failed (phase_read c k) = false)
     ∧ (wait_for_build c).2 = Exit 1).
Proof.
  destruct (wait_for_build_cases c) as
    [(j & Hj & Hrj & Hbefore & Hr & _)
    |[(j & Hj & Hrj & Hbefore & Hr & _)|(Hnever & Hr & _)]].
  - left. split; [|done]. exists j. split; [done|]. split; [done|].
    intros k Hk. by destruct (Hbefore k Hk).
  - right. split; [|done]. intros (j' & Hj' & Hrj' & Hbefore').
    destruct (Nat.lt_trichotomy j' j) as [Hlt|[->|Hlt]].
    + destruct (Hbefore j') as [? _]; [lia|done].
    + by rewrite Hrj' in Hrj.
    + rewrite Hbefore' in Hrj by lia. done.
  - right. split; [|done]. intros (j & Hj & Hrj & _). by destruct (Hnever j Hj).
Qed.

#[local] Arguments wait_for_nodes : simpl never.
#[local] Arguments wait_for_olm : simpl never.
#[local] Arguments wait_for_build : simpl never.

(** A command under [set -e] in front of the rest of a script. *)
Lemma errexit_then {A} (command : string) (status : Z) (k : Sh A) :
  (errexit command status ;; k).2
  = if decide (status = 0) then k.2 else Exit status.
Proof.
  unfold errexit. destruct k as [t r].
  case_decide; cbn; [by destruct r|done].
Qed.

Lemma capture_then {A} (command : string) (answer : Z * string) (k : string → Sh A) :
  (x ← capture command answer ; k x).2
  = if decide (answer.1 = 0) then (k answer.2).2 else Exit answer.1.
Proof.
  unfold capture. destruct (k answer.2) as [t r] eqn:E.
  case_decide; cbn; [rewrite E; by destruct r|done].
Qed.

Lemma silent_then {A} (t : list event) (k : Sh A) :
  (((t, Next tt) : Sh unit) ;; k).2 = k.2.
Proof. destruct k as [t' r]. cbn. by destruct r. Qed.

Lemma block_then {A} (m : Sh unit) (k : Sh A) :
  (m ;; k).2 = match m.2 with Next _ => k.2 | Exit code => Exit code
               | OutOfFuel => OutOfFuel end.
Proof. destruct m as [t [[]|code|]], k as [t' r]; cbn; try done. Qed.

Lemma inline_fallback_verdict (h : Host) (HELPER_SCRIPT : string) :
  let ok := oc_apply h = 0 ∧ (oc_start_build h).2 ≠ "" ∧ build_completes h
            ∧ delete_job h = 0 ∧ wait_job h = 0
            ∧ rollout_restart h = 0 ∧ rollout_status h = 0 in
  (ok ∧ (inline_fallback h HELPER_SCRIPT).2 = Next tt)
  ∨ (¬ ok ∧ ∃ code, (inline_fallback h HELPER_SCRIPT).2 = Exit code ∧ code ≠ 0).
Proof.
  intros ok. subst ok. unfold inline_fallback, echo, run, sleep.
  rewrite !silent_then, errexit_then.
  destruct (decide (oc_apply h = 0)) as [H1|H1];
    [|right; split; [tauto|by eexists]].
  rewrite !silent_then.
  destruct (decide ((oc_start_build h).2 = "")) as [H2|H2].
  { right. split; [tauto|]. exists 1. by rewrite silent_then. }
  rewrite block_then.
  destruct (build_result (cluster h)) as [[H3 ->]|[H3 ->]];
    [|right; split; [unfold build_completes; tauto|by eexists]].
  rewrite !silent_then, errexit_then.
  destruct (decide (delete_job h = 0)) as [H4|H4];
    [|right; split; [tauto|by eexists]].
  rewrite !silent_then, block_then.
  destruct (decide (wait_job h = 0)) as [H5|H5].
  2:{ right. split; [tauto|]. exists 1. by rewrite !silent_then. }
  cbn [snd mret Sh_ret ret]. rewrite errexit_then.
  destruct (decide (rollout_restart h = 0)) as [H6|H6];
    [|right; split; [tauto|by eexists]].
  unfold errexit. cbn [snd].
  destruct (decide (rollout_status h = 0)) as [H7|H7];
    [|right; split; [tauto|by eexists]].
  left. unfold build_completes. tauto.
Qed.

#[local] Arguments inline_fallback : simpl never.

Lemma oauth_bootstrap_verdict (h : Host) (HELPER_SCRIPT : string) (w : string) :
  let block : Sh unit :=
    if helper_executable h then errexit "helper script" (helper h)
    else if helper_is_file h then
      echo w ;; errexit "bash helper script" (bash_helper h)
    else inline_fallback h HELPER_SCRIPT in
  (oauth_bootstrap_ok h ∧ block.2 = Next tt)
  ∨ (¬ oauth_bootstrap_ok h ∧ ∃ code, block.2 = Exit code ∧ code ≠ 0).
Proof.
  intros block. subst block. unfold oauth_bootstrap_ok.
  destruct (helper_executable h); [|destruct (helper_is_file h)].
  - unfold errexit. cbn [snd]. case_decide; [by left|right; split; [done|by eexists]].
  - unfold echo. rewrite silent_then. unfold errexit. cbn [snd].
    case_decide; [by left|right; split; [done|by eexists]].
  - apply inline_fallback_verdict.
Qed.

Lemma ret_then {A B} (a : A) (k : A → Sh B) : (x ← (mret a : Sh A) ; k x).2 = (k a).2.
Proof. destruct (k a) as [t r] eqn:E. cbn. rewrite E. by destruct r. Qed.

Lemma main_verdict (h : Host) :
  (deploys h ∧ (main h).2 = Next tt)
  ∨ (¬ deploys h ∧ ∃ code, (main h).2 = Exit code ∧ code ≠ 0).
Proof.
  unfold main, deploys, prelude_ok.
  rewrite capture_then.
  destruct (decide ((script_dir h).1 = 0)) as [H1|H1];
    [|right; split; [tauto|by eexists]].
  match goal with
  | |- context [ mbind ?k (if decide (or_empty (GITHUB_WORKSPACE h) = "")
                           then _ else _) ] => set (K := k)
  end.
  set (rest_ok :=
         (which_python3 h).1 = 0
         ∧ (secrets_file_exists h = false → write_secrets_file h = 0)
         ∧ cd_repo_root h = 0
         ∧ nodes_become_ready h ∧ full_test h = 0
         ∧ (or_empty (GITHUB_ACTIONS h) = "true" →
            oauth_bootstrap_ok h
            ∧ (or_empty (GITHUB_STEP_SUMMARY h) ≠ "" → append_summary h = 0))).
  assert (∀ REPO_ROOT,
            (rest_ok ∧ (K REPO_ROOT).2 = Next tt)
            ∨ (¬ rest_ok ∧ ∃ code, (K REPO_ROOT).2 = Exit code ∧ code ≠ 0)) as HK.
  { intros REPO_ROOT.
    cut (match (K REPO_ROOT).2 with
         | Next _ => rest_ok
         | Exit code => ¬ rest_ok ∧ code ≠ 0
         | OutOfFuel => False
         end).
    { destruct (K REPO_ROOT).2 as [[]|code|]; [by left| |done].
      intros [? ?]. right. split; [done|by exists code]. }
    subst K rest_ok. cbn beta. unfold echo.
    rewrite silent_then, capture_then.
    destruct (decide ((which_python3 h).1 = 0)) as [H3|H3]; [|split; [tauto|done]].
    rewrite block_then.
    assert ((if secrets_file_exists h then mret ()
             else ([Echo "Creating secrets file for CI..."], Next ()) ;;
                  errexit "cat > secrets file" (write_secrets_file h)).2
            = if decide (secrets_file_exists h = false → write_secrets_file h = 0)
              then Next tt else Exit (write_secrets_file h)) as ->.
    { destruct (secrets_file_exists h).
      - by rewrite decide_True by done.
      - rewrite silent_then. unfold errexit. cbn [snd].
        repeat case_decide; try done; tauto. }
    destruct (decide (secrets_file_exists h = false → write_secrets_file h = 0))
      as [H4|H4].
    2:{ split; [tauto|]. intros H0. apply H4. by intros _. }
    rewrite errexit_then.
    destruct (decide (cd_repo_root h = 0)) as [H5|H5]; [|split; [tauto|done]].
    rewrite block_then.
    destruct (nodes_result (cluster h)) as [[H6 ->]|[H6 (code & -> & Hcode)]];
      [|split; [unfold nodes_become_ready; tauto|done]].
    rewrite block_then, olm_result, errexit_then.
    destruct (decide (full_test h = 0)) as [H7|H7]; [|split; [tauto|done]].
    destruct (decide (or_empty (GITHUB_ACTIONS h) = "true")) as [H8|H8].
    2:{ unfold nodes_become_ready. cbn [snd mret Sh_ret ret]. tauto. }
    rewrite silent_then, block_then.
    match goal with
    | |- context [ (if helper_executable h then _ else
                    if helper_is_file h then ([Echo ?w], _) ;; _
                    else inline_fallback h ?p).2 ] =>
        destruct (oauth_bootstrap_verdict h p w) as [[H9 E9]|[H9 (code & E9 & Hcode)]]
    end; unfold echo in E9; rewrite E9; [|split; [tauto|done]].
    destruct (decide (or_empty (GITHUB_STEP_SUMMARY h) = "")) as [H10|H10].
    { unfold nodes_become_ready. cbn [snd mret Sh_ret ret]. tauto. }
    unfold errexit. cbn [snd].
    destruct (decide (append_summary h = 0)) as [H11|H11].
    - unfold nodes_become_ready. tauto.
    - split; [tauto|done]. }
  clearbody K. subst rest_ok.
  destruct (decide (or_empty (GITHUB_WORKSPACE h) = "")) as [Hw|Hw].
  - rewrite capture_then.
    destruct (decide ((repo_root_from_script_dir h).1 = 0)) as [H2|H2];
      [|right; split; [tauto|by eexists]].
    destruct (HK (repo_root_from_script_dir h).2) as [[Hok ->]|[Hok (code & -> & Hcode)]].
    + left. tauto.
    + right. split; [tauto|by eexists].
  - rewrite ret_then.
    destruct (HK (or_empty (GITHUB_WORKSPACE h))) as [[Hok ->]|[Hok (code & -> & Hcode)]].
    + left. tauto.
    + right. split; [tauto|by eexists].
Qed.

(** X25. The deployment script ends with exit status 0 exactly when
    everything before the waits succeeds, the nodes are seen ready at one of
    the 60 attempts, the installation and agent run succeeds and, in GitHub
    Actions, the OAuth bootstrap passes (by the helper script, or by the
    inline fallback with its build seen Complete) and the summary can be
    written; otherwise it ends with a non-zero status. The operator lifecycle
    manager, the status of [oc start-build], [helm upgrade] and the printing
    of logs never decide the outcome. *)
Theorem deploy_succeeds_iff (h : Host) :
  (exit_status h = Some 0 ↔ deploys h)
  ∧ ∃ code, exit_status h = Some code ∧ (code = 0 ∨ ¬ deploys h).
Proof.
  unfold exit_status.
  destruct (main_verdict h) as [[Hd ->]|[Hd (code & -> & Hcode)]].
  - split; [done|]. exists 0. by split; [|left].
  - split; [split; [intros [= ?]; congruence|done]|]. exists code. by split; [|right].
Qed.

Lemma host_ci_deploys : deploys host_ci.
Proof.
  split_and!; try done.
  - exists 3%nat. split; [lia|].
    exists ["Ready"; "Ready"], ["Ready"; "Ready"].
    split_and!; try done. by repeat constructor.
  - intros _. split; [|done]. cbn. split_and!; try done.
    exists 3%nat. split; [lia|]. split; [done|].
    intros k Hk. by assert (k = 1 ∨ k = 2)%nat as [->| ->] by lia.
Qed.

(** X25 on a machine in GitHub Actions without the helper script, where the
    operator lifecycle manager never shows up and [helm upgrade] fails: the
    script still ends with status 0. *)
Lemma deploy_succeeds_iff_witness : exit_status host_ci = Some 0.
Proof.
  apply (proj2 (proj1 (deploy_succeeds_iff host_ci))).
  apply host_ci_deploys.
Defined.

End DeployKagentiRunProperties.
